(** * MyPaint: the editing engine of the diagram canvas

    A shallow embedding of [MyPaint/DrawingArea.cpp] (the canvas controller
    [DrawingArea] and the handle code of [ShapeBase]) together with the
    properties of the connection graph, of the history engine, of loading and
    of the resize policy.

    Conventions of the embedding.
    - A C++ [int] is a [Z]; signed overflow is undefined in C++ and lies
      outside the model: where a property depends on the value of such
      arithmetic, the absence of overflow is a hypothesis ([isInt],
      [resizeWithinInt]).  [/] on [int] is [Z.quot] (truncation).
    - [std::vector] is a [list]; positions are [nat] once a bounds check has
      produced them.  [operator[]] out of range and an iterator before
      [begin()] are undefined behaviour: the model returns [None] there, so a
      function that may run into them has an [option] result.
    - [std::stack] is a [list] whose head is the top.
    - [std::unique_ptr<ShapeBase>] is [option ShapeBase] where the code tests
      it for null, a plain [ShapeBase] inside [shapes].
    - Qt signals ([emit ...]) and repaint requests ([update()]) do not change
      the state of the canvas and are left out.
    - [double] computations (rotation angles, [cos], [sin], [atan2], the zoom
      factor) are not interpreted: angles are values of an abstract type with
      abstract operations, and the event handlers take the document position
      and the snap distance that the zoom factor yields. *)

From stdpp Require Import base option list numbers strings.
From Stdlib Require Import ZArith Lia.

Local Open Scope Z_scope.

(** ** Qt value types *)

Record QPoint := mkQPoint { px : Z; py : Z }.

Record QSize := mkQSize { sz_width : Z; sz_height : Z }.

(** [QRect] keeps its two corners, as Qt does: the right and bottom
    coordinates are inclusive, so [width = x2 - x1 + 1]. *)
Record QRect := mkQRect { rx1 : Z; ry1 : Z; rx2 : Z; ry2 : Z }.

Record QLine := mkQLine { p1 : QPoint; p2 : QPoint }.

(** A colour with its validity flag ([QColor()] is the invalid colour). *)
Record QColor := mkQColor { c_valid : bool; c_red : Z; c_green : Z; c_blue : Z; c_alpha : Z }.

Module Point.

Definition origin : QPoint := mkQPoint 0 0.

Definition add (a b : QPoint) : QPoint := mkQPoint (px a + px b) (py a + py b).

Definition sub (a b : QPoint) : QPoint := mkQPoint (px a - px b) (py a - py b).

Definition neg (a : QPoint) : QPoint := mkQPoint (- px a) (- py a).

Definition manhattanLength (a : QPoint) : Z := Z.abs (px a) + Z.abs (py a).

Definition eqb (a b : QPoint) : bool := (px a =? px b) && (py a =? py b).

End Point.

Module Rect.

(** [QRect(x, y, w, h)] *)
Definition make (x y w h : Z) : QRect := mkQRect x y (x + w - 1) (y + h - 1).

(** [QRect()], the null rectangle *)
Definition null : QRect := mkQRect 0 0 (-1) (-1).

Definition left (r : QRect) : Z := rx1 r.
Definition top (r : QRect) : Z := ry1 r.
Definition right (r : QRect) : Z := rx2 r.
Definition bottom (r : QRect) : Z := ry2 r.

Definition width (r : QRect) : Z := rx2 r - rx1 r + 1.
Definition height (r : QRect) : Z := ry2 r - ry1 r + 1.

Definition isEmpty (r : QRect) : bool := (rx2 r <? rx1 r) || (ry2 r <? ry1 r).

Definition topLeft (r : QRect) : QPoint := mkQPoint (rx1 r) (ry1 r).
Definition topRight (r : QRect) : QPoint := mkQPoint (rx2 r) (ry1 r).
Definition bottomLeft (r : QRect) : QPoint := mkQPoint (rx1 r) (ry2 r).
Definition bottomRight (r : QRect) : QPoint := mkQPoint (rx2 r) (ry2 r).

Definition center (r : QRect) : QPoint :=
  mkQPoint ((rx1 r + rx2 r) ÷ 2) ((ry1 r + ry2 r) ÷ 2).

Definition setLeft (x : Z) (r : QRect) : QRect := mkQRect x (ry1 r) (rx2 r) (ry2 r).
Definition setTop (y : Z) (r : QRect) : QRect := mkQRect (rx1 r) y (rx2 r) (ry2 r).
Definition setRight (x : Z) (r : QRect) : QRect := mkQRect (rx1 r) (ry1 r) x (ry2 r).
Definition setBottom (y : Z) (r : QRect) : QRect := mkQRect (rx1 r) (ry1 r) (rx2 r) y.

Definition setTopLeft (p : QPoint) (r : QRect) : QRect := mkQRect (px p) (py p) (rx2 r) (ry2 r).
Definition setTopRight (p : QPoint) (r : QRect) : QRect := mkQRect (rx1 r) (py p) (px p) (ry2 r).
Definition setBottomLeft (p : QPoint) (r : QRect) : QRect := mkQRect (px p) (ry1 r) (rx2 r) (py p).
Definition setBottomRight (p : QPoint) (r : QRect) : QRect := mkQRect (rx1 r) (ry1 r) (px p) (py p).

(** [QRect::contains(const QPoint &)], with Qt's treatment of rectangles
    whose corners are swapped. *)
Definition contains (r : QRect) (p : QPoint) : bool :=
  let '(l, rr) := if rx2 r <? rx1 r - 1 then (rx2 r + 1, rx1 r - 1) else (rx1 r, rx2 r) in
  let '(t, b) := if ry2 r <? ry1 r - 1 then (ry2 r + 1, ry1 r - 1) else (ry1 r, ry2 r) in
  negb ((px p <? l) || (rr <? px p)) && negb ((py p <? t) || (b <? py p)).

Definition translated (d : QPoint) (r : QRect) : QRect :=
  mkQRect (rx1 r + px d) (ry1 r + py d) (rx2 r + px d) (ry2 r + py d).

Definition eqb (a b : QRect) : bool :=
  (rx1 a =? rx1 b) && (ry1 a =? ry1 b) && (rx2 a =? rx2 b) && (ry2 a =? ry2 b).

End Rect.

Module Color.

(** [operator==] on [QColor] *)
Definition eqb (a b : QColor) : bool :=
  Bool.eqb (c_valid a) (c_valid b) &&
  (c_red a =? c_red b) && (c_green a =? c_green b) &&
  (c_blue a =? c_blue b) && (c_alpha a =? c_alpha b).

(** [QColor()] *)
Definition invalid : QColor := mkQColor false 0 0 0 255.

Definition rgb (r g b : Z) : QColor := mkQColor true r g b 255.

End Color.

(** ** The document format: Qt's JSON values

    Numbers are the integral ones ([toInt] of any other number is the
    default [0], like the out-of-range case below). *)

#[warning="-register-all"]
Inductive QJsonValue :=
| JNull
| JBool (b : bool)
| JNumber (n : Z)
| JString (s : string)
| JArray (items : list QJsonValue)
| JObject (members : list (string * QJsonValue)).

Module Json.

Fixpoint assoc (key : string) (members : list (string * QJsonValue)) : QJsonValue :=
  match members with
  | [] => JNull
  | (k, v) :: rest => if String.eqb k key then v else assoc key rest
  end.

(** [obj[key]] on a [QJsonObject]; a missing key gives an undefined value,
    which every conversion below treats like null. *)
Definition get (key : string) (v : QJsonValue) : QJsonValue :=
  match v with JObject members => assoc key members | _ => JNull end.

Definition toInt (v : QJsonValue) : Z :=
  match v with
  | JNumber n => if (-2147483648 <=? n) && (n <=? 2147483647) then n else 0
  | _ => 0
  end.

Definition toBool (v : QJsonValue) : bool :=
  match v with JBool b => b | _ => false end.

Definition toString (v : QJsonValue) : string :=
  match v with JString s => s | _ => EmptyString end.

Definition toArray (v : QJsonValue) : list QJsonValue :=
  match v with JArray items => items | _ => [] end.

(** [toObject()]: the value itself when it is an object, else an empty one. *)
Definition toObject (v : QJsonValue) : QJsonValue :=
  match v with JObject _ => v | _ => JObject [] end.

End Json.

(** ** Handles, connections, snap information *)

Module Handle.

Inductive Type_ := Scale | Rotate | Arrow | ArrowAnchor.

Record t := mk { rect : QRect; type : Type_; direction : Z }.

Definition type_eqb (a b : Type_) : bool :=
  match a, b with
  | Scale, Scale | Rotate, Rotate | Arrow, Arrow | ArrowAnchor, ArrowAnchor => true
  | _, _ => false
  end.

End Handle.

Module ArrowConnection.

Record t := mk {
  arrowIndex : Z;
  shapeIndex : Z;
  handleIndex : Z;
  isStartPoint : bool }.

End ArrowConnection.

Module SnapInfo.

Record t := mk { shapeIndex : Z; handleIndex : Z; pos : QPoint }.

(** [SnapInfo()] and [{-1, -1, QPoint()}] *)
Definition none : t := mk (-1) (-1) Point.origin.

End SnapInfo.

Inductive OperationType := Add | Remove | Move | Resize | Property.

(** The dynamic type of a shape, which [dynamic_cast<ShapeArrow *>] and the
    [type] discriminator of the document format observe. *)
Inductive ShapeKind :=
| ShapeRect | ShapeEllipse | ShapeArrow | ShapePentagon
| ShapeTriangle | ShapeDiamond | ShapeRoundedRect.

(** ** What the canvas code takes from elsewhere *)

(** The [double] side of the code: rotation angles and the trigonometry
    applied to them. *)
Class FloatOps := {
  Angle : Type;
  (** [0.0], the rotation of a new shape *)
  angle_zero : Angle;
  (** [m_rotation != 0.0] *)
  angle_nonzero : Angle -> bool;
  (** [QPoint(x * cos a - y * sin a, x * sin a + y * cos a)] *)
  rotate_vec : Angle -> QPoint -> QPoint;
  (** [atan2(cur.y, cur.x) - atan2(last.y, last.x)] *)
  atan2_delta : QPoint -> QPoint -> Angle;
  (** [+] on [double] *)
  angle_add : Angle -> Angle -> Angle
}.

(** The Qt runtime behind [loadFromFile]: the file system, the JSON parser
    and the colour names. *)
Class QtRuntime := {
  (** [QFile::open(ReadOnly)] followed by [readAll()]; [None] when the file
      cannot be opened *)
  file_read : string -> option (list Byte.byte);
  (** [QJsonDocument::fromJson]; [None] is the null document *)
  QJsonDocument_fromJson : list Byte.byte -> option QJsonValue;
  (** [QColor(const QString &)] *)
  QColor_fromName : string -> QColor
}.

(** ** Shapes *)

Section Shapes.

Context {FO : FloatOps}.

(** The state of a shape that the canvas code reads and writes.  [m_line]
    holds the two endpoints of a [ShapeArrow]. *)
Record ShapeBase := mkShape {
  kind : ShapeKind;
  m_rect : QRect;
  m_line : QLine;
  m_lineColor : QColor;
  m_lineWidth : Z;
  m_rotation : Angle;
  m_selectedHandleIndex : Z }.

(** The virtual methods of [ShapeBase] whose bodies live in the shape classes
    and in [ShapeBase.h], which are not among the sources. *)
Class ShapeVirtuals := {
  getArrowAnchors : ShapeBase -> list Handle.t;
  mapArrowHandleToAnchor : ShapeBase -> Z -> Z;
  needPlusHandles : ShapeBase -> bool;
  contains : ShapeBase -> QPoint -> bool;
  fromJson : ShapeBase -> QJsonValue -> ShapeBase;
  rotate : Angle -> ShapeBase -> ShapeBase;
  (** the overrides of [ShapeArrow] *)
  arrow_getHandles : ShapeBase -> list Handle.t;
  arrow_setRect : QRect -> ShapeBase -> ShapeBase;
  arrow_getRect : ShapeBase -> QRect;
  (** the style a factory-made shape starts with *)
  defaultLineColor : QColor;
  defaultLineWidth : Z
}.

Context {SV : ShapeVirtuals}.

(** [dynamic_cast<ShapeArrow *>(shape) != nullptr] *)
Definition isArrow (s : ShapeBase) : bool :=
  match kind s with ShapeArrow => true | _ => false end.

(** Modelled from the spec: [clone()] is a deep copy, so the copy is the same
    value. *)
Definition clone (s : ShapeBase) : ShapeBase := s.

(** Modelled from the spec: the accessors of [ShapeBase.h] and of
    [ShapeArrow], which are not among the sources, read and write the member
    they are named after ([getLine], [setP1], [setP2], [getRect],
    [getLineColor], [setLineColor], [getLineWidth], [setLineWidth],
    [getSelectedHandleIndex], [setSelectedHandleIndex]); a handle is selected
    when the index is not [-1], and [clearHandleSelection] stores [-1]. *)
Definition getLine (s : ShapeBase) : QLine := m_line s.

Definition setP1 (p : QPoint) (s : ShapeBase) : ShapeBase :=
  mkShape (kind s) (m_rect s) (mkQLine p (p2 (m_line s))) (m_lineColor s)
          (m_lineWidth s) (m_rotation s) (m_selectedHandleIndex s).

Definition setP2 (p : QPoint) (s : ShapeBase) : ShapeBase :=
  mkShape (kind s) (m_rect s) (mkQLine (p1 (m_line s)) p) (m_lineColor s)
          (m_lineWidth s) (m_rotation s) (m_selectedHandleIndex s).

(** The endpoint of an arrow that a connection with this [isStartPoint]
    binds. *)
Definition endpoint (isStart : bool) (s : ShapeBase) : QPoint :=
  if isStart then p1 (m_line s) else p2 (m_line s).

Definition setEndpoint (isStart : bool) (p : QPoint) (s : ShapeBase) : ShapeBase :=
  if isStart then setP1 p s else setP2 p s.

(** Modelled from the spec: [ShapeArrow::updateConnection(isStartPoint,
    delta)] is the delta-based nudge of one endpoint. *)
Definition updateConnection (isStart : bool) (delta : QPoint) (s : ShapeBase) : ShapeBase :=
  setEndpoint isStart (Point.add (endpoint isStart s) delta) s.

Definition getRect (s : ShapeBase) : QRect :=
  if isArrow s then arrow_getRect s else m_rect s.

Definition set_m_rect (r : QRect) (s : ShapeBase) : ShapeBase :=
  mkShape (kind s) r (m_line s) (m_lineColor s) (m_lineWidth s)
          (m_rotation s) (m_selectedHandleIndex s).

(** Modelled from the spec: [setRect(rect)] and [resize(rect)] store the
    bounding rectangle of a shape that has one; an arrow has its own
    version. *)
Definition setRect (r : QRect) (s : ShapeBase) : ShapeBase :=
  if isArrow s then arrow_setRect r s else set_m_rect r s.

Definition resize (r : QRect) (s : ShapeBase) : ShapeBase := setRect r s.

Definition boundingRect (s : ShapeBase) : QRect := getRect s.

(** Modelled from the spec: [moveBy(delta)] translates the geometry, the
    rectangle of a shape and the two endpoints of an arrow. *)
Definition moveBy (delta : QPoint) (s : ShapeBase) : ShapeBase :=
  if isArrow s
  then mkShape (kind s) (m_rect s)
               (mkQLine (Point.add (p1 (m_line s)) delta) (Point.add (p2 (m_line s)) delta))
               (m_lineColor s) (m_lineWidth s) (m_rotation s) (m_selectedHandleIndex s)
  else set_m_rect (Rect.translated delta (m_rect s)) s.

Definition getLineColor (s : ShapeBase) : QColor := m_lineColor s.
Definition getLineWidth (s : ShapeBase) : Z := m_lineWidth s.

Definition setLineColor (c : QColor) (s : ShapeBase) : ShapeBase :=
  mkShape (kind s) (m_rect s) (m_line s) c (m_lineWidth s)
          (m_rotation s) (m_selectedHandleIndex s).

Definition setLineWidth (w : Z) (s : ShapeBase) : ShapeBase :=
  mkShape (kind s) (m_rect s) (m_line s) (m_lineColor s) w
          (m_rotation s) (m_selectedHandleIndex s).

Definition set_m_rotation (a : Angle) (s : ShapeBase) : ShapeBase :=
  mkShape (kind s) (m_rect s) (m_line s) (m_lineColor s) (m_lineWidth s)
          a (m_selectedHandleIndex s).

Definition getSelectedHandleIndex (s : ShapeBase) : Z := m_selectedHandleIndex s.

Definition setSelectedHandleIndex (i : Z) (s : ShapeBase) : ShapeBase :=
  mkShape (kind s) (m_rect s) (m_line s) (m_lineColor s) (m_lineWidth s)
          (m_rotation s) i.

Definition isHandleSelected (s : ShapeBase) : bool := negb (m_selectedHandleIndex s =? -1).

Definition clearHandleSelection (s : ShapeBase) : ShapeBase := setSelectedHandleIndex (-1) s.

(** Modelled from the spec: [ShapeFactory] builds a shape of the requested
    class around the given geometry, unrotated, with no handle selected. *)
Definition ShapeFactory_create (k : ShapeKind) (r : QRect) : ShapeBase :=
  mkShape k r (mkQLine Point.origin Point.origin) defaultLineColor defaultLineWidth
          angle_zero (-1).

Definition ShapeFactory_createArrow (l : QLine) : ShapeBase :=
  mkShape ShapeArrow Rect.null l defaultLineColor defaultLineWidth angle_zero (-1).

(** *** [ShapeBase::getHandles] *)

Definition rotatePoint (a : Angle) (center pt : QPoint) : QPoint :=
  Point.add (rotate_vec a (Point.sub pt center)) center.

(** A handle of side [size] whose rectangle starts [half] before [p]. *)
Definition handleAt (p : QPoint) (half size : Z) (ty : Handle.Type_) (dir : Z) : Handle.t :=
  Handle.mk (Rect.make (px p - half) (py p - half) size size) ty dir.

Definition scaleHandles (s : ShapeBase) : list Handle.t :=
  let rect := boundingRect s in
  let w := Rect.width rect in
  let h := Rect.height rect in
  let x := Rect.left rect in
  let y := Rect.top rect in
  let size := 8 in
  let center := Rect.center rect in
  if angle_nonzero (m_rotation s) then
    let rot := rotatePoint (m_rotation s) center in
    let topLeft := rot (mkQPoint x y) in
    let topMiddle := rot (mkQPoint (x + w ÷ 2) y) in
    let topRight := rot (mkQPoint (x + w) y) in
    let leftMiddle := rot (mkQPoint x (y + h ÷ 2)) in
    let rightMiddle := rot (mkQPoint (x + w) (y + h ÷ 2)) in
    let bottomLeft := rot (mkQPoint x (y + h)) in
    let bottomMiddle := rot (mkQPoint (x + w ÷ 2) (y + h)) in
    let bottomRight := rot (mkQPoint (x + w) (y + h)) in
    [ handleAt topLeft 4 size Handle.Scale 0;
      handleAt topMiddle 4 size Handle.Scale 1;
      handleAt topRight 4 size Handle.Scale 2;
      handleAt leftMiddle 4 size Handle.Scale 3;
      handleAt rightMiddle 4 size Handle.Scale 4;
      handleAt bottomLeft 4 size Handle.Scale 5;
      handleAt bottomMiddle 4 size Handle.Scale 6;
      handleAt bottomRight 4 size Handle.Scale 7 ]
  else
    [ Handle.mk (Rect.make (x - 4) (y - 4) size size) Handle.Scale 0;
      Handle.mk (Rect.make (x + w ÷ 2 - 4) (y - 4) size size) Handle.Scale 1;
      Handle.mk (Rect.make (x + w - 4) (y - 4) size size) Handle.Scale 2;
      Handle.mk (Rect.make (x - 4) (y + h ÷ 2 - 4) size size) Handle.Scale 3;
      Handle.mk (Rect.make (x + w - 4) (y + h ÷ 2 - 4) size size) Handle.Scale 4;
      Handle.mk (Rect.make (x - 4) (y + h - 4) size size) Handle.Scale 5;
      Handle.mk (Rect.make (x + w ÷ 2 - 4) (y + h - 4) size size) Handle.Scale 6;
      Handle.mk (Rect.make (x + w - 4) (y + h - 4) size size) Handle.Scale 7 ].

Definition rotateHandle (s : ShapeBase) : Handle.t :=
  let rect := boundingRect s in
  let w := Rect.width rect in
  let h := Rect.height rect in
  let x := Rect.left rect in
  let y := Rect.top rect in
  let center := Rect.center rect in
  let rotateSize := 12 in
  let rotateOffset := 30 in
  if angle_nonzero (m_rotation s) then
    let rotateHandlePos := mkQPoint (px center) (py center - h ÷ 2 - rotateOffset) in
    let finalRotatePos := rotatePoint (m_rotation s) center rotateHandlePos in
    Handle.mk (Rect.make (px finalRotatePos - rotateSize ÷ 2)
                         (py finalRotatePos - rotateSize ÷ 2) rotateSize rotateSize)
              Handle.Rotate 8
  else
    Handle.mk (Rect.make (x + w ÷ 2 - rotateSize ÷ 2) (y - rotateOffset - rotateSize ÷ 2)
                         rotateSize rotateSize)
              Handle.Rotate 8.

Definition plusHandles (s : ShapeBase) : list Handle.t :=
  let rect := boundingRect s in
  let w := Rect.width rect in
  let h := Rect.height rect in
  let x := Rect.left rect in
  let y := Rect.top rect in
  let center := Rect.center rect in
  let arrowSize := 24 in
  let offset := 30 in
  if angle_nonzero (m_rotation s) then
    let rot := rotatePoint (m_rotation s) center in
    let topArrow := rot (mkQPoint (x + w ÷ 2) (y - offset + arrowSize ÷ 2)) in
    let bottomArrow := rot (mkQPoint (x + w ÷ 2) (y + h + offset - arrowSize ÷ 2)) in
    let leftArrow := rot (mkQPoint (x - offset + arrowSize ÷ 2) (y + h ÷ 2)) in
    let rightArrow := rot (mkQPoint (x + w + offset - arrowSize ÷ 2) (y + h ÷ 2)) in
    [ handleAt topArrow (arrowSize ÷ 2) arrowSize Handle.Arrow 9;
      handleAt bottomArrow (arrowSize ÷ 2) arrowSize Handle.Arrow 10;
      handleAt leftArrow (arrowSize ÷ 2) arrowSize Handle.Arrow 11;
      handleAt rightArrow (arrowSize ÷ 2) arrowSize Handle.Arrow 12 ]
  else
    [ Handle.mk (Rect.make (x + w ÷ 2 - arrowSize ÷ 2) (y - offset) arrowSize arrowSize)
                Handle.Arrow 9;
      Handle.mk (Rect.make (x + w ÷ 2 - arrowSize ÷ 2) (y + h + offset - arrowSize)
                           arrowSize arrowSize)
                Handle.Arrow 10;
      Handle.mk (Rect.make (x - offset) (y + h ÷ 2 - arrowSize ÷ 2) arrowSize arrowSize)
                Handle.Arrow 11;
      Handle.mk (Rect.make (x + w + offset - arrowSize) (y + h ÷ 2 - arrowSize ÷ 2)
                           arrowSize arrowSize)
                Handle.Arrow 12 ].

(** [ShapeBase::getHandles]: eight scale handles, the rotate handle and, for
    a shape that offers connections, the four plus handles. *)
Definition ShapeBase_getHandles (s : ShapeBase) : list Handle.t :=
  scaleHandles s ++ [rotateHandle s] ++ (if needPlusHandles s then plusHandles s else []).

(** The virtual call [shape->getHandles()]. *)
Definition getHandles (s : ShapeBase) : list Handle.t :=
  if isArrow s then arrow_getHandles s else ShapeBase_getHandles s.

(** *** [ShapeBase::calculateNewRect]

    The sums and differences of [int] are those of [Z]: the definition is
    the function on the drags whose arithmetic does not overflow
    ([resizeWithinInt] below states which these are); on the others C++
    leaves the result undefined. *)

Definition calculateNewRect (s : ShapeBase) (mousePos lastMousePos : QPoint) : QRect :=
  let currentRect := boundingRect s in
  let delta := Point.sub mousePos lastMousePos in
  let switch : option QRect :=
    match m_selectedHandleIndex s with
    | 0 => Some (Rect.setTopLeft (Point.add (Rect.topLeft currentRect) delta) currentRect)
    | 1 => Some (Rect.setTop (Rect.top currentRect + py delta) currentRect)
    | 2 => Some (Rect.setTopRight (Point.add (Rect.topRight currentRect) delta) currentRect)
    | 3 => Some (Rect.setLeft (Rect.left currentRect + px delta) currentRect)
    | 4 => Some (Rect.setRight (Rect.right currentRect + px delta) currentRect)
    | 5 => Some (Rect.setBottomLeft (Point.add (Rect.bottomLeft currentRect) delta) currentRect)
    | 6 => Some (Rect.setBottom (Rect.bottom currentRect + py delta) currentRect)
    | 7 => Some (Rect.setBottomRight (Point.add (Rect.bottomRight currentRect) delta) currentRect)
    | _ => None
    end in
  match switch with
  | None => Rect.null
  | Some newRect =>
      if (Rect.width newRect <? 1) || (Rect.height newRect <? 1)
      then currentRect
      else newRect
  end.

(** *** [ShapeBase::handleAnchorInteraction]

    The comparison [m_selectedHandleIndex >= handles.size()] is made on
    [size_t], so a negative index also takes the early return. *)
Definition handleAnchorInteraction (s : ShapeBase) (mousePos lastMousePos : QPoint)
  : bool * ShapeBase :=
  if m_selectedHandleIndex s =? -1 then (false, s) else
  let handles := getHandles s in
  if (m_selectedHandleIndex s <? 0) || (Z.of_nat (length handles) <=? m_selectedHandleIndex s)
  then (false, s) else
  match handles !! Z.to_nat (m_selectedHandleIndex s) with
  | None => (false, s)
  | Some handle =>
      if Handle.type_eqb (Handle.type handle) Handle.Rotate then
        let center := Rect.center (boundingRect s) in
        let lastVector := Point.sub lastMousePos center in
        let currentVector := Point.sub mousePos center in
        let deltaAngle := atan2_delta currentVector lastVector in
        (true, rotate deltaAngle (set_m_rotation (angle_add (m_rotation s) deltaAngle) s))
      else
        let newRect := calculateNewRect s mousePos lastMousePos in
        if Rect.isEmpty newRect then (false, s)
        else (true, resize newRect s)
  end.

End Shapes.

(** ** The canvas *)

Section Canvas.

Context {FO : FloatOps} {SV : ShapeVirtuals} {QR : QtRuntime}.

Record HistoryAction := mkHistoryAction {
  type : OperationType;
  shapeIndex : Z;
  shape : option ShapeBase;
  connections : list ArrowConnection.t;
  moveDelta : QPoint;
  oldRect : QRect;
  newRect : QRect;
  oldLineColor : QColor;
  newLineColor : QColor;
  oldLineWidth : Z;
  newLineWidth : Z }.

(** Modelled from the spec: the constructor [HistoryAction(type, index)]
    ([DrawingArea.h] is not among the sources) sets the tag and the index and
    leaves the payload empty. *)
Definition HistoryAction_new (t : OperationType) (index : Z) : HistoryAction :=
  mkHistoryAction t index None [] Point.origin Rect.null Rect.null
                  Color.invalid Color.invalid 0 0.

Definition set_shape (sh : option ShapeBase) (a : HistoryAction) : HistoryAction :=
  mkHistoryAction (type a) (shapeIndex a) sh (connections a) (moveDelta a)
    (oldRect a) (newRect a) (oldLineColor a) (newLineColor a) (oldLineWidth a) (newLineWidth a).

Definition set_connections (cs : list ArrowConnection.t) (a : HistoryAction) : HistoryAction :=
  mkHistoryAction (type a) (shapeIndex a) (shape a) cs (moveDelta a)
    (oldRect a) (newRect a) (oldLineColor a) (newLineColor a) (oldLineWidth a) (newLineWidth a).

Definition set_moveDelta (d : QPoint) (a : HistoryAction) : HistoryAction :=
  mkHistoryAction (type a) (shapeIndex a) (shape a) (connections a) d
    (oldRect a) (newRect a) (oldLineColor a) (newLineColor a) (oldLineWidth a) (newLineWidth a).

Definition set_rects (o n : QRect) (a : HistoryAction) : HistoryAction :=
  mkHistoryAction (type a) (shapeIndex a) (shape a) (connections a) (moveDelta a)
    o n (oldLineColor a) (newLineColor a) (oldLineWidth a) (newLineWidth a).

Definition set_properties (oc nc : QColor) (ow nw : Z) (a : HistoryAction) : HistoryAction :=
  mkHistoryAction (type a) (shapeIndex a) (shape a) (connections a) (moveDelta a)
    (oldRect a) (newRect a) oc nc ow nw.

(** The members of [DrawingArea] that the modelled functions touch. *)
Record DrawingArea := mkDrawingArea {
  shapes : list ShapeBase;
  arrowConnections : list ArrowConnection.t;
  selectedIndex : Z;
  snappedHandle : SnapInfo.t;
  m_undoStack : list HistoryAction;
  m_redoStack : list HistoryAction;
  m_ignoreHistoryActions : bool;
  m_bgColor : QColor;
  m_gridSize : Z;
  m_pageSize : QSize;
  dragging : bool;
  resizing : bool;
  originalRect : QRect;
  lastMousePos : QPoint;
  m_moveStartPos : QPoint }.

Definition set_shapes (v : list ShapeBase) (d : DrawingArea) : DrawingArea :=
  mkDrawingArea v (arrowConnections d) (selectedIndex d) (snappedHandle d)
    (m_undoStack d) (m_redoStack d) (m_ignoreHistoryActions d) (m_bgColor d) (m_gridSize d)
    (m_pageSize d) (dragging d) (resizing d) (originalRect d) (lastMousePos d) (m_moveStartPos d).

Definition set_arrowConnections (v : list ArrowConnection.t) (d : DrawingArea) : DrawingArea :=
  mkDrawingArea (shapes d) v (selectedIndex d) (snappedHandle d)
    (m_undoStack d) (m_redoStack d) (m_ignoreHistoryActions d) (m_bgColor d) (m_gridSize d)
    (m_pageSize d) (dragging d) (resizing d) (originalRect d) (lastMousePos d) (m_moveStartPos d).

Definition set_selectedIndex (v : Z) (d : DrawingArea) : DrawingArea :=
  mkDrawingArea (shapes d) (arrowConnections d) v (snappedHandle d)
    (m_undoStack d) (m_redoStack d) (m_ignoreHistoryActions d) (m_bgColor d) (m_gridSize d)
    (m_pageSize d) (dragging d) (resizing d) (originalRect d) (lastMousePos d) (m_moveStartPos d).

Definition set_snappedHandle (v : SnapInfo.t) (d : DrawingArea) : DrawingArea :=
  mkDrawingArea (shapes d) (arrowConnections d) (selectedIndex d) v
    (m_undoStack d) (m_redoStack d) (m_ignoreHistoryActions d) (m_bgColor d) (m_gridSize d)
    (m_pageSize d) (dragging d) (resizing d) (originalRect d) (lastMousePos d) (m_moveStartPos d).

Definition set_undoStack (v : list HistoryAction) (d : DrawingArea) : DrawingArea :=
  mkDrawingArea (shapes d) (arrowConnections d) (selectedIndex d) (snappedHandle d)
    v (m_redoStack d) (m_ignoreHistoryActions d) (m_bgColor d) (m_gridSize d)
    (m_pageSize d) (dragging d) (resizing d) (originalRect d) (lastMousePos d) (m_moveStartPos d).

Definition set_redoStack (v : list HistoryAction) (d : DrawingArea) : DrawingArea :=
  mkDrawingArea (shapes d) (arrowConnections d) (selectedIndex d) (snappedHandle d)
    (m_undoStack d) v (m_ignoreHistoryActions d) (m_bgColor d) (m_gridSize d)
    (m_pageSize d) (dragging d) (resizing d) (originalRect d) (lastMousePos d) (m_moveStartPos d).

Definition set_ignoreHistoryActions (v : bool) (d : DrawingArea) : DrawingArea :=
  mkDrawingArea (shapes d) (arrowConnections d) (selectedIndex d) (snappedHandle d)
    (m_undoStack d) (m_redoStack d) v (m_bgColor d) (m_gridSize d)
    (m_pageSize d) (dragging d) (resizing d) (originalRect d) (lastMousePos d) (m_moveStartPos d).

Definition set_bgColor (v : QColor) (d : DrawingArea) : DrawingArea :=
  mkDrawingArea (shapes d) (arrowConnections d) (selectedIndex d) (snappedHandle d)
    (m_undoStack d) (m_redoStack d) (m_ignoreHistoryActions d) v (m_gridSize d)
    (m_pageSize d) (dragging d) (resizing d) (originalRect d) (lastMousePos d) (m_moveStartPos d).

Definition set_gridSize (v : Z) (d : DrawingArea) : DrawingArea :=
  mkDrawingArea (shapes d) (arrowConnections d) (selectedIndex d) (snappedHandle d)
    (m_undoStack d) (m_redoStack d) (m_ignoreHistoryActions d) (m_bgColor d) v
    (m_pageSize d) (dragging d) (resizing d) (originalRect d) (lastMousePos d) (m_moveStartPos d).

Definition set_pageSize (v : QSize) (d : DrawingArea) : DrawingArea :=
  mkDrawingArea (shapes d) (arrowConnections d) (selectedIndex d) (snappedHandle d)
    (m_undoStack d) (m_redoStack d) (m_ignoreHistoryActions d) (m_bgColor d) (m_gridSize d)
    v (dragging d) (resizing d) (originalRect d) (lastMousePos d) (m_moveStartPos d).

Definition set_dragging (v : bool) (d : DrawingArea) : DrawingArea :=
  mkDrawingArea (shapes d) (arrowConnections d) (selectedIndex d) (snappedHandle d)
    (m_undoStack d) (m_redoStack d) (m_ignoreHistoryActions d) (m_bgColor d) (m_gridSize d)
    (m_pageSize d) v (resizing d) (originalRect d) (lastMousePos d) (m_moveStartPos d).

Definition set_resizing (v : bool) (d : DrawingArea) : DrawingArea :=
  mkDrawingArea (shapes d) (arrowConnections d) (selectedIndex d) (snappedHandle d)
    (m_undoStack d) (m_redoStack d) (m_ignoreHistoryActions d) (m_bgColor d) (m_gridSize d)
    (m_pageSize d) (dragging d) v (originalRect d) (lastMousePos d) (m_moveStartPos d).

Definition set_originalRect (v : QRect) (d : DrawingArea) : DrawingArea :=
  mkDrawingArea (shapes d) (arrowConnections d) (selectedIndex d) (snappedHandle d)
    (m_undoStack d) (m_redoStack d) (m_ignoreHistoryActions d) (m_bgColor d) (m_gridSize d)
    (m_pageSize d) (dragging d) (resizing d) v (lastMousePos d) (m_moveStartPos d).

Definition set_lastMousePos (v : QPoint) (d : DrawingArea) : DrawingArea :=
  mkDrawingArea (shapes d) (arrowConnections d) (selectedIndex d) (snappedHandle d)
    (m_undoStack d) (m_redoStack d) (m_ignoreHistoryActions d) (m_bgColor d) (m_gridSize d)
    (m_pageSize d) (dragging d) (resizing d) (originalRect d) v (m_moveStartPos d).

Definition set_moveStartPos (v : QPoint) (d : DrawingArea) : DrawingArea :=
  mkDrawingArea (shapes d) (arrowConnections d) (selectedIndex d) (snappedHandle d)
    (m_undoStack d) (m_redoStack d) (m_ignoreHistoryActions d) (m_bgColor d) (m_gridSize d)
    (m_pageSize d) (dragging d) (resizing d) (originalRect d) (lastMousePos d) v.

(** *** Vector access *)

(** [0 <= i && i < v.size()] *)
Definition inRange {A} (i : Z) (v : list A) : bool :=
  (0 <=? i) && (i <? Z.of_nat (length v)).

(** [v[i]]: undefined behaviour, hence [None], outside the vector. *)
Definition at_ {A} (v : list A) (i : Z) : option A :=
  if i <? 0 then None else v !! Z.to_nat i.

(** [v.erase(v.begin() + i)] for a position inside the vector *)
Definition erase {A} (i : nat) (v : list A) : list A := delete i v.

(** [v.insert(v.begin() + i, x)] for [i <= v.size()] *)
Definition insertAt {A} (i : nat) (x : A) (v : list A) : list A :=
  take i v ++ x :: drop i v.

(** [v.erase(std::remove_if(v.begin(), v.end(), p), v.end())] *)
Definition remove_if {A} (p : A -> bool) (v : list A) : list A :=
  List.filter (fun x => negb (p x)) v.

(** [shapes[i] = f(shapes[i])]: a method call that changes the shape in
    place. *)
Definition modifyShape (i : nat) (f : ShapeBase -> ShapeBase) (d : DrawingArea) : DrawingArea :=
  set_shapes (alter f i (shapes d)) d.

(** A loop that stops with undefined behaviour as soon as one iteration
    does. *)
Fixpoint foldlM {A B} (f : B -> A -> option B) (l : list A) (b : B) : option B :=
  match l with
  | [] => Some b
  | x :: rest => b' ← f b x; foldlM f rest b'
  end.

(** *** [DrawingArea::clear], [setPageSize] *)

Definition clear (d : DrawingArea) : DrawingArea :=
  set_redoStack [] (set_undoStack [] (set_snappedHandle SnapInfo.none
    (set_selectedIndex (-1) (set_arrowConnections [] (set_shapes [] d))))).

Definition QSize_eqb (a b : QSize) : bool :=
  (sz_width a =? sz_width b) && (sz_height a =? sz_height b).

Definition setPageSize (size : QSize) (d : DrawingArea) : DrawingArea :=
  if negb (QSize_eqb size (m_pageSize d)) && (0 <? sz_width size) && (0 <? sz_height size)
  then set_pageSize size d
  else d.

(** *** [DrawingArea::updateConnectedArrows] *)

Definition anchorCenter (h : Handle.t) : QPoint := Rect.center (Handle.rect h).

(** The body of the first loop for one connection: the endpoint of a bound
    arrow goes to the anchor when [handleIndex] names one, else it is moved
    by [delta]. *)
Definition firstPassStep (shapeIdx : Z) (delta : QPoint) (arrowAnchors : list Handle.t)
  (shs : list ShapeBase) (conn : ArrowConnection.t) : list ShapeBase :=
  if ArrowConnection.shapeIndex conn =? shapeIdx then
    if inRange (ArrowConnection.arrowIndex conn) shs then
      match shs !! Z.to_nat (ArrowConnection.arrowIndex conn) with
      | Some arrow =>
          if isArrow arrow then
            if inRange (ArrowConnection.handleIndex conn) arrowAnchors then
              match arrowAnchors !! Z.to_nat (ArrowConnection.handleIndex conn) with
              | Some anchor =>
                  alter (setEndpoint (ArrowConnection.isStartPoint conn) (anchorCenter anchor))
                        (Z.to_nat (ArrowConnection.arrowIndex conn)) shs
              | None => shs
              end
            else
              alter (updateConnection (ArrowConnection.isStartPoint conn) delta)
                    (Z.to_nat (ArrowConnection.arrowIndex conn)) shs
          else shs
      | None => shs
      end
    else shs
  else shs.

Definition firstPass (shapeIdx : Z) (delta : QPoint) (arrowAnchors : list Handle.t)
  (conns : list ArrowConnection.t) (shs : list ShapeBase) : list ShapeBase :=
  fold_left (firstPassStep shapeIdx delta arrowAnchors) conns shs.

(** The inner loop of the second pass over the recorded connections of arrow
    [i]: [anchors[conn.handleIndex]] is read without a bounds check. *)
Definition refreshStep (i : nat) (shapeIdx : Z) (anchors : list Handle.t)
  (acc : ShapeBase * bool * bool) (conn : ArrowConnection.t)
  : option (ShapeBase * bool * bool) :=
  let '(arrow, startPointConnected, endPointConnected) := acc in
  if (ArrowConnection.arrowIndex conn =? Z.of_nat i) &&
     (ArrowConnection.shapeIndex conn =? shapeIdx)
  then
    anchor ← at_ anchors (ArrowConnection.handleIndex conn);
    Some (setEndpoint (ArrowConnection.isStartPoint conn) (anchorCenter anchor) arrow,
          startPointConnected || ArrowConnection.isStartPoint conn,
          endPointConnected || negb (ArrowConnection.isStartPoint conn))
  else Some acc.

(** The first anchor, from position [j] on, whose centre is within
    [snapDistance] of [p]. *)
Fixpoint findAnchorNear (p : QPoint) (snapDistance : Z) (j : nat) (anchors : list Handle.t)
  : option (nat * QPoint) :=
  match anchors with
  | [] => None
  | a :: rest =>
      if Point.manhattanLength (Point.sub p (anchorCenter a)) <=? snapDistance
      then Some (j, anchorCenter a)
      else findAnchorNear p snapDistance (S j) rest
  end.

(** The search for a connection that was never recorded, for one endpoint. *)
Definition adoptEndpoint (i : nat) (shapeIdx : Z) (anchors : list Handle.t)
  (isStart connected : bool) (p : QPoint)
  (st : ShapeBase * list ArrowConnection.t) : ShapeBase * list ArrowConnection.t :=
  let '(arrow, conns) := st in
  if connected then st else
  match findAnchorNear p 5 0 anchors with
  | Some (j, anchorPos) =>
      (setEndpoint isStart anchorPos arrow,
       conns ++ [ArrowConnection.mk (Z.of_nat i) shapeIdx (Z.of_nat j) isStart])
  | None => st
  end.

(** The body of the second loop for the shape at position [i]. *)
Definition secondPassStep (shapeIdx : Z)
  (st : list ShapeBase * list ArrowConnection.t) (i : nat)
  : option (list ShapeBase * list ArrowConnection.t) :=
  let '(shs, conns) := st in
  s ← shs !! i;
  if negb (isArrow s) || (Z.of_nat i =? shapeIdx) then Some st else
  let p1 := p1 (getLine s) in
  let p2 := p2 (getLine s) in
  moved ← at_ shs shapeIdx;
  let anchors := getArrowAnchors moved in
  '(arrow, startPointConnected, endPointConnected) ←
     foldlM (refreshStep i shapeIdx anchors) conns (s, false, false);
  let '(arrow, conns) :=
    adoptEndpoint i shapeIdx anchors false endPointConnected p2
      (adoptEndpoint i shapeIdx anchors true startPointConnected p1 (arrow, conns)) in
  Some (<[i := arrow]> shs, conns).

Definition secondPass (shapeIdx : Z) (shs : list ShapeBase) (conns : list ArrowConnection.t)
  : option (list ShapeBase * list ArrowConnection.t) :=
  foldlM (secondPassStep shapeIdx) (seq 0 (length shs)) (shs, conns).

Definition updateConnectedArrows (shapeIdx : Z) (delta : QPoint) (d : DrawingArea)
  : option DrawingArea :=
  if (shapeIdx <? 0) || (Z.of_nat (length (shapes d)) <=? shapeIdx) then Some d else
  moved ← at_ (shapes d) shapeIdx;
  let arrowAnchors := getArrowAnchors moved in
  let shs := firstPass shapeIdx delta arrowAnchors (arrowConnections d) (shapes d) in
  '(shs, conns) ← secondPass shapeIdx shs (arrowConnections d);
  Some (set_arrowConnections conns (set_shapes shs d)).

(** *** Recording history *)

Definition clearRedoStack (d : DrawingArea) : DrawingArea := set_redoStack [] d.

Definition pushUndo (a : HistoryAction) (d : DrawingArea) : DrawingArea :=
  set_undoStack (a :: m_undoStack d) d.

Definition pushRedo (a : HistoryAction) (d : DrawingArea) : DrawingArea :=
  set_redoStack (a :: m_redoStack d) d.

Definition recordAddShape (index : Z) (d : DrawingArea) : DrawingArea :=
  if m_ignoreHistoryActions d then d else
  if (index <? 0) || (Z.of_nat (length (shapes d)) <=? index) then d else
  match shapes d !! Z.to_nat index with
  | None => d
  | Some s =>
      let action := set_shape (Some (clone s)) (HistoryAction_new Add index) in
      clearRedoStack (pushUndo action d)
  end.

Definition recordRemoveShape (index : Z) (d : DrawingArea) : DrawingArea :=
  if m_ignoreHistoryActions d || (index <? 0) || (Z.of_nat (length (shapes d)) <=? index)
  then d else
  match shapes d !! Z.to_nat index with
  | None => d
  | Some s =>
      let action := set_shape (Some (clone s)) (HistoryAction_new Remove index) in
      let action :=
        set_connections
          (List.filter (fun conn => ArrowConnection.shapeIndex conn =? index)
                       (arrowConnections d))
          action in
      clearRedoStack (pushUndo action d)
  end.

Definition recordMoveShape (index : Z) (delta : QPoint) (d : DrawingArea) : DrawingArea :=
  if m_ignoreHistoryActions d || (index <? 0) || (Z.of_nat (length (shapes d)) <=? index)
  then d else
  clearRedoStack (pushUndo (set_moveDelta delta (HistoryAction_new Move index)) d).

Definition recordResizeShape (index : Z) (oldR newR : QRect) (d : DrawingArea) : DrawingArea :=
  if m_ignoreHistoryActions d || (index <? 0) || (Z.of_nat (length (shapes d)) <=? index)
  then d else
  clearRedoStack (pushUndo (set_rects oldR newR (HistoryAction_new Resize index)) d).

Definition recordPropertyChange (index : Z) (oldColor newColor : QColor) (oldWidth newWidth : Z)
  (d : DrawingArea) : DrawingArea :=
  if m_ignoreHistoryActions d || (index <? 0) || (Z.of_nat (length (shapes d)) <=? index)
  then d else
  clearRedoStack
    (pushUndo (set_properties oldColor newColor oldWidth newWidth
                 (HistoryAction_new Property index)) d).

(** *** [DrawingArea::undo] and [DrawingArea::redo] *)

(** The selection follows the erased position. *)
Definition selectionAfterErase (index : Z) (d : DrawingArea) : DrawingArea :=
  if selectedIndex d =? index then set_selectedIndex (-1) d
  else if index <? selectedIndex d then set_selectedIndex (selectedIndex d - 1) d
  else d.

(** The selection follows the inserted position. *)
Definition selectionAfterInsert (insertIndex : Z) (d : DrawingArea) : DrawingArea :=
  if insertIndex <=? selectedIndex d then set_selectedIndex (selectedIndex d + 1) d else d.

(** [std::min(action.shapeIndex, (int)shapes.size())] followed by
    [shapes.insert(shapes.begin() + insertIndex, shape)]; an iterator before
    [begin()] is undefined behaviour. *)
Definition insertClamped (index : Z) (s : ShapeBase) (d : DrawingArea) : option DrawingArea :=
  let insertIndex := Z.min index (Z.of_nat (length (shapes d))) in
  if insertIndex <? 0 then None else
  Some (selectionAfterInsert insertIndex
          (set_shapes (insertAt (Z.to_nat insertIndex) s (shapes d)) d)).

(** The [switch] of [undo] on the action that was popped. *)
Definition undoAction (action : HistoryAction) (d : DrawingArea) : option DrawingArea :=
  match type action with
  | Add =>
      if inRange (shapeIndex action) (shapes d) then
        s ← at_ (shapes d) (shapeIndex action);
        let redoAction := set_shape (Some (clone s)) (HistoryAction_new Add (shapeIndex action)) in
        let d := pushRedo redoAction d in
        let d := set_shapes (erase (Z.to_nat (shapeIndex action)) (shapes d)) d in
        Some (selectionAfterErase (shapeIndex action) d)
      else Some d
  | Remove =>
      match shape action with
      | Some s =>
          let redoAction :=
            set_connections (connections action)
              (set_shape (Some (clone s)) (HistoryAction_new Remove (shapeIndex action))) in
          let d := pushRedo redoAction d in
          let d := set_arrowConnections (arrowConnections d ++ connections action) d in
          insertClamped (shapeIndex action) s d
      | None => Some d
      end
  | Move =>
      if inRange (shapeIndex action) (shapes d) then
        let redoAction :=
          set_moveDelta (moveDelta action) (HistoryAction_new Move (shapeIndex action)) in
        let d := pushRedo redoAction d in
        let delta := Point.neg (moveDelta action) in
        let d := modifyShape (Z.to_nat (shapeIndex action)) (moveBy delta) d in
        updateConnectedArrows (shapeIndex action) delta d
      else Some d
  | Resize =>
      if inRange (shapeIndex action) (shapes d) then
        let d := pushRedo action d in
        Some (modifyShape (Z.to_nat (shapeIndex action)) (setRect (oldRect action)) d)
      else Some d
  | Property =>
      if inRange (shapeIndex action) (shapes d) then
        let d := pushRedo action d in
        Some (modifyShape (Z.to_nat (shapeIndex action))
                (fun s => setLineWidth (oldLineWidth action)
                            (setLineColor (oldLineColor action) s)) d)
      else Some d
  end.

Definition undo (d : DrawingArea) : option DrawingArea :=
  match m_undoStack d with
  | [] => Some d
  | action :: rest =>
      let d := set_ignoreHistoryActions true d in
      let d := set_undoStack rest d in
      d ← undoAction action d;
      Some (set_ignoreHistoryActions false d)
  end.

(** The [switch] of [redo] on the action that was popped. *)
Definition redoAction (action : HistoryAction) (d : DrawingArea) : option DrawingArea :=
  match type action with
  | Add =>
      match shape action with
      | Some s =>
          let undoAction := set_shape (Some (clone s)) (HistoryAction_new Add (shapeIndex action)) in
          let d := pushUndo undoAction d in
          insertClamped (shapeIndex action) s d
      | None => Some d
      end
  | Remove =>
      if inRange (shapeIndex action) (shapes d) then
        let d := pushUndo action d in
        let d := set_shapes (erase (Z.to_nat (shapeIndex action)) (shapes d)) d in
        Some (selectionAfterErase (shapeIndex action) d)
      else Some d
  | Move =>
      if inRange (shapeIndex action) (shapes d) then
        let d := pushUndo action d in
        let d := modifyShape (Z.to_nat (shapeIndex action)) (moveBy (moveDelta action)) d in
        updateConnectedArrows (shapeIndex action) (moveDelta action) d
      else Some d
  | Resize =>
      if inRange (shapeIndex action) (shapes d) then
        let d := pushUndo action d in
        Some (modifyShape (Z.to_nat (shapeIndex action)) (setRect (newRect action)) d)
      else Some d
  | Property =>
      if inRange (shapeIndex action) (shapes d) then
        let d := pushUndo action d in
        Some (modifyShape (Z.to_nat (shapeIndex action))
                (fun s => setLineWidth (newLineWidth action)
                            (setLineColor (newLineColor action) s)) d)
      else Some d
  end.

Definition redo (d : DrawingArea) : option DrawingArea :=
  match m_redoStack d with
  | [] => Some d
  | action :: rest =>
      let d := set_ignoreHistoryActions true d in
      let d := set_redoStack rest d in
      d ← redoAction action d;
      Some (set_ignoreHistoryActions false d)
  end.

(** *** Adding and deleting shapes *)

(** The tail shared by [dropEvent] and [pasteShape]: append, select, record. *)
Definition addShape (s : ShapeBase) (d : DrawingArea) : DrawingArea :=
  let d := set_shapes (shapes d ++ [s]) d in
  let d := set_selectedIndex (Z.of_nat (length (shapes d)) - 1) d in
  recordAddShape (selectedIndex d) d.

(** The shape that [dropEvent] builds for a palette entry dropped at [pos]. *)
Definition droppedShape (shapeType : string) (pos : QPoint) : option ShapeBase :=
  let defaultRect := Rect.make (px pos - 40) (py pos - 30) 80 60 in
  if String.eqb shapeType "rect" then Some (ShapeFactory_create ShapeRect defaultRect)
  else if String.eqb shapeType "ellipse" then Some (ShapeFactory_create ShapeEllipse defaultRect)
  else if String.eqb shapeType "pentagon" then Some (ShapeFactory_create ShapePentagon defaultRect)
  else if String.eqb shapeType "triangle" then Some (ShapeFactory_create ShapeTriangle defaultRect)
  else if String.eqb shapeType "diamond" then Some (ShapeFactory_create ShapeDiamond defaultRect)
  else if String.eqb shapeType "arrow" then
    Some (ShapeFactory_createArrow
            (mkQLine (mkQPoint (px pos - 40) (py pos)) (mkQPoint (px pos + 40) (py pos))))
  else if String.eqb shapeType "roundedrect"
  then Some (ShapeFactory_create ShapeRoundedRect defaultRect)
  else None.

(** [dropEvent] for a drop that carries the shape-type format. *)
Definition dropEvent (shapeType : string) (pos : QPoint) (d : DrawingArea) : DrawingArea :=
  match droppedShape shapeType pos with
  | Some s => addShape s d
  | None => d
  end.

(** The connections that a deletion of the shape at [index] erases. *)
Definition touches (index : Z) (conn : ArrowConnection.t) : bool :=
  (ArrowConnection.arrowIndex conn =? index) || (ArrowConnection.shapeIndex conn =? index).

(** [selectedIndex < shapes.size()] is compared on [size_t], so it fails for
    a negative index. *)
Definition deleteSelectedShape (d : DrawingArea) : DrawingArea :=
  if negb (selectedIndex d =? -1) && inRange (selectedIndex d) (shapes d) then
    let d := recordRemoveShape (selectedIndex d) d in
    let d := set_arrowConnections (remove_if (touches (selectedIndex d)) (arrowConnections d)) d in
    let d := set_shapes (erase (Z.to_nat (selectedIndex d)) (shapes d)) d in
    set_selectedIndex (-1) d
  else d.

(** *** Style of the selected shape *)

Definition setSelectedShapeLineColor (color : QColor) (d : DrawingArea) : DrawingArea :=
  if inRange (selectedIndex d) (shapes d) then
    match shapes d !! Z.to_nat (selectedIndex d) with
    | None => d
    | Some s =>
        let oldColor := getLineColor s in
        let oldWidth := getLineWidth s in
        if Color.eqb oldColor color then d else
        let d := recordPropertyChange (selectedIndex d) oldColor color oldWidth oldWidth d in
        modifyShape (Z.to_nat (selectedIndex d)) (setLineColor color) d
    end
  else d.

Definition setSelectedShapeLineWidth (width : Z) (d : DrawingArea) : DrawingArea :=
  if inRange (selectedIndex d) (shapes d) then
    match shapes d !! Z.to_nat (selectedIndex d) with
    | None => d
    | Some s =>
        let oldColor := getLineColor s in
        let oldWidth := getLineWidth s in
        if oldWidth =? width then d else
        let d := recordPropertyChange (selectedIndex d) oldColor oldColor oldWidth width d in
        modifyShape (Z.to_nat (selectedIndex d)) (setLineWidth width) d
    end
  else d.

(** *** [DrawingArea::loadFromFile] *)

(** The dispatch on the [type] discriminator; an unknown type gives no
    shape. *)
Definition shapeOfType (ty : string) : option ShapeBase :=
  if String.eqb ty "rect" then Some (ShapeFactory_create ShapeRect Rect.null)
  else if String.eqb ty "ellipse" then Some (ShapeFactory_create ShapeEllipse Rect.null)
  else if String.eqb ty "arrow"
  then Some (ShapeFactory_createArrow (mkQLine Point.origin Point.origin))
  else if String.eqb ty "pentagon" then Some (ShapeFactory_create ShapePentagon Rect.null)
  else if String.eqb ty "triangle" then Some (ShapeFactory_create ShapeTriangle Rect.null)
  else if String.eqb ty "diamond" then Some (ShapeFactory_create ShapeDiamond Rect.null)
  else if String.eqb ty "roundedrect" then Some (ShapeFactory_create ShapeRoundedRect Rect.null)
  else None.

Definition loadShape (d : DrawingArea) (shapeVal : QJsonValue) : DrawingArea :=
  let shapeObj := Json.toObject shapeVal in
  match shapeOfType (Json.toString (Json.get "type" shapeObj)) with
  | Some s => set_shapes (shapes d ++ [fromJson s shapeObj]) d
  | None => d
  end.

Definition loadConnection (d : DrawingArea) (connVal : QJsonValue) : DrawingArea :=
  let connObj := Json.toObject connVal in
  let conn :=
    ArrowConnection.mk (Json.toInt (Json.get "arrowIndex" connObj))
                       (Json.toInt (Json.get "shapeIndex" connObj))
                       (Json.toInt (Json.get "handleIndex" connObj))
                       (Json.toBool (Json.get "isStartPoint" connObj)) in
  set_arrowConnections (arrowConnections d ++ [conn]) d.

Definition loadFromFile (fileName : string) (d : DrawingArea) : bool * DrawingArea :=
  match file_read fileName with
  | None => (false, d)
  | Some data =>
      match QJsonDocument_fromJson data with
      | None => (false, d)
      | Some doc =>
          let rootObj := Json.toObject doc in
          let d := clear d in
          let d := set_bgColor
                     (QColor_fromName (Json.toString (Json.get "backgroundColor" rootObj))) d in
          let d := set_gridSize (Json.toInt (Json.get "gridSize" rootObj)) d in
          let sizeObj := Json.toObject (Json.get "size" rootObj) in
          let d := setPageSize (mkQSize (Json.toInt (Json.get "width" sizeObj))
                                        (Json.toInt (Json.get "height" sizeObj))) d in
          let d := fold_left loadShape (Json.toArray (Json.get "shapes" rootObj)) d in
          let d := fold_left loadConnection (Json.toArray (Json.get "connections" rootObj)) d in
          (true, d)
      end
  end.

(** *** Snapping an arrow endpoint to an anchor *)

(** The inner loop of the search: the first [ArrowAnchor] of one shape that
    is not at [exclude] and lies within [snapDistance] of [pos]. *)
Fixpoint findSnapAnchor (pos exclude : QPoint) (snapDistance : Z) (j : nat)
  (arrowAnchors : list Handle.t) : option (nat * QPoint) :=
  match arrowAnchors with
  | [] => None
  | a :: rest =>
      let target := anchorCenter a in
      if negb (Handle.type_eqb (Handle.type a) Handle.ArrowAnchor)
      then findSnapAnchor pos exclude snapDistance (S j) rest
      else if Point.eqb target exclude
      then findSnapAnchor pos exclude snapDistance (S j) rest
      else if Point.manhattanLength (Point.sub pos target) <=? snapDistance
      then Some (j, target)
      else findSnapAnchor pos exclude snapDistance (S j) rest
  end.

(** The outer loop: shapes in list order, skipping the selected one and every
    arrow; the first anchor found wins. *)
Fixpoint findSnap (selected : Z) (pos exclude : QPoint) (snapDistance : Z) (i : nat)
  (shs : list ShapeBase) : option (nat * nat * QPoint) :=
  match shs with
  | [] => None
  | s :: rest =>
      if (Z.of_nat i =? selected) || isArrow s
      then findSnap selected pos exclude snapDistance (S i) rest
      else
        match findSnapAnchor pos exclude snapDistance 0 (getArrowAnchors s) with
        | Some (j, target) => Some (i, j, target)
        | None => findSnap selected pos exclude snapDistance (S i) rest
        end
  end.

(** *** [DrawingArea::mouseReleaseEvent]

    [docPos] is the document position of the pointer and [snapDistance] is
    [10 / m_zoomFactor] as an [int]. *)

(** The erase-then-append of the commit: every connection of this endpoint
    of the selected arrow goes, the new one is appended. *)
Definition replaceConnection (isStart : bool) (bestShapeIndex bestHandleIndex : nat)
  (d : DrawingArea) : DrawingArea :=
  let kept :=
    remove_if (fun conn => (ArrowConnection.arrowIndex conn =? selectedIndex d) &&
                           Bool.eqb (ArrowConnection.isStartPoint conn) isStart)
              (arrowConnections d) in
  set_arrowConnections
    (kept ++ [ArrowConnection.mk (selectedIndex d) (Z.of_nat bestShapeIndex)
                                 (Z.of_nat bestHandleIndex) isStart]) d.

(** The branch of one endpoint: [isStart] is [false] for the branch of handle
    1 (the end point) and [true] for the branch of handle 0. *)
Definition commitEndpoint (isStart : bool) (docPos : QPoint) (snapDistance : Z)
  (arrow : ShapeBase) (d : DrawingArea) : option DrawingArea :=
  match findSnap (selectedIndex d) docPos (endpoint (negb isStart) arrow) snapDistance 0
                 (shapes d) with
  | Some (bestShapeIndex, bestHandleIndex, bestPoint) =>
      let d := modifyShape (Z.to_nat (selectedIndex d)) (setEndpoint isStart bestPoint) d in
      let d := replaceConnection isStart bestShapeIndex bestHandleIndex d in
      updateConnectedArrows (Z.of_nat bestShapeIndex) Point.origin d
  | None => Some d
  end.

Definition releaseSelected (docPos : QPoint) (snapDistance : Z) (d : DrawingArea)
  : option DrawingArea :=
  if selectedIndex d =? -1 then Some d else
  s ← at_ (shapes d) (selectedIndex d);
  if isArrow s then
    d ← (if getSelectedHandleIndex s =? 1 then commitEndpoint false docPos snapDistance s d
         else if getSelectedHandleIndex s =? 0 then commitEndpoint true docPos snapDistance s d
         else Some d);
    Some (modifyShape (Z.to_nat (selectedIndex d)) clearHandleSelection d)
  else
    let d :=
      if dragging d && negb (isHandleSelected s) then
        let totalDelta := Point.sub docPos (m_moveStartPos d) in
        if 0 <? Point.manhattanLength totalDelta
        then recordMoveShape (selectedIndex d) totalDelta d
        else d
      else if resizing d && isHandleSelected s then
        let newRect := getRect s in
        let d :=
          if negb (Rect.eqb newRect (originalRect d))
          then recordResizeShape (selectedIndex d) (originalRect d) newRect d
          else d in
        set_resizing false d
      else d in
    Some (modifyShape (Z.to_nat (selectedIndex d)) clearHandleSelection d).

Definition mouseReleaseEvent (docPos : QPoint) (snapDistance : Z) (d : DrawingArea)
  : option DrawingArea :=
  d ← releaseSelected docPos snapDistance d;
  Some (set_dragging false (set_snappedHandle SnapInfo.none d)).

(** *** [DrawingArea::mouseMoveEvent] *)

Definition mouseMoveEvent (docPos : QPoint) (snapDistance : Z) (d : DrawingArea)
  : option DrawingArea :=
  if dragging d && negb (selectedIndex d =? -1) then
    s ← at_ (shapes d) (selectedIndex d);
    let sel := Z.to_nat (selectedIndex d) in
    if isHandleSelected s then
      if isArrow s then
        let handleIndex := getSelectedHandleIndex s in
        if negb (handleIndex =? -1) then
          let mousePos := docPos in
          let otherPos := if handleIndex =? 0 then p2 (getLine s) else p1 (getLine s) in
          match findSnap (selectedIndex d) mousePos otherPos snapDistance 0 (shapes d) with
          | Some (snapShapeIndex, snapHandleIndex, snapTarget) =>
              let d := modifyShape sel (setEndpoint (handleIndex =? 0) snapTarget) d in
              Some (set_snappedHandle
                      (SnapInfo.mk (Z.of_nat snapShapeIndex) (Z.of_nat snapHandleIndex)
                                   snapTarget) d)
          | None =>
              let d := modifyShape sel (setEndpoint (handleIndex =? 0) mousePos) d in
              Some (set_snappedHandle SnapInfo.none d)
          end
        else Some d
      else
        let delta := Point.sub docPos (lastMousePos d) in
        let d := modifyShape sel
                   (fun s => snd (handleAnchorInteraction s docPos (lastMousePos d))) d in
        d ← updateConnectedArrows (selectedIndex d) delta d;
        Some (set_lastMousePos docPos d)
    else
      let delta := Point.sub docPos (lastMousePos d) in
      d ← (if negb (isArrow s) then
             let d := modifyShape sel (moveBy delta) d in
             if inRange (selectedIndex d) (shapes d)
             then updateConnectedArrows (selectedIndex d) delta d
             else Some d
           else Some d);
      Some (set_lastMousePos docPos d)
  else Some d.

(** *** [DrawingArea::mousePressEvent] *)

(** Pressing the plus handle with direction code [direction] of the selected
    shape [s]: a new arrow starts at the matching anchor and is bound to it.
    [None] in the inner option means that the handle gave no arrow and the
    loop over the handles goes on. *)
Definition startArrow (docPos : QPoint) (direction : Z) (s : ShapeBase) (d : DrawingArea)
  : option (option DrawingArea) :=
  let arrowAnchorIndex := mapArrowHandleToAnchor s direction in
  if 0 <=? arrowAnchorIndex then
    let arrowAnchors := getArrowAnchors s in
    if negb (Nat.eqb (length arrowAnchors) 0) && (arrowAnchorIndex <? Z.of_nat (length arrowAnchors))
    then
      anchor ← at_ arrowAnchors arrowAnchorIndex;
      let anchorPos := anchorCenter anchor in
      let arrow := ShapeFactory_createArrow (mkQLine anchorPos docPos) in
      let originalSelectedIndex := selectedIndex d in
      let d := set_shapes (shapes d ++ [arrow]) d in
      let d := set_selectedIndex (Z.of_nat (length (shapes d)) - 1) d in
      let d := recordAddShape (selectedIndex d) d in
      arrowShape ← at_ (shapes d) (selectedIndex d);
      d ← (if isArrow arrowShape then
             let newIndex := Z.to_nat (selectedIndex d) in
             let d := modifyShape newIndex (setSelectedHandleIndex 1) d in
             let d := set_snappedHandle
                        (SnapInfo.mk originalSelectedIndex arrowAnchorIndex anchorPos) d in
             let connection :=
               ArrowConnection.mk (Z.of_nat (length (shapes d)) - 1) originalSelectedIndex
                                  arrowAnchorIndex true in
             let d := set_arrowConnections (arrowConnections d ++ [connection]) d in
             original ← at_ (shapes d) originalSelectedIndex;
             let anchors := getArrowAnchors original in
             if arrowAnchorIndex <? Z.of_nat (length anchors) then
               anchor ← at_ anchors arrowAnchorIndex;
               let d := modifyShape newIndex (setP1 (anchorCenter anchor)) d in
               let d := set_lastMousePos docPos d in
               updateConnectedArrows originalSelectedIndex Point.origin d
             else Some d
           else Some d);
      Some (Some (set_lastMousePos docPos (set_dragging true d)))
    else Some None
  else Some None.

(** The loop over the handles of the selected shape, from handle [i] on. *)
Fixpoint pressHandles (docPos : QPoint) (s : ShapeBase) (i : nat) (handles : list Handle.t)
  (d : DrawingArea) : option (option DrawingArea) :=
  match handles with
  | [] => Some None
  | h :: rest =>
      if Rect.contains (Handle.rect h) docPos then
        if Handle.type_eqb (Handle.type h) Handle.Arrow then
          r ← startArrow docPos (Handle.direction h) s d;
          match r with
          | Some d => Some (Some d)
          | None => pressHandles docPos s (S i) rest d
          end
        else
          let d := modifyShape (Z.to_nat (selectedIndex d)) (setSelectedHandleIndex (Z.of_nat i)) d in
          let d :=
            if Handle.type_eqb (Handle.type h) Handle.Scale
            then set_originalRect (getRect s) (set_resizing true d)
            else d in
          Some (Some (set_dragging true (set_lastMousePos docPos d)))
      else pressHandles docPos s (S i) rest d
  end.

(** The hit test from the topmost shape down; [rev_shapes] is the shape list
    reversed and [i] the position after the one of its head. *)
Fixpoint hitTest (docPos : QPoint) (i : nat) (rev_shapes : list ShapeBase) : option nat :=
  match rev_shapes, i with
  | s :: rest, S i' => if contains s docPos then Some i' else hitTest docPos i' rest
  | _, _ => None
  end.

Definition selectAt (docPos : QPoint) (d : DrawingArea) : DrawingArea :=
  match hitTest docPos (length (shapes d)) (rev (shapes d)) with
  | Some i =>
      set_dragging true (set_moveStartPos docPos (set_lastMousePos docPos
        (set_selectedIndex (Z.of_nat i) d)))
  | None => set_selectedIndex (-1) d
  end.

Definition mousePressEvent (docPos : QPoint) (d : DrawingArea) : option DrawingArea :=
  if negb (selectedIndex d =? -1) then
    s ← at_ (shapes d) (selectedIndex d);
    r ← pressHandles docPos s 0 (getHandles s) d;
    match r with
    | Some d => Some d
    | None => Some (selectAt docPos d)
    end
  else Some (selectAt docPos d).

End Canvas.

(** ** More of the canvas controller *)

Section CanvasMore.

Context {FO : FloatOps} {SV : ShapeVirtuals} {QR : QtRuntime}.

(** *** [DrawingArea::setGridSize] *)

Definition setGridSize (size : Z) (d : DrawingArea) : DrawingArea :=
  if negb (size =? m_gridSize d) && (0 <? size) then set_gridSize size d else d.

(** *** Z-order: [moveShapeUp], [moveShapeDown], [moveShapeToTop],
    [moveShapeToBottom] *)

(** [std::swap(v[i], v[j])] for two positions inside the vector *)
Definition swapAt {A} (i j : nat) (v : list A) : list A :=
  match v !! i, v !! j with
  | Some x, Some y => <[i := y]> (<[j := x]> v)
  | _, _ => v
  end.

Definition moveShapeUp (d : DrawingArea) : DrawingArea :=
  if (selectedIndex d <? 0) || (Z.of_nat (length (shapes d)) - 1 <=? selectedIndex d)
  then d else
  let sel := Z.to_nat (selectedIndex d) in
  set_selectedIndex (selectedIndex d + 1) (set_shapes (swapAt sel (sel + 1) (shapes d)) d).

Definition moveShapeDown (d : DrawingArea) : DrawingArea :=
  if (selectedIndex d <=? 0) || (Z.of_nat (length (shapes d)) <=? selectedIndex d)
  then d else
  let sel := Z.to_nat (selectedIndex d) in
  set_selectedIndex (selectedIndex d - 1) (set_shapes (swapAt sel (sel - 1) (shapes d)) d).

Definition moveShapeToTop (d : DrawingArea) : DrawingArea :=
  if (selectedIndex d <? 0) || (Z.of_nat (length (shapes d)) <=? selectedIndex d)
  then d else
  match shapes d !! Z.to_nat (selectedIndex d) with
  | None => d
  | Some shape =>
      let d := set_shapes (erase (Z.to_nat (selectedIndex d)) (shapes d) ++ [shape]) d in
      set_selectedIndex (Z.of_nat (length (shapes d)) - 1) d
  end.

Definition moveShapeToBottom (d : DrawingArea) : DrawingArea :=
  if (selectedIndex d <? 0) || (Z.of_nat (length (shapes d)) <=? selectedIndex d)
  then d else
  match shapes d !! Z.to_nat (selectedIndex d) with
  | None => d
  | Some shape =>
      let d := set_shapes (shape :: erase (Z.to_nat (selectedIndex d)) (shapes d)) d in
      set_selectedIndex 0 d
  end.

(** *** [DrawingArea::keyPressEvent], with no text editor in focus *)

Inductive KeyCode := Key_Z | Key_Y | Key_Delete | Key_Backspace | Key_Other.

Record QKeyEvent := mkQKeyEvent { controlModifier : bool; key : KeyCode }.

(** The deletion of the key handler: the same three steps as
    [deleteSelectedShape], entered on [selectedIndex != -1] alone, so
    [shapes.erase(shapes.begin() + selectedIndex)] is undefined behaviour for
    a selection that is not a position of the list. *)
Definition keyDelete (d : DrawingArea) : option DrawingArea :=
  let d := recordRemoveShape (selectedIndex d) d in
  let d := set_arrowConnections
             (remove_if (fun conn =>
                           (ArrowConnection.shapeIndex conn =? selectedIndex d) ||
                           (ArrowConnection.arrowIndex conn =? selectedIndex d))
                        (arrowConnections d)) d in
  if inRange (selectedIndex d) (shapes d) then
    let d := set_shapes (erase (Z.to_nat (selectedIndex d)) (shapes d)) d in
    Some (set_selectedIndex (-1) d)
  else None.

Definition keyPressEvent (event : QKeyEvent) (d : DrawingArea) : option DrawingArea :=
  match controlModifier event, key event with
  | true, Key_Z => undo d
  | true, Key_Y => redo d
  | _, _ =>
      if negb (selectedIndex d =? -1) &&
         match key event with Key_Delete | Key_Backspace => true | _ => false end
      then keyDelete d
      else Some d
  end.

(** *** Clipboard: [copySelectedShape], [cutSelectedShape], [pasteShape]

    [m_clipboardShape] is kept beside the canvas state. *)

Definition copySelectedShape (clipboard : option ShapeBase) (d : DrawingArea)
  : option ShapeBase :=
  if negb (selectedIndex d =? -1) && inRange (selectedIndex d) (shapes d) then
    match shapes d !! Z.to_nat (selectedIndex d) with
    | Some s => Some (clone s)
    | None => clipboard
    end
  else clipboard.

Definition cutSelectedShape (clipboard : option ShapeBase) (d : DrawingArea)
  : option ShapeBase * DrawingArea :=
  if negb (selectedIndex d =? -1) && inRange (selectedIndex d) (shapes d) then
    (copySelectedShape clipboard d, deleteSelectedShape d)
  else (clipboard, d).

(** [QRect::setWidth] and [QRect::setHeight] keep the top left corner. *)
Definition Rect_setWidth (w : Z) (r : QRect) : QRect :=
  mkQRect (rx1 r) (ry1 r) (rx1 r + w - 1) (ry2 r).

Definition Rect_setHeight (h : Z) (r : QRect) : QRect :=
  mkQRect (rx1 r) (ry1 r) (rx2 r) (ry1 r + h - 1).

(** The clone that [pasteShape] adds: the clipboard shape with its rectangle
    moved to [pos], the pointer position in widget coordinates. *)
Definition pastedShape (pos : QPoint) (clip : ShapeBase) : ShapeBase :=
  let newShape := clone clip in
  let rect := getRect newShape in
  let width := Rect.width rect in
  let height := Rect.height rect in
  let rect := Rect.setTopLeft pos rect in
  let rect := Rect_setWidth width rect in
  let rect := Rect_setHeight height rect in
  setRect rect newShape.

Definition pasteShape (pos : QPoint) (clipboard : option ShapeBase) (d : DrawingArea)
  : DrawingArea :=
  match clipboard with
  | Some clip => addShape (pastedShape pos clip) d
  | None => d
  end.

(** *** [DrawingArea::saveToFile]

    [toJson] is the virtual serializer of a shape and [colorName] is
    [QColor::name()]; [widgetSize] is the size of the widget, which the
    function writes as [size].  The result is the document handed to
    [file.write], [None] when the file cannot be opened for writing. *)

Definition connectionToJson (conn : ArrowConnection.t) : QJsonValue :=
  JObject [ ("arrowIndex", JNumber (ArrowConnection.arrowIndex conn));
            ("shapeIndex", JNumber (ArrowConnection.shapeIndex conn));
            ("handleIndex", JNumber (ArrowConnection.handleIndex conn));
            ("isStartPoint", JBool (ArrowConnection.isStartPoint conn)) ]%string.

Definition saveToFile (toJson : ShapeBase -> QJsonValue) (colorName : QColor -> string)
  (writable : bool) (widgetSize : QSize) (d : DrawingArea) : option QJsonValue :=
  if negb writable then None else
  let shapesArray := map toJson (shapes d) in
  let connectionsArray := map connectionToJson (arrowConnections d) in
  Some (JObject
          [ ("shapes", JArray shapesArray);
            ("backgroundColor", JString (colorName (m_bgColor d)));
            ("gridSize", JNumber (m_gridSize d));
            ("size", JObject [ ("width", JNumber (sz_width widgetSize));
                               ("height", JNumber (sz_height widgetSize)) ]);
            ("connections", JArray connectionsArray) ]%string).

End CanvasMore.

(** ** Concrete collaborators for the examples

    The properties below hold for every instance of the three interfaces.
    The instances here serve the worked examples. *)

(** The canvas without rotation: every angle is the zero angle. *)
Definition NoRotation : FloatOps :=
  {| Angle := unit;
     angle_zero := tt;
     angle_nonzero := fun _ => false;
     rotate_vec := fun _ p => p;
     atan2_delta := fun _ _ => tt;
     angle_add := fun _ _ => tt |}.

(** Modelled from the spec: the anchor list of a shape (the shape classes are
    not among the sources).  A shape other than an arrow has four
    [ArrowAnchor]s that sit exactly at the midpoints of its edges, in the
    order of the plus handles (top, bottom, left, right); an arrow is never
    an anchor source. *)
Definition spec_getArrowAnchors (s : @ShapeBase NoRotation) : list Handle.t :=
  match kind s with
  | ShapeArrow => []
  | _ =>
      let r := m_rect s in
      let x := Rect.left r in
      let y := Rect.top r in
      let w := Rect.width r in
      let h := Rect.height r in
      [ Handle.mk (Rect.make (x + w ÷ 2) y 1 1) Handle.ArrowAnchor 9;
        Handle.mk (Rect.make (x + w ÷ 2) (y + h) 1 1) Handle.ArrowAnchor 10;
        Handle.mk (Rect.make x (y + h ÷ 2) 1 1) Handle.ArrowAnchor 11;
        Handle.mk (Rect.make (x + w) (y + h ÷ 2) 1 1) Handle.ArrowAnchor 12 ]
  end.

(** Modelled from the spec: [mapArrowHandleToAnchor(direction)] gives the
    position in the anchor list of the anchor with the direction code of the
    plus handle, [-1] for any other code. *)
Definition spec_mapArrowHandleToAnchor (s : @ShapeBase NoRotation) (direction : Z) : Z :=
  match direction with
  | 9 => 0
  | 10 => 1
  | 11 => 2
  | 12 => 3
  | _ => -1
  end.

(** The rectangle spanned by the two endpoints of an arrow. *)
Definition lineRect (l : QLine) : QRect :=
  mkQRect (Z.min (px (p1 l)) (px (p2 l))) (Z.min (py (p1 l)) (py (p2 l)))
          (Z.max (px (p1 l)) (px (p2 l))) (Z.max (py (p1 l)) (py (p2 l))).

(** Modelled from the spec: the remaining virtual methods of the shape
    classes, which are not among the sources.  Connection anchors are offered
    by every shape but an arrow; the hit test is the one of the bounding
    rectangle; an arrow has one handle on each endpoint; [fromJson] restores
    the geometry and the line width. *)
Definition SpecShapes : @ShapeVirtuals NoRotation :=
  {| getArrowAnchors := spec_getArrowAnchors;
     mapArrowHandleToAnchor := spec_mapArrowHandleToAnchor;
     needPlusHandles := fun s => match kind s with ShapeArrow => false | _ => true end;
     contains := fun s p =>
       match kind s with
       | ShapeArrow => Rect.contains (lineRect (m_line s)) p
       | _ => Rect.contains (m_rect s) p
       end;
     fromJson := fun s obj =>
       mkShape (kind s)
         (Rect.make (Json.toInt (Json.get "x" obj)) (Json.toInt (Json.get "y" obj))
                    (Json.toInt (Json.get "width" obj)) (Json.toInt (Json.get "height" obj)))
         (mkQLine (mkQPoint (Json.toInt (Json.get "x1" obj)) (Json.toInt (Json.get "y1" obj)))
                  (mkQPoint (Json.toInt (Json.get "x2" obj)) (Json.toInt (Json.get "y2" obj))))
         (m_lineColor s) (Json.toInt (Json.get "lineWidth" obj)) (m_rotation s)
         (m_selectedHandleIndex s);
     rotate := fun _ s => s;
     arrow_getHandles := fun s =>
       [ Handle.mk (Rect.make (px (p1 (m_line s)) - 4) (py (p1 (m_line s)) - 4) 8 8)
                   Handle.Scale 0;
         Handle.mk (Rect.make (px (p2 (m_line s)) - 4) (py (p2 (m_line s)) - 4) 8 8)
                   Handle.Scale 1 ];
     arrow_setRect := fun r s =>
       mkShape (kind s) (m_rect s) (mkQLine (Rect.topLeft r) (Rect.bottomRight r))
               (m_lineColor s) (m_lineWidth s) (m_rotation s) (m_selectedHandleIndex s);
     arrow_getRect := fun s => lineRect (m_line s);
     defaultLineColor := Color.rgb 0 0 0;
     defaultLineWidth := 2 |}.

(** A file system with one readable document and one file that is not JSON,
    and a parser that knows the two contents. *)
Definition sampleDocument : QJsonValue :=
  JObject
    [ ("backgroundColor", JString "#ffffff");
      ("gridSize", JNumber 20);
      ("size", JObject [("width", JNumber 800); ("height", JNumber 600)]);
      ("shapes",
       JArray
         [ JObject [("type", JString "rect"); ("x", JNumber 0); ("y", JNumber 0);
                    ("width", JNumber 80); ("height", JNumber 60); ("lineWidth", JNumber 2)];
           JObject [("type", JString "cloud")];
           JObject [("type", JString "arrow"); ("x1", JNumber 80); ("y1", JNumber 30);
                    ("x2", JNumber 200); ("y2", JNumber 30); ("lineWidth", JNumber 2)] ]);
      ("connections",
       JArray
         [ JObject [("arrowIndex", JNumber 1); ("shapeIndex", JNumber 0);
                    ("handleIndex", JNumber 3); ("isStartPoint", JBool true)] ]) ]%string.

(** A document whose only connection names an anchor slot that no shape
    has. *)
Definition staleDocument : QJsonValue :=
  JObject
    [ ("backgroundColor", JString "#ffffff");
      ("gridSize", JNumber 20);
      ("size", JObject [("width", JNumber 800); ("height", JNumber 600)]);
      ("shapes",
       JArray
         [ JObject [("type", JString "rect"); ("x", JNumber 0); ("y", JNumber 0);
                    ("width", JNumber 80); ("height", JNumber 60); ("lineWidth", JNumber 2)];
           JObject [("type", JString "arrow"); ("x1", JNumber 200); ("y1", JNumber 200);
                    ("x2", JNumber 300); ("y2", JNumber 300); ("lineWidth", JNumber 2)] ]);
      ("connections",
       JArray
         [ JObject [("arrowIndex", JNumber 1); ("shapeIndex", JNumber 0);
                    ("handleIndex", JNumber 7); ("isStartPoint", JBool true)] ]) ]%string.

Definition SampleRuntime : QtRuntime :=
  {| file_read := fun name =>
       if String.eqb name "diagram.json" then Some [Byte.x7b; Byte.x7d]
       else if String.eqb name "stale.json" then Some [Byte.x7b; Byte.x20; Byte.x7d]
       else if String.eqb name "notes.txt" then Some [Byte.x68; Byte.x69]
       else None;
     QJsonDocument_fromJson := fun data =>
       match data with
       | [Byte.x7b; Byte.x7d] => Some sampleDocument
       | [Byte.x7b; Byte.x20; Byte.x7d] => Some staleDocument
       | _ => None
       end;
     QColor_fromName := fun name =>
       if String.eqb name "#ffffff" then Color.rgb 255 255 255 else Color.invalid |}.

(** ** Vocabulary of the properties *)

Section Vocabulary.

Context {FO : FloatOps} {SV : ShapeVirtuals} {QR : QtRuntime}.

(** A sequence of add operations, one per shape of [ss]. *)
Definition addShapes (ss : list ShapeBase) (d : DrawingArea) : DrawingArea :=
  fold_left (fun d s => addShape s d) ss d.

(** [n] times the same operation, stopping at the first one that fails. *)
Fixpoint times (n : nat) (op : DrawingArea -> option DrawingArea) (d : DrawingArea)
  : option DrawingArea :=
  match n with
  | O => Some d
  | S n' => d' ← op d; times n' op d'
  end.

(** A sequence of operations, run from left to right. *)
Definition run (ops : list (DrawingArea -> option DrawingArea)) (d : DrawingArea)
  : option DrawingArea :=
  foldlM (fun d op => op d) ops d.

(** The [Add] action that carries a clone of [s] for position [i]. *)
Definition addAction (i : nat) (s : ShapeBase) : HistoryAction :=
  set_shape (Some s) (HistoryAction_new Add (Z.of_nat i)).

(** The [Add] actions of the shapes [ss] appended from position [n] on, the
    oldest first. *)
Fixpoint addActions (n : nat) (ss : list ShapeBase) : list HistoryAction :=
  match ss with
  | [] => []
  | s :: rest => addAction n s :: addActions (S n) rest
  end.

(** The file cannot be opened, or its content is not JSON. *)
Definition unreadable (fileName : string) : Prop :=
  file_read fileName = None \/
  exists data, file_read fileName = Some data /\ QJsonDocument_fromJson data = None.

End Vocabulary.

(** The resize policy in the words of the spec: the scale handle with
    position code [k] (0 = top left, 1 = top middle, 2 = top right, 3 = middle
    left, 4 = middle right, 5 = bottom left, 6 = bottom middle, 7 = bottom
    right) drags the edges it lies on and no other. *)
Definition movesLeft (k : Z) : bool := (k =? 0) || (k =? 3) || (k =? 5).
Definition movesTop (k : Z) : bool := (k =? 0) || (k =? 1) || (k =? 2).
Definition movesRight (k : Z) : bool := (k =? 2) || (k =? 4) || (k =? 7).
Definition movesBottom (k : Z) : bool := (k =? 5) || (k =? 6) || (k =? 7).

Definition draggedRect (k : Z) (delta : QPoint) (r : QRect) : QRect :=
  mkQRect (if movesLeft k then rx1 r + px delta else rx1 r)
          (if movesTop k then ry1 r + py delta else ry1 r)
          (if movesRight k then rx2 r + px delta else rx2 r)
          (if movesBottom k then ry2 r + py delta else ry2 r).

(** The value fits a C++ [int]. *)
Definition isInt (n : Z) : Prop := -2147483648 <= n <= 2147483647.

(** No [int] operation of [calculateNewRect] overflows when the handle with
    position code [k] of a shape with rectangle [r] is dragged from
    [lastMousePos] to [mousePos]: the two components of the pointer delta
    ([mousePos - lastMousePos]), the coordinates of the dragged rectangle
    (each dragged edge is an edge of [r] plus a component of the delta) and
    its width and height ([x2 - x1 + 1], [y2 - y1 + 1], with their
    differences) are values of an [int]. *)
Definition resizeWithinInt (k : Z) (mousePos lastMousePos : QPoint) (r : QRect) : Prop :=
  let delta := Point.sub mousePos lastMousePos in
  let cand := draggedRect k delta r in
  isInt (px delta) /\ isInt (py delta) /\
  isInt (rx1 cand) /\ isInt (ry1 cand) /\ isInt (rx2 cand) /\ isInt (ry2 cand) /\
  isInt (rx2 cand - rx1 cand) /\ isInt (Rect.width cand) /\
  isInt (ry2 cand - ry1 cand) /\ isInt (Rect.height cand).

(** *** The connection list

    [binds a isStart c]: the connection [c] binds the endpoint of arrow [a]
    that [isStart] names; [bindsTo] also fixes the shape it is bound to. *)
Definition binds (a : Z) (isStart : bool) (c : ArrowConnection.t) : bool :=
  (ArrowConnection.arrowIndex c =? a) && Bool.eqb (ArrowConnection.isStartPoint c) isStart.

Definition bindsTo (a : Z) (isStart : bool) (s : Z) (c : ArrowConnection.t) : bool :=
  binds a isStart c && (ArrowConnection.shapeIndex c =? s).

Definition connectionsOf (a : Z) (isStart : bool) (conns : list ArrowConnection.t) :=
  List.filter (binds a isStart) conns.

Definition connectionsTo (a : Z) (isStart : bool) (s : Z) (conns : list ArrowConnection.t) :=
  List.filter (bindsTo a isStart s) conns.

(** Every arrow endpoint has at most one connection. *)
Definition oneConnectionPerEndpoint (conns : list ArrowConnection.t) : Prop :=
  forall a isStart, (length (connectionsOf a isStart conns) <= 1)%nat.

(** Every arrow endpoint has at most one connection to any one shape. *)
Definition oneConnectionPerEndpointAndShape (conns : list ArrowConnection.t) : Prop :=
  forall a isStart s, (length (connectionsTo a isStart s conns) <= 1)%nat.

(** [adopts s conns conns']: [conns'] is [conns] followed by connections to
    the shape [s], each one appended for an endpoint that had no connection
    to [s] at that moment. *)
Inductive adopts (s : Z) (conns : list ArrowConnection.t) : list ArrowConnection.t -> Prop :=
| adopts_none : adopts s conns conns
| adopts_one conns' c :
    adopts s conns conns' ->
    ArrowConnection.shapeIndex c = s ->
    connectionsTo (ArrowConnection.arrowIndex c) (ArrowConnection.isStartPoint c) s conns' = [] ->
    adopts s conns (conns' ++ [c]).

(** ** Example canvases *)

Definition emptyCanvas : @DrawingArea NoRotation :=
  mkDrawingArea [] [] (-1) SnapInfo.none [] [] false (Color.rgb 255 255 255) 20
                (mkQSize 800 600) false false Rect.null Point.origin Point.origin.

Definition sampleRect : @ShapeBase NoRotation :=
  @ShapeFactory_create NoRotation SpecShapes ShapeRect (Rect.make 0 0 80 60).

Definition sampleEllipse : @ShapeBase NoRotation :=
  @ShapeFactory_create NoRotation SpecShapes ShapeEllipse (Rect.make 200 0 80 60).

(** One rectangle, selected, with its bottom-right scale handle grabbed. *)
Definition grabbedRect : @ShapeBase NoRotation :=
  @setSelectedHandleIndex NoRotation 7 sampleRect.

Definition oneRectCanvas : @DrawingArea NoRotation :=
  mkDrawingArea [sampleRect] [] 0 SnapInfo.none [] [] false (Color.rgb 255 255 255) 20
                (mkQSize 800 600) false false Rect.null Point.origin Point.origin.

(** No connection has a [shapeIndex] that refers to an arrow. *)
Definition shapeIndexNeverArrow {FO : FloatOps} (d : DrawingArea) : Prop :=
  forall c s,
    In c (arrowConnections d) ->
    at_ (shapes d) (ArrowConnection.shapeIndex c) = Some s ->
    isArrow s = false.

(** The invariant of the data model as the spec states it. *)
Definition connectionInvariant {FO : FloatOps} (d : DrawingArea) : Prop :=
  oneConnectionPerEndpoint (arrowConnections d) /\ shapeIndexNeverArrow d.

Section Examples.

#[local] Existing Instance NoRotation.
#[local] Existing Instance SpecShapes.
#[local] Existing Instance SampleRuntime.

(** Two rectangles are dropped, [B] at (300, 0) and then [A] at (0, 0), both
    80 by 60; an arrow is drawn out of the right plus handle of [A] and its
    end is released on the empty page.  The arrow is shape 2 and its start
    is bound to anchor 3 (right) of [A], shape 1. *)
Definition drawArrowGesture : list (DrawingArea -> option DrawingArea) :=
  [ fun d => Some (dropEvent "rect" (mkQPoint 340 30) d);
    fun d => Some (dropEvent "rect" (mkQPoint 40 30) d);
    mousePressEvent (mkQPoint 90 30);
    mouseMoveEvent (mkQPoint 150 100) 10;
    mouseReleaseEvent (mkQPoint 150 100) 10 ].

(** [B] is grabbed in its middle. *)
Definition grabB : list (DrawingArea -> option DrawingArea) :=
  [ mousePressEvent (mkQPoint 340 30) ].

(** [B] is dragged until its left edge is 4 units right of the right edge of
    [A]. *)
Definition dragBNextToA : DrawingArea -> option DrawingArea :=
  mouseMoveEvent (mkQPoint 124 30) 10.

(** One rectangle with an arrow drawn out of its right plus handle; the
    arrow, shape 1, stays selected. *)
Definition boundArrowGesture : list (DrawingArea -> option DrawingArea) :=
  [ fun d => Some (dropEvent "rect" (mkQPoint 40 30) d);
    mousePressEvent (mkQPoint 90 30);
    mouseMoveEvent (mkQPoint 150 100) 10;
    mouseReleaseEvent (mkQPoint 150 100) 10 ].

(** The rectangle of a loaded document is grabbed in its middle and dragged
    by (5, 5). *)
Definition dragLoadedRect : list (DrawingArea -> option DrawingArea) :=
  [ mousePressEvent (mkQPoint 40 30);
    mouseMoveEvent (mkQPoint 45 35) 10 ].

(** A canvas whose undo stack holds a [Move] of a shape that is not there. *)
Definition staleMoveCanvas : DrawingArea :=
  set_undoStack [set_moveDelta (mkQPoint 5 5) (HistoryAction_new Move 3)] emptyCanvas.

(** A canvas whose undo stack holds a [Remove] recorded for a position beyond
    the end of the shape list. *)
Definition staleRemoveCanvas : DrawingArea :=
  set_undoStack [set_shape (Some sampleRect) (HistoryAction_new Remove 3)] emptyCanvas.

(** A canvas whose redo stack holds a [Resize] of a shape that is not
    there. *)
Definition staleRedoCanvas : DrawingArea :=
  set_redoStack [set_rects (Rect.make 0 0 80 60) (Rect.make 0 0 90 60)
                           (HistoryAction_new Resize 2)] oneRectCanvas.

(** A canvas whose redo stack holds an [Add] recorded for a position beyond
    the end of the shape list. *)
Definition staleAddCanvas : DrawingArea :=
  set_redoStack [set_shape (Some sampleEllipse) (HistoryAction_new Add 5)] oneRectCanvas.

(** A canvas whose undo stack holds a [Remove] with a negative index. *)
Definition negativeRemoveCanvas : DrawingArea :=
  set_undoStack [set_shape (Some sampleRect) (HistoryAction_new Remove (-1))] oneRectCanvas.

(** A canvas whose redo stack holds an [Add] with a negative index. *)
Definition negativeAddCanvas : DrawingArea :=
  set_redoStack [set_shape (Some sampleEllipse) (HistoryAction_new Add (-1))] oneRectCanvas.

(** An arrow from (200, 200) to (300, 300). *)
Definition sampleArrow : ShapeBase :=
  ShapeFactory_createArrow (mkQLine (mkQPoint 200 200) (mkQPoint 300 300)).

(** The canvas after [drawArrowGesture]. *)
Definition arrowDrawn : DrawingArea :=
  default emptyCanvas (run drawArrowGesture emptyCanvas).


(** The canvas after [boundArrowGesture]. *)
Definition arrowBound : DrawingArea :=
  default emptyCanvas (run boundArrowGesture emptyCanvas).

(** The canvas loaded from the document with the stale anchor slot. *)
Definition staleLoaded : DrawingArea :=
  snd (loadFromFile "stale.json" emptyCanvas).

(** A canvas with one recorded add. *)
Definition oneAddCanvas : DrawingArea := addShape sampleRect emptyCanvas.

End Examples.

(** ** Vocabulary of the further properties *)

Section MoreVocabulary.

Context {FO : FloatOps} {SV : ShapeVirtuals}.



End MoreVocabulary.

Section MoreVocabulary2.

Context {FO : FloatOps} {SV : ShapeVirtuals}.

(** The shape [x] with other endpoints. *)
Definition withLine (l : QLine) (x : ShapeBase) : ShapeBase :=
  mkShape (kind x) (m_rect x) l (m_lineColor x) (m_lineWidth x) (m_rotation x)
          (m_selectedHandleIndex x).

(** [x'] is [x] after a connection update: a shape other than an arrow is
    the same, an arrow differs at most in its endpoints. *)
Definition reconnected (x x' : ShapeBase) : Prop :=
  if isArrow x then exists l, x' = withLine l x else x' = x.

(** The selection is [-1] or a position of the shape list. *)
Definition selectionValid (d : DrawingArea) : Prop :=
  selectedIndex d = -1 \/ inRange (selectedIndex d) (shapes d) = true.

(** An action that [undo()] and [redo()] can replay without leaving the
    list: its index is not negative, and an [Add] or [Remove] carries its
    shape. *)
Definition replayable (a : HistoryAction) : Prop :=
  0 <= shapeIndex a /\
  match type a with
  | Add | Remove => shape a <> None
  | _ => True
  end.

(** The history of a canvas between two events: recording is not suppressed
    and every action on either stack is replayable. *)
Definition historyValid (d : DrawingArea) : Prop :=
  m_ignoreHistoryActions d = false /\
  Forall replayable (m_undoStack d) /\ Forall replayable (m_redoStack d).

End MoreVocabulary2.

Section MoreVocabulary3.

Context {FO : FloatOps} {SV : ShapeVirtuals} {QR : QtRuntime}.

(** [d0] is [d] after one recorded change: an undo on [d0] completes and
    gives back the shapes, connections, selection and undo stack of [d], and
    a redo after that completes and gives the shapes and the undo stack of
    [d0] again, with nothing left to redo. *)
Definition undoneAndRedone (d d0 : DrawingArea) : Prop :=
  exists d1 d2,
    undo d0 = Some d1 /\
    shapes d1 = shapes d /\
    arrowConnections d1 = arrowConnections d /\
    selectedIndex d1 = selectedIndex d /\
    m_undoStack d1 = m_undoStack d /\
    redo d1 = Some d2 /\
    shapes d2 = shapes d0 /\
    m_undoStack d2 = m_undoStack d0 /\
    m_redoStack d2 = [].

(** What a z-order operation keeps: the shapes as a collection, the
    connection list, both history stacks, and the shape that is selected. *)
Definition keepsSelectedShape (op : DrawingArea -> DrawingArea) (d : DrawingArea) : Prop :=
  Permutation (shapes (op d)) (shapes d) /\
  arrowConnections (op d) = arrowConnections d /\
  m_undoStack (op d) = m_undoStack d /\
  m_redoStack (op d) = m_redoStack d /\
  (inRange (selectedIndex d) (shapes d) = true ->
   inRange (selectedIndex (op d)) (shapes (op d)) = true /\
   at_ (shapes (op d)) (selectedIndex (op d)) = at_ (shapes d) (selectedIndex d)).

End MoreVocabulary3.

Section Operations.

Context {FO : FloatOps} {SV : ShapeVirtuals} {QR : QtRuntime}.

(** The entry points of the canvas that change its state, with their
    arguments: the slots and event handlers of [DrawingArea].  [OpPaste]
    carries the content of the clipboard and [OpCut] drops the clipboard it
    fills. *)
Inductive Operation :=
| OpDrop (shapeType : string) (pos : QPoint)
| OpPaste (pos : QPoint) (clipboard : option ShapeBase)
| OpCut
| OpDelete
| OpKey (event : QKeyEvent)
| OpLineColor (color : QColor)
| OpLineWidth (width : Z)
| OpMoveUp
| OpMoveDown
| OpMoveToTop
| OpMoveToBottom
| OpPress (docPos : QPoint)
| OpMove (docPos : QPoint) (snapDistance : Z)
| OpRelease (docPos : QPoint) (snapDistance : Z)
| OpUndo
| OpRedo
| OpLoad (fileName : string)
| OpClear
| OpGridSize (size : Z)
| OpPageSize (size : QSize).

Definition perform (op : Operation) (d : DrawingArea) : option DrawingArea :=
  match op with
  | OpDrop shapeType pos => Some (dropEvent shapeType pos d)
  | OpPaste pos clipboard => Some (pasteShape pos clipboard d)
  | OpCut => Some (snd (cutSelectedShape None d))
  | OpDelete => Some (deleteSelectedShape d)
  | OpKey event => keyPressEvent event d
  | OpLineColor color => Some (setSelectedShapeLineColor color d)
  | OpLineWidth width => Some (setSelectedShapeLineWidth width d)
  | OpMoveUp => Some (moveShapeUp d)
  | OpMoveDown => Some (moveShapeDown d)
  | OpMoveToTop => Some (moveShapeToTop d)
  | OpMoveToBottom => Some (moveShapeToBottom d)
  | OpPress docPos => mousePressEvent docPos d
  | OpMove docPos snapDistance => mouseMoveEvent docPos snapDistance d
  | OpRelease docPos snapDistance => mouseReleaseEvent docPos snapDistance d
  | OpUndo => undo d
  | OpRedo => redo d
  | OpLoad fileName => Some (snd (loadFromFile fileName d))
  | OpClear => Some (clear d)
  | OpGridSize size => Some (setGridSize size d)
  | OpPageSize size => Some (setPageSize size d)
  end.

(** A sequence of operations, stopping at the first one that runs into
    undefined behaviour. *)
Definition performAll (ops : list Operation) (d : DrawingArea) : option DrawingArea :=
  foldlM (fun d op => perform op d) ops d.

(** The state between two events that the handlers rely on. *)
Definition canvasInvariant (d : DrawingArea) : Prop :=
  selectionValid d /\ historyValid d.

(** [d'] is [d] up to the content of the shapes, the connections and the
    state of the gesture: same number of shapes, same selection, same
    history. *)
Definition sameFrame (d d' : DrawingArea) : Prop :=
  length (shapes d') = length (shapes d) /\
  selectedIndex d' = selectedIndex d /\
  m_undoStack d' = m_undoStack d /\
  m_redoStack d' = m_redoStack d /\
  m_ignoreHistoryActions d' = m_ignoreHistoryActions d.

(** The history of [d'] is the one of [d], or the one of [d] after one
    replayable action was recorded. *)
Definition historyGrows (d d' : DrawingArea) : Prop :=
  m_ignoreHistoryActions d' = m_ignoreHistoryActions d /\
  ((m_undoStack d' = m_undoStack d /\ m_redoStack d' = m_redoStack d) \/
   (exists a, replayable a /\ m_undoStack d' = a :: m_undoStack d /\ m_redoStack d' = [])).

(** [d'] is [d] after an edit in place: same number of shapes, same
    selection, and at most one action recorded. *)
Definition editFrame (d d' : DrawingArea) : Prop :=
  length (shapes d') = length (shapes d) /\
  selectedIndex d' = selectedIndex d /\
  historyGrows d d'.

(** The pointer moves of one drag, in order. *)
Definition dragMoves (ps : list QPoint) (snapDistance : Z) : list Operation :=
  map (fun p => OpMove p snapDistance) ps.

(** The [Move] action that a release records for shape [i]. *)
Definition moveAction (i : nat) (delta : QPoint) : HistoryAction :=
  set_moveDelta delta (HistoryAction_new Move (Z.of_nat i)).

(** The [Resize] action that a release records for shape [i]. *)
Definition resizeAction (i : nat) (oldR newR : QRect) : HistoryAction :=
  set_rects oldR newR (HistoryAction_new Resize (Z.of_nat i)).

(** The state in the middle of a drag of shape [i] by its body: the shape,
    not an arrow and with no handle selected, is [s]; the pointer was last
    seen at [last] and the drag started at [start]. *)
Definition grabbedAt (i : nat) (s : ShapeBase) (last start : QPoint) (d : DrawingArea)
  : Prop :=
  dragging d = true /\ selectedIndex d = Z.of_nat i /\ shapes d !! i = Some s /\
  isArrow s = false /\ isHandleSelected s = false /\
  lastMousePos d = last /\ m_moveStartPos d = start.

(** The state in the middle of a resize of shape [i] by one of its eight
    scale handles: the shape, not an arrow, is [s], and the rectangle it had
    when the handle was pressed is [r0]. *)
Definition resizingAt (i : nat) (s : ShapeBase) (r0 : QRect) (d : DrawingArea) : Prop :=
  dragging d = true /\ resizing d = true /\ selectedIndex d = Z.of_nat i /\
  shapes d !! i = Some s /\ isArrow s = false /\
  0 <= m_selectedHandleIndex s <= 7 /\ originalRect d = r0.

End Operations.

Section MoreVocabulary4.

Context {FO : FloatOps} {SV : ShapeVirtuals}.

(** The connection names an anchor slot that the shape [moved] at position
    [s] has, when it is a connection to that shape. *)
Definition slotExists (s : Z) (moved : ShapeBase) (c : ArrowConnection.t) : Prop :=
  ArrowConnection.shapeIndex c = s ->
  inRange (ArrowConnection.handleIndex c) (getArrowAnchors moved) = true.

End MoreVocabulary4.

Section MoreExamples.

#[local] Existing Instance NoRotation.
#[local] Existing Instance SpecShapes.
#[local] Existing Instance SampleRuntime.

(** A rectangle is dropped, an arrow is drawn out of its right plus handle
    and released on the empty page, and the gesture is undone. *)
Definition arrowSession : list Operation :=
  [ OpDrop "rect" (mkQPoint 40 30);
    OpPress (mkQPoint 90 30);
    OpMove (mkQPoint 150 100) 10;
    OpRelease (mkQPoint 150 100) 10;
    OpUndo ].

(** The document with the stale anchor slot, with a recorded [Move] of its
    rectangle on the undo stack. *)
Definition staleMoved : DrawingArea :=
  set_undoStack [set_moveDelta (mkQPoint 5 5) (HistoryAction_new Move 0)] staleLoaded.

(** The selected rectangle is pressed in its middle: a drag by the body
    starts at (40, 30). *)
Definition grabbedCanvas : DrawingArea :=
  default emptyCanvas (mousePressEvent (mkQPoint 40 30) oneRectCanvas).

(** The pointer moves to (45, 35) and to (60, 50), where the button is
    released. *)
Definition dragSession : list Operation :=
  dragMoves [mkQPoint 45 35; mkQPoint 60 50] 10 ++ [OpRelease (mkQPoint 60 50) 10].

Definition draggedCanvas : DrawingArea :=
  default emptyCanvas (performAll dragSession grabbedCanvas).

(** The button is released where it was pressed. *)
Definition clickedCanvas : DrawingArea :=
  default emptyCanvas (mouseReleaseEvent (mkQPoint 40 30) 10 grabbedCanvas).

(** The selected rectangle is pressed on its bottom-right scale handle. *)
Definition handleCanvas : DrawingArea :=
  default emptyCanvas (mousePressEvent (mkQPoint 80 60) oneRectCanvas).

(** The pointer moves to (90, 65), where the button is released. *)
Definition resizeSession : list Operation :=
  dragMoves [mkQPoint 90 65] 10 ++ [OpRelease (mkQPoint 90 65) 10].

Definition resizedCanvas : DrawingArea :=
  default emptyCanvas (performAll resizeSession handleCanvas).


End MoreExamples.

Section Documents.

Context {FO : FloatOps} {SV : ShapeVirtuals} {QR : QtRuntime}.

(** The shape that one entry of the [shapes] array gives: none for an
    unknown [type]. *)
Definition loadedShape (v : QJsonValue) : option ShapeBase :=
  let shapeObj := Json.toObject v in
  s ← shapeOfType (Json.toString (Json.get "type" shapeObj));
  Some (fromJson s shapeObj).

(** The connection that one entry of the [connections] array gives. *)
Definition loadedConnection (v : QJsonValue) : ArrowConnection.t :=
  let connObj := Json.toObject v in
  ArrowConnection.mk (Json.toInt (Json.get "arrowIndex" connObj))
                     (Json.toInt (Json.get "shapeIndex" connObj))
                     (Json.toInt (Json.get "handleIndex" connObj))
                     (Json.toBool (Json.get "isStartPoint" connObj)).

Definition intConnection (c : ArrowConnection.t) : Prop :=
  isInt (ArrowConnection.arrowIndex c) /\ isInt (ArrowConnection.shapeIndex c) /\
  isInt (ArrowConnection.handleIndex c).

(** The page has a positive width and height. *)
Definition pagePositive (d : DrawingArea) : Prop :=
  0 < sz_width (m_pageSize d) /\ 0 < sz_height (m_pageSize d).

(** The palette entries that [dropEvent] knows. *)
Definition knownShapeTypes : list string :=
  ["rect"; "ellipse"; "pentagon"; "triangle"; "diamond"; "arrow"; "roundedrect"]%string.

End Documents.

Section SavedDocument.

#[local] Existing Instance NoRotation.
#[local] Existing Instance SpecShapes.

(** Modelled from the spec: the [toJson] of the shape classes, which are
    not among the sources, writes the [type] discriminator, the geometry and
    the line width, the members that [fromJson] of [SpecShapes] reads. *)
Definition spec_typeName (k : ShapeKind) : string :=
  match k with
  | ShapeRect => "rect"
  | ShapeEllipse => "ellipse"
  | ShapeArrow => "arrow"
  | ShapePentagon => "pentagon"
  | ShapeTriangle => "triangle"
  | ShapeDiamond => "diamond"
  | ShapeRoundedRect => "roundedrect"
  end.

Definition spec_toJson (s : ShapeBase) : QJsonValue :=
  JObject
    [ ("type", JString (spec_typeName (kind s)));
      ("x", JNumber (Rect.left (m_rect s))); ("y", JNumber (Rect.top (m_rect s)));
      ("width", JNumber (Rect.width (m_rect s)));
      ("height", JNumber (Rect.height (m_rect s)));
      ("x1", JNumber (px (p1 (m_line s)))); ("y1", JNumber (py (p1 (m_line s))));
      ("x2", JNumber (px (p2 (m_line s)))); ("y2", JNumber (py (p2 (m_line s))));
      ("lineWidth", JNumber (m_lineWidth s)) ]%string.

(** [QColor::name()] for the two colours of the examples. *)
Definition spec_colorName (c : QColor) : string :=
  if Color.eqb c (Color.rgb 255 255 255) then "#ffffff" else "#000000".

(** The document that [saveToFile] writes for the canvas with the bound
    arrow, and a file system that holds it. *)
Definition savedDocument : QJsonValue :=
  default JNull (saveToFile spec_toJson spec_colorName true (mkQSize 800 600) arrowBound).

Definition SavedRuntime : QtRuntime :=
  {| file_read := fun name =>
       if String.eqb name "saved.json" then Some [Byte.x7b] else None;
     QJsonDocument_fromJson := fun data =>
       match data with
       | [Byte.x7b] => Some savedDocument
       | _ => None
       end;
     QColor_fromName := fun name =>
       if String.eqb name "#ffffff" then Color.rgb 255 255 255 else Color.invalid |}.

End SavedDocument.

(** * Properties *)

(** Boolean tests of the code, turned into propositions for [lia]. *)
Ltac unbool :=
  repeat match goal with
  | H : negb _ = true |- _ => apply negb_true_iff in H
  | H : negb _ = false |- _ => apply negb_false_iff in H
  | H : _ && _ = true |- _ => apply andb_true_iff in H; destruct H
  | H : _ || _ = false |- _ => apply orb_false_iff in H; destruct H
  | H : _ || _ = true |- _ => apply orb_true_iff in H; destruct H
  | H : _ && _ = false |- _ => apply andb_false_iff in H; destruct H
  | H : (_ <? _) = true |- _ => apply Z.ltb_lt in H
  | H : (_ <? _) = false |- _ => apply Z.ltb_ge in H
  | H : (_ <=? _) = true |- _ => apply Z.leb_le in H
  | H : (_ <=? _) = false |- _ => apply Z.leb_gt in H
  | H : (_ =? _) = true |- _ => apply Z.eqb_eq in H
  | H : (_ =? _) = false |- _ => apply Z.eqb_neq in H
  end.

Ltac blia := unbool; lia.

(** A branch in which the code has already run into undefined behaviour. *)
Ltac faulted := cbn [mbind option_bind option_ret mret] in *; discriminate.

Section Properties.

Context {FO : FloatOps} {SV : ShapeVirtuals} {QR : QtRuntime}.

(** C9. [undo()] on an empty undo stack and [redo()] on an empty redo stack
    return at once: the whole canvas state (shape list, connection list,
    selection, both history stacks) is the one before the call. *)
Theorem undo_redo_empty_noop (d : DrawingArea) :
  (m_undoStack d = [] -> undo d = Some d) /\
  (m_redoStack d = [] -> redo d = Some d).
Proof.
  split; intros H.
  - unfold undo. now rewrite H.
  - unfold redo. now rewrite H.
Qed.

Lemma loadShape_history d v :
  m_undoStack (loadShape d v) = m_undoStack d /\ m_redoStack (loadShape d v) = m_redoStack d.
Proof.
  unfold loadShape. destruct (shapeOfType _); auto.
Qed.

Lemma loadShapes_history vs : forall d,
  m_undoStack (fold_left loadShape vs d) = m_undoStack d /\
  m_redoStack (fold_left loadShape vs d) = m_redoStack d.
Proof.
  induction vs as [|v vs IH]; intros d; simpl; [auto|].
  destruct (IH (loadShape d v)) as [-> ->]. apply loadShape_history.
Qed.

Lemma loadConnections_history vs : forall d,
  m_undoStack (fold_left loadConnection vs d) = m_undoStack d /\
  m_redoStack (fold_left loadConnection vs d) = m_redoStack d.
Proof.
  induction vs as [|v vs IH]; intros d; simpl; [auto|].
  destruct (IH (loadConnection d v)) as [-> ->]. auto.
Qed.

Lemma setPageSize_history sz d :
  m_undoStack (setPageSize sz d) = m_undoStack d /\
  m_redoStack (setPageSize sz d) = m_redoStack d.
Proof. unfold setPageSize. destruct (_ && _); auto. Qed.

(** C10. After a successful [loadFromFile] both history stacks are empty:
    [clear()] empties them and the reconstruction of shapes and connections
    records nothing. *)
Theorem loadFromFile_success_clears_history (fileName : string) (d d' : DrawingArea) :
  loadFromFile fileName d = (true, d') ->
  m_undoStack d' = [] /\ m_redoStack d' = [].
Proof.
  unfold loadFromFile.
  destruct (file_read fileName) as [data|]; [|discriminate].
  destruct (QJsonDocument_fromJson data) as [doc|]; [|discriminate].
  intros [= <-].
  match goal with |- context [fold_left loadConnection ?l ?x] =>
    destruct (loadConnections_history l x) as [-> ->] end.
  match goal with |- context [fold_left loadShape ?l ?x] =>
    destruct (loadShapes_history l x) as [-> ->] end.
  match goal with |- context [setPageSize ?l ?x] =>
    destruct (setPageSize_history l x) as [-> ->] end.
  auto.
Qed.

(** C5. When the file cannot be opened or its content is not JSON,
    [loadFromFile] returns [false] and the canvas state is exactly the one
    before the call; a call that got as far as clearing the canvas (it
    returns [true]) has read and parsed its source. *)
Theorem loadFromFile_failure_keeps_state (fileName : string) (d : DrawingArea) :
  (unreadable fileName -> loadFromFile fileName d = (false, d)) /\
  (fst (loadFromFile fileName d) = true -> ~ unreadable fileName).
Proof.
  unfold unreadable, loadFromFile. split.
  - intros [H | (data & H1 & H2)].
    + now rewrite H.
    + now rewrite H1, H2.
  - destruct (file_read fileName) as [data|]; [|discriminate].
    destruct (QJsonDocument_fromJson data) as [doc|] eqn:E; [|discriminate].
    intros _ [H | (data' & H1 & H2)]; [discriminate|]. congruence.
Qed.

Lemma Color_eqb_eq a b : Color.eqb a b = true <-> a = b.
Proof.
  unfold Color.eqb. destruct a, b; simpl.
  rewrite !andb_true_iff, !Z.eqb_eq, Bool.eqb_true_iff. split.
  - intros [[[[-> ->] ->] ->] ->]. reflexivity.
  - intros [= -> -> -> -> ->]. auto.
Qed.

Lemma set_m_rect_same (s : ShapeBase) : set_m_rect (m_rect s) s = s.
Proof. now destruct s. Qed.

Lemma getHandles_scale (s : ShapeBase) (k : Z) :
  isArrow s = false -> 0 <= k <= 7 ->
  exists h, getHandles s !! Z.to_nat k = Some h /\ Handle.type h = Handle.Scale /\
            Handle.direction h = k.
Proof.
  intros Hs Hk. unfold getHandles, ShapeBase_getHandles, scaleHandles. rewrite Hs.
  assert (k = 0 \/ k = 1 \/ k = 2 \/ k = 3 \/ k = 4 \/ k = 5 \/ k = 6 \/ k = 7) as Hc by lia.
  destruct (angle_nonzero (m_rotation s));
  repeat (destruct Hc as [-> | Hc]; [eexists; split; [reflexivity | split; reflexivity] |]);
  subst k; eexists; split; try reflexivity; split; reflexivity.
Qed.

Lemma length_getHandles (s : ShapeBase) :
  isArrow s = false -> (9 <= length (getHandles s))%nat.
Proof.
  intros Hs. unfold getHandles, ShapeBase_getHandles, scaleHandles. rewrite Hs.
  destruct (angle_nonzero (m_rotation s)); simpl; lia.
Qed.

Lemma calculateNewRect_scale (s : ShapeBase) (mousePos lastMousePos : QPoint) :
  isArrow s = false -> 0 <= m_selectedHandleIndex s <= 7 ->
  let cand := draggedRect (m_selectedHandleIndex s) (Point.sub mousePos lastMousePos) (m_rect s) in
  calculateNewRect s mousePos lastMousePos =
    if (Rect.width cand <? 1) || (Rect.height cand <? 1) then m_rect s else cand.
Proof.
  intros Hs Hk. unfold calculateNewRect, boundingRect, getRect. rewrite Hs.
  set (k := m_selectedHandleIndex s) in *.
  assert (k = 0 \/ k = 1 \/ k = 2 \/ k = 3 \/ k = 4 \/ k = 5 \/ k = 6 \/ k = 7) as Hc by lia.
  repeat (destruct Hc as [-> | Hc]; [reflexivity |]). subst k. rewrite Hc. reflexivity.
Qed.

(** C7. For a shape other than an arrow whose selected handle is one of the
    eight scale handles, and a drag for which no [int] operation of
    [calculateNewRect] overflows (signed overflow is undefined in C++ and
    outside the model): the handle at that position is a [Scale] handle;
    when dragging the corresponding edges by the pointer delta gives a
    rectangle of width or height below 1, [calculateNewRect] keeps the
    current rectangle and the shape is unchanged; otherwise the rectangle of
    the shape becomes the dragged rectangle, in which each edge that the
    handle lies on has moved by the matching component of the delta and
    every other edge is where it was, and nothing else of the shape
    changes. *)
Theorem resize_rejects_degenerate_rect (s : ShapeBase) (mousePos lastMousePos : QPoint) :
  isArrow s = false ->
  0 <= m_selectedHandleIndex s <= 7 ->
  resizeWithinInt (m_selectedHandleIndex s) mousePos lastMousePos (m_rect s) ->
  let k := m_selectedHandleIndex s in
  let delta := Point.sub mousePos lastMousePos in
  let cand := draggedRect k delta (m_rect s) in
  let r := handleAnchorInteraction s mousePos lastMousePos in
  (exists h, getHandles s !! Z.to_nat k = Some h /\ Handle.type h = Handle.Scale) /\
  (Rect.width cand < 1 \/ Rect.height cand < 1 ->
     calculateNewRect s mousePos lastMousePos = m_rect s /\
     snd r = s) /\
  (1 <= Rect.width cand /\ 1 <= Rect.height cand ->
     calculateNewRect s mousePos lastMousePos = cand /\
     r = (true, set_m_rect cand s) /\
     m_rect (snd r) = cand /\
     Rect.left (m_rect (snd r)) =
       (if movesLeft k then Rect.left (m_rect s) + px delta else Rect.left (m_rect s)) /\
     Rect.top (m_rect (snd r)) =
       (if movesTop k then Rect.top (m_rect s) + py delta else Rect.top (m_rect s)) /\
     Rect.right (m_rect (snd r)) =
       (if movesRight k then Rect.right (m_rect s) + px delta else Rect.right (m_rect s)) /\
     Rect.bottom (m_rect (snd r)) =
       (if movesBottom k then Rect.bottom (m_rect s) + py delta else Rect.bottom (m_rect s)) /\
     kind (snd r) = kind s /\ m_line (snd r) = m_line s /\
     m_lineColor (snd r) = m_lineColor s /\ m_lineWidth (snd r) = m_lineWidth s /\
     m_rotation (snd r) = m_rotation s /\
     m_selectedHandleIndex (snd r) = m_selectedHandleIndex s).
Proof.
  intros Hs Hk _ k delta cand r.
  destruct (getHandles_scale s k Hs Hk) as (h & Hh & Hty & _).
  pose proof (length_getHandles s Hs) as Hlen.
  pose proof (calculateNewRect_scale s mousePos lastMousePos Hs Hk) as Hcalc.
  cbv zeta in Hcalc. fold k in Hcalc. fold delta in Hcalc. fold cand in Hcalc.
  assert (Hhai : r =
                 let newRect := calculateNewRect s mousePos lastMousePos in
                 if Rect.isEmpty newRect then (false, s) else (true, set_m_rect newRect s)).
  { subst r. unfold handleAnchorInteraction. fold k.
    destruct (k =? -1) eqn:E1; [lia|].
    destruct ((k <? 0) || (Z.of_nat (length (getHandles s)) <=? k)) eqn:E2; [lia|].
    rewrite Hh, Hty. simpl. unfold resize, setRect. now rewrite Hs. }
  split; [eauto|]. split.
  - intros Hdeg.
    assert ((Rect.width cand <? 1) || (Rect.height cand <? 1) = true) as Hb by lia.
    rewrite Hb in Hcalc. split; [exact Hcalc|].
    rewrite Hhai, Hcalc. cbv zeta.
    destruct (Rect.isEmpty (m_rect s)); simpl; [reflexivity | apply set_m_rect_same].
  - intros [Hw Hh'].
    assert ((Rect.width cand <? 1) || (Rect.height cand <? 1) = false) as Hb by lia.
    rewrite Hb in Hcalc. split; [exact Hcalc|].
    assert (Hr : r = (true, set_m_rect cand s)).
    { rewrite Hhai, Hcalc. cbv zeta.
      assert (Rect.isEmpty cand = false) as ->; [|reflexivity].
      unfold Rect.isEmpty, Rect.width, Rect.height in *. lia. }
    rewrite Hr. cbn [snd]. repeat split.
Qed.

(** C8. For a selected shape, setting the line colour or the line width to
    its current value leaves the whole canvas state as it is (no history
    action, same stacks, same shape).  While history is being recorded, a
    different value pushes exactly one action on the undo stack: its type is
    [Property], its index is the selected one, its old colour and old width
    are the ones the shape had, its new colour and new width are the ones
    the shape has afterwards (the value set, and the other property as it
    was); the redo stack is emptied, and in the shape list only that
    property of the selected shape changes. *)
Theorem style_setters_record_changes_only (d : DrawingArea) (s : ShapeBase) :
  inRange (selectedIndex d) (shapes d) = true ->
  shapes d !! Z.to_nat (selectedIndex d) = Some s ->
  setSelectedShapeLineColor (getLineColor s) d = d /\
  setSelectedShapeLineWidth (getLineWidth s) d = d /\
  (m_ignoreHistoryActions d = false ->
   (forall color, color <> getLineColor s ->
      let d' := setSelectedShapeLineColor color d in
      (exists a,
         m_undoStack d' = a :: m_undoStack d /\
         type a = Property /\ shapeIndex a = selectedIndex d /\
         oldLineColor a = getLineColor s /\ newLineColor a = color /\
         oldLineWidth a = getLineWidth s /\ newLineWidth a = getLineWidth s /\
         a = set_properties (getLineColor s) color (getLineWidth s) (getLineWidth s)
               (HistoryAction_new Property (selectedIndex d))) /\
      m_redoStack d' = [] /\
      shapes d' = <[Z.to_nat (selectedIndex d) := setLineColor color s]> (shapes d) /\
      (exists s', shapes d' !! Z.to_nat (selectedIndex d) = Some s' /\
         getLineColor s' = color /\ getLineWidth s' = getLineWidth s)) /\
   (forall width, width <> getLineWidth s ->
      let d' := setSelectedShapeLineWidth width d in
      (exists a,
         m_undoStack d' = a :: m_undoStack d /\
         type a = Property /\ shapeIndex a = selectedIndex d /\
         oldLineColor a = getLineColor s /\ newLineColor a = getLineColor s /\
         oldLineWidth a = getLineWidth s /\ newLineWidth a = width /\
         a = set_properties (getLineColor s) (getLineColor s) (getLineWidth s) width
               (HistoryAction_new Property (selectedIndex d))) /\
      m_redoStack d' = [] /\
      shapes d' = <[Z.to_nat (selectedIndex d) := setLineWidth width s]> (shapes d) /\
      (exists s', shapes d' !! Z.to_nat (selectedIndex d) = Some s' /\
         getLineColor s' = getLineColor s /\ getLineWidth s' = width))).
Proof.
  intros Hr Hs.
  assert (Hr' : (selectedIndex d <? 0) || (Z.of_nat (length (shapes d)) <=? selectedIndex d) = false).
  { unfold inRange in Hr. lia. }
  assert (Hlt : (Z.to_nat (selectedIndex d) < length (shapes d))%nat)
    by (eapply lookup_lt_Some; exact Hs).
  assert (Halter : forall f, alter f (Z.to_nat (selectedIndex d)) (shapes d) =
                             <[Z.to_nat (selectedIndex d) := f s]> (shapes d)).
  { intros f. apply list_eq. intros j.
    destruct (decide (j = Z.to_nat (selectedIndex d))) as [->|Hne].
    - rewrite list_lookup_alter_eq, Hs. simpl.
      rewrite list_lookup_insert_eq; [reflexivity | exact Hlt].
    - rewrite list_lookup_alter_ne, list_lookup_insert_ne by done. done. }
  split; [|split].
  - unfold setSelectedShapeLineColor. rewrite Hr, Hs.
    assert (Color.eqb (getLineColor s) (getLineColor s) = true) as -> by now apply Color_eqb_eq.
    reflexivity.
  - unfold setSelectedShapeLineWidth. rewrite Hr, Hs. now rewrite Z.eqb_refl.
  - intros Hrec. split.
    + intros color Hne d'.
      assert (Hd' : d' = modifyShape (Z.to_nat (selectedIndex d)) (setLineColor color)
                (clearRedoStack
                   (pushUndo (set_properties (getLineColor s) color (getLineWidth s)
                                (getLineWidth s)
                                (HistoryAction_new Property (selectedIndex d))) d))).
      { subst d'. unfold setSelectedShapeLineColor. rewrite Hr, Hs.
        destruct (Color.eqb (getLineColor s) color) eqn:E.
        { apply Color_eqb_eq in E. congruence. }
        unfold recordPropertyChange. rewrite Hrec. cbn [orb]. rewrite Hr'. reflexivity. }
      rewrite Hd'. split; [|split; [|split]].
      * eexists. split; [reflexivity|]. repeat split.
      * reflexivity.
      * cbn. apply Halter.
      * exists (setLineColor color s). split; [|split; reflexivity].
        cbn. rewrite Halter. apply list_lookup_insert_eq. exact Hlt.
    + intros width Hne d'.
      assert (Hd' : d' = modifyShape (Z.to_nat (selectedIndex d)) (setLineWidth width)
                (clearRedoStack
                   (pushUndo (set_properties (getLineColor s) (getLineColor s)
                                (getLineWidth s) width
                                (HistoryAction_new Property (selectedIndex d))) d))).
      { subst d'. unfold setSelectedShapeLineWidth. rewrite Hr, Hs.
        destruct (getLineWidth s =? width) eqn:E; [lia|].
        unfold recordPropertyChange. rewrite Hrec. cbn [orb]. rewrite Hr'. reflexivity. }
      rewrite Hd'. split; [|split; [|split]].
      * eexists. split; [reflexivity|]. repeat split.
      * reflexivity.
      * cbn. apply Halter.
      * exists (setLineWidth width s). split; [|split; reflexivity].
        cbn. rewrite Halter. apply list_lookup_insert_eq. exact Hlt.
Qed.

Lemma addActions_app n ss1 ss2 :
  addActions n (ss1 ++ ss2) = addActions n ss1 ++ addActions (n + length ss1) ss2.
Proof.
  revert n. induction ss1 as [|s ss1 IH]; intros n; simpl.
  - now rewrite Nat.add_0_r.
  - rewrite IH. replace (n + S (length ss1))%nat with (S n + length ss1)%nat by lia. reflexivity.
Qed.

Lemma addShape_spec (s : ShapeBase) (d : DrawingArea) :
  m_ignoreHistoryActions d = false ->
  shapes (addShape s d) = shapes d ++ [s] /\
  m_undoStack (addShape s d) = addAction (length (shapes d)) s :: m_undoStack d /\
  m_redoStack (addShape s d) = [] /\
  m_ignoreHistoryActions (addShape s d) = false.
Proof.
  intros Hi. unfold addShape, recordAddShape. cbn [m_ignoreHistoryActions set_selectedIndex set_shapes shapes selectedIndex].
  rewrite Hi. rewrite length_app. cbn [length].
  replace (Z.of_nat (length (shapes d) + 1) - 1) with (Z.of_nat (length (shapes d))) by lia.
  destruct ((Z.of_nat (length (shapes d)) <? 0) || (Z.of_nat (length (shapes d) + 1) <=? Z.of_nat (length (shapes d)))) eqn:E; [blia|].
  rewrite Nat2Z.id.
  rewrite lookup_app_r by lia. rewrite Nat.sub_diag. cbn.
  rewrite Hi. auto.
Qed.

Lemma addShapes_spec (ss : list ShapeBase) : forall d : DrawingArea,
  m_ignoreHistoryActions d = false ->
  shapes (addShapes ss d) = shapes d ++ ss /\
  m_undoStack (addShapes ss d) = rev (addActions (length (shapes d)) ss) ++ m_undoStack d /\
  m_ignoreHistoryActions (addShapes ss d) = false.
Proof.
  induction ss as [|s ss IH]; intros d Hi.
  - simpl. rewrite app_nil_r. auto.
  - unfold addShapes. cbn [fold_left]. fold (addShapes ss (addShape s d)).
    destruct (addShape_spec s d Hi) as (Hs & Hu & _ & Hi').
    destruct (IH _ Hi') as (Hs2 & Hu2 & Hi2).
    rewrite Hs2, Hu2, Hs, Hu. rewrite length_app. cbn [length addActions rev].
    rewrite <- !app_assoc. cbn. replace (length (shapes d) + 1)%nat with (S (length (shapes d))) by lia.
    auto.
Qed.

Lemma undo_Add_step (d : DrawingArea) (a : HistoryAction) (rest : list HistoryAction)
  (i : nat) (s : ShapeBase) :
  m_undoStack d = a :: rest -> type a = Add -> shapeIndex a = Z.of_nat i ->
  shapes d !! i = Some s ->
  exists d', undo d = Some d' /\
    shapes d' = erase i (shapes d) /\
    m_undoStack d' = rest /\
    m_redoStack d' = addAction i s :: m_redoStack d /\
    arrowConnections d' = arrowConnections d /\
    m_ignoreHistoryActions d' = false.
Proof.
  intros Hu Ht Hidx Hs. unfold undo. rewrite Hu. unfold undoAction. rewrite Ht, Hidx.
  pose proof (lookup_lt_Some _ _ _ Hs) as Hlt.
  unfold inRange, at_. cbn [shapes set_undoStack set_ignoreHistoryActions].
  destruct ((0 <=? Z.of_nat i) && (Z.of_nat i <? Z.of_nat (length (shapes d)))) eqn:E; [|blia].
  destruct (Z.of_nat i <? 0) eqn:E2; [blia|].
  rewrite Nat2Z.id, Hs. cbn [mbind option_bind].
  eexists. split; [reflexivity|].
  unfold selectionAfterErase.
  repeat match goal with |- context [if ?b then _ else _] => destruct b end; cbn; auto.
Qed.

Lemma redo_Add_step (d : DrawingArea) (a : HistoryAction) (rest : list HistoryAction)
  (i : nat) (s : ShapeBase) :
  m_redoStack d = a :: rest -> type a = Add -> shapeIndex a = Z.of_nat i ->
  shape a = Some s ->
  exists d', redo d = Some d' /\
    shapes d' = insertAt (Nat.min i (length (shapes d))) s (shapes d) /\
    m_redoStack d' = rest /\
    m_undoStack d' = addAction i s :: m_undoStack d /\
    arrowConnections d' = arrowConnections d /\
    m_ignoreHistoryActions d' = false.
Proof.
  intros Hr Ht Hidx Hs. unfold redo. rewrite Hr. unfold redoAction. rewrite Ht, Hs, Hidx.
  unfold insertClamped. cbn [shapes set_redoStack set_ignoreHistoryActions pushUndo set_undoStack].
  destruct (Z.min (Z.of_nat i) (Z.of_nat (length (shapes d))) <? 0) eqn:E; [blia|].
  cbn [mbind option_bind].
  eexists. split; [reflexivity|].
  rewrite <- Nat2Z.inj_min, Nat2Z.id.
  unfold selectionAfterInsert.
  repeat match goal with |- context [if ?b then _ else _] => destruct b end; cbn; auto.
Qed.

Lemma undo_adds (ss : list ShapeBase) : forall (d : DrawingArea) (base : list ShapeBase)
    (U : list HistoryAction),
  shapes d = base ++ ss ->
  m_undoStack d = rev (addActions (length base) ss) ++ U ->
  exists d', times (length ss) undo d = Some d' /\
    shapes d' = base /\ m_undoStack d' = U /\
    m_redoStack d' = addActions (length base) ss ++ m_redoStack d /\
    arrowConnections d' = arrowConnections d.
Proof.
  induction ss as [|s ss IH] using rev_ind; intros d base U Hs Hu.
  - exists d. cbn in *. rewrite app_nil_r in Hs. auto.
  - rewrite addActions_app, rev_app_distr in Hu. cbn [addActions rev app] in Hu.
    rewrite length_app. cbn [length]. rewrite Nat.add_1_r. cbn [times].
    assert (Hlook : shapes d !! (length base + length ss)%nat = Some s).
    { rewrite Hs, app_assoc, lookup_app_r; rewrite length_app; [|lia].
      now rewrite Nat.sub_diag. }
    destruct (undo_Add_step d _ _ (length base + length ss)%nat s Hu eq_refl eq_refl Hlook)
      as (d1 & -> & Hs1 & Hu1 & Hr1 & Hc1 & _).
    cbn [mbind option_bind].
    assert (Hs1' : shapes d1 = base ++ ss).
    { rewrite Hs1, Hs. unfold erase. rewrite app_assoc.
      replace (length base + length ss)%nat with (length (base ++ ss))
        by (rewrite length_app; lia).
      rewrite delete_middle. now rewrite app_nil_r. }
    destruct (IH d1 base U Hs1' Hu1) as (d2 & Ht & Hs2 & Hu2 & Hr2 & Hc2).
    exists d2. rewrite Ht, Hs2, Hu2, Hr2, Hr1, Hc2, Hc1.
    rewrite addActions_app. cbn [addActions]. rewrite <- app_assoc. cbn. auto.
Qed.

Lemma redo_adds (ss : list ShapeBase) : forall (d : DrawingArea) (R : list HistoryAction),
  m_redoStack d = addActions (length (shapes d)) ss ++ R ->
  exists d', times (length ss) redo d = Some d' /\
    shapes d' = shapes d ++ ss /\ m_redoStack d' = R /\
    m_undoStack d' = rev (addActions (length (shapes d)) ss) ++ m_undoStack d /\
    arrowConnections d' = arrowConnections d.
Proof.
  induction ss as [|s ss IH]; intros d R Hr.
  - exists d. cbn in *. rewrite app_nil_r. auto.
  - cbn [addActions app] in Hr. cbn [length times].
    destruct (redo_Add_step d _ _ (length (shapes d)) s Hr eq_refl eq_refl eq_refl)
      as (d1 & -> & Hs1 & Hr1 & Hu1 & Hc1 & _).
    cbn [mbind option_bind].
    rewrite Nat.min_id in Hs1. unfold insertAt in Hs1.
    rewrite take_ge, drop_ge in Hs1 by lia.
    assert (Hlen : length (shapes d1) = S (length (shapes d))).
    { rewrite Hs1, length_app. cbn. lia. }
    rewrite <- Hlen in Hr1.
    destruct (IH d1 R Hr1) as (d2 & Ht & Hs2 & Hr2 & Hu2 & Hc2).
    exists d2. rewrite Ht, Hs2, Hr2, Hu2, Hc2, Hlen, Hs1, Hu1, Hc1.
    cbn [addActions rev]. rewrite <- !app_assoc. cbn. auto.
Qed.

(** C3. From any canvas that is recording history, [N] add operations
    followed by [N] undos give back the shape list from before the adds (the
    empty one when starting from the empty canvas), and [N] redos after that
    give all [N] shapes again.  Undo of an [Add] removes the shape at the
    recorded index and pushes an [Add] action with a clone of it on the redo
    stack; redo of an [Add] inserts the clone at
    [min(recorded index, list size)]. *)
Theorem add_undo_redo_roundtrip (d : DrawingArea) (ss : list ShapeBase) :
  m_ignoreHistoryActions d = false ->
  (exists d2 d3,
     times (length ss) undo (addShapes ss d) = Some d2 /\
     shapes d2 = shapes d /\
     times (length ss) redo d2 = Some d3 /\
     shapes d3 = shapes d ++ ss) /\
  (forall (a : HistoryAction) (rest : list HistoryAction) (i : nat) (s : ShapeBase),
     m_undoStack d = a :: rest -> type a = Add -> shapeIndex a = Z.of_nat i ->
     shapes d !! i = Some s ->
     exists d', undo d = Some d' /\
       shapes d' = erase i (shapes d) /\
       m_redoStack d' = set_shape (Some (clone s)) (HistoryAction_new Add (Z.of_nat i))
                          :: m_redoStack d) /\
  (forall (a : HistoryAction) (rest : list HistoryAction) (i : nat) (s : ShapeBase),
     m_redoStack d = a :: rest -> type a = Add -> shapeIndex a = Z.of_nat i ->
     shape a = Some s ->
     exists d', redo d = Some d' /\
       shapes d' = insertAt (Nat.min i (length (shapes d))) s (shapes d)).
Proof.
  intros Hi. split; [|split].
  - destruct (addShapes_spec ss d Hi) as (Hs & Hu & _).
    destruct (undo_adds ss (addShapes ss d) (shapes d) (m_undoStack d) Hs Hu)
      as (d2 & Ht & Hs2 & _ & Hr2 & _).
    rewrite <- Hs2 in Hr2 at 1.
    destruct (redo_adds ss d2 _ Hr2) as (d3 & Ht3 & Hs3 & _).
    exists d2, d3. rewrite Hs2 in Hs3. auto.
  - intros a rest i s Hu Ht Hidx Hs.
    destruct (undo_Add_step d a rest i s Hu Ht Hidx Hs) as (d' & ? & ? & ? & ? & _).
    exists d'. auto.
  - intros a rest i s Hr Ht Hidx Hs.
    destruct (redo_Add_step d a rest i s Hr Ht Hidx Hs) as (d' & ? & ? & _).
    exists d'. auto.
Qed.

Lemma adopts_trans s l1 l2 l3 : adopts s l1 l2 -> adopts s l2 l3 -> adopts s l1 l3.
Proof.
  intros H12 H23. induction H23 as [|l3 c H23 IH Hs Hf]; [exact H12|].
  now apply adopts_one.
Qed.

Lemma filter_nil_existsb {A} (p : A -> bool) (l : list A) :
  List.filter p l = [] <-> existsb p l = false.
Proof.
  induction l as [|x l IH]; simpl; [tauto|].
  destruct (p x); simpl; [split; discriminate | exact IH].
Qed.

Lemma refreshStep_flags i s anchors arrow sc ec c arrow' sc' ec' :
  refreshStep i s anchors (arrow, sc, ec) c = Some (arrow', sc', ec') ->
  sc' = sc || bindsTo (Z.of_nat i) true s c /\
  ec' = ec || bindsTo (Z.of_nat i) false s c.
Proof.
  unfold refreshStep, bindsTo, binds.
  destruct (ArrowConnection.arrowIndex c =? Z.of_nat i); cbn [andb].
  - destruct (ArrowConnection.shapeIndex c =? s).
    + destruct (at_ anchors (ArrowConnection.handleIndex c)) as [anchor|]; [|faulted].
      cbn [mbind option_bind]. intros [= <- <- <-].
      destruct (ArrowConnection.isStartPoint c); cbn; rewrite ?orb_false_r; auto.
    + intros [= <- <- <-]. rewrite !andb_false_r, !orb_false_r. auto.
  - intros [= <- <- <-]. rewrite !orb_false_r. auto.
Qed.

Lemma refresh_flags i s anchors conns : forall arrow sc ec arrow' sc' ec',
  foldlM (refreshStep i s anchors) conns (arrow, sc, ec) = Some (arrow', sc', ec') ->
  sc' = sc || existsb (bindsTo (Z.of_nat i) true s) conns /\
  ec' = ec || existsb (bindsTo (Z.of_nat i) false s) conns.
Proof.
  induction conns as [|c conns IH]; intros arrow sc ec arrow' sc' ec' H.
  - cbn in H. injection H as <- <- <-. cbn. rewrite !orb_false_r. auto.
  - cbn [foldlM] in H.
    destruct (refreshStep i s anchors (arrow, sc, ec) c) as [[[a1 sc1] ec1]|] eqn:E;
      [|faulted].
    cbn [mbind option_bind] in H.
    apply refreshStep_flags in E as [-> ->]. apply IH in H as [-> ->].
    cbn [existsb]. rewrite !orb_assoc. auto.
Qed.

Lemma adoptEndpoint_adopts i s anchors isStart connected p arrow conns :
  connected = existsb (bindsTo (Z.of_nat i) isStart s) conns ->
  adopts s conns (snd (adoptEndpoint i s anchors isStart connected p (arrow, conns))).
Proof.
  intros Hc. unfold adoptEndpoint. destruct connected; [constructor|].
  destruct (findAnchorNear p 5 0 anchors) as [[j anchorPos]|]; [|constructor].
  cbn [snd]. apply adopts_one; [constructor | reflexivity |].
  cbn. now apply filter_nil_existsb.
Qed.

Lemma adoptEndpoint_other i s anchors isStart connected p arrow conns f :
  f <> isStart ->
  existsb (bindsTo (Z.of_nat i) f s)
          (snd (adoptEndpoint i s anchors isStart connected p (arrow, conns))) =
  existsb (bindsTo (Z.of_nat i) f s) conns.
Proof.
  intros Hf. unfold adoptEndpoint. destruct connected; [reflexivity|].
  destruct (findAnchorNear p 5 0 anchors) as [[j anchorPos]|]; [|reflexivity].
  cbn [snd]. rewrite existsb_app. cbn. unfold bindsTo, binds. cbn.
  destruct isStart, f; try congruence; cbn; now rewrite ?andb_false_r, ?orb_false_r.
Qed.

Lemma secondPassStep_adopts s shs conns i shs' conns' :
  secondPassStep s (shs, conns) i = Some (shs', conns') ->
  length shs' = length shs /\ adopts s conns conns'.
Proof.
  unfold secondPassStep.
  destruct (shs !! i) as [sh|]; [|faulted]. cbn [mbind option_bind].
  destruct (negb (isArrow sh) || (Z.of_nat i =? s)).
  { intros [= <- <-]. split; [reflexivity | constructor]. }
  destruct (at_ shs s) as [moved|]; [|faulted]. cbn [mbind option_bind].
  destruct (foldlM _ conns _) as [[[arrow sc] ec]|] eqn:Hf; [|faulted].
  cbn [mbind option_bind].
  apply refresh_flags in Hf as [Hsc Hec]. cbn in Hsc, Hec.
  set (st1 := adoptEndpoint i s (getArrowAnchors moved) true sc _ (arrow, conns)).
  pose proof (adoptEndpoint_adopts i s (getArrowAnchors moved) true sc
                (p1 (getLine sh)) arrow conns Hsc) as H1. fold st1 in H1.
  pose proof (adoptEndpoint_other i s (getArrowAnchors moved) true sc
                (p1 (getLine sh)) arrow conns false ltac:(discriminate)) as Ho. fold st1 in Ho.
  destruct st1 as [arrow1 conns1]. cbn [snd] in H1, Ho.
  rewrite <- Ho in Hec.
  pose proof (adoptEndpoint_adopts i s (getArrowAnchors moved) false ec
                (p2 (getLine sh)) arrow1 conns1 Hec) as H2.
  destruct (adoptEndpoint i s (getArrowAnchors moved) false ec _ (arrow1, conns1))
    as [arrow2 conns2]. cbn [snd] in H2.
  intros [= <- <-]. split; [apply length_insert | eapply adopts_trans; eauto].
Qed.

Lemma secondPass_fold_adopts s is_ : forall shs conns shs' conns',
  foldlM (secondPassStep s) is_ (shs, conns) = Some (shs', conns') ->
  length shs' = length shs /\ adopts s conns conns'.
Proof.
  induction is_ as [|i is_ IH]; intros shs conns shs' conns' H.
  - cbn in H. injection H as <- <-. split; [reflexivity | constructor].
  - cbn [foldlM] in H.
    destruct (secondPassStep s (shs, conns) i) as [[shs1 conns1]|] eqn:E; [|faulted].
    cbn [mbind option_bind] in H.
    apply secondPassStep_adopts in E as [Hl1 Ha1].
    apply IH in H as [Hl2 Ha2]. split; [congruence | eapply adopts_trans; eauto].
Qed.

Lemma updateConnectedArrows_adopts s delta (d d' : DrawingArea) :
  updateConnectedArrows s delta d = Some d' ->
  adopts s (arrowConnections d) (arrowConnections d').
Proof.
  unfold updateConnectedArrows.
  destruct ((s <? 0) || (Z.of_nat (length (shapes d)) <=? s)).
  { intros [= <-]. constructor. }
  destruct (at_ (shapes d) s) as [moved|]; [|faulted]. cbn [mbind option_bind].
  unfold secondPass.
  destruct (foldlM _ _ _) as [[shs conns]|] eqn:E; [|faulted].
  cbn [mbind option_bind]. intros [= <-]. cbn.
  now apply secondPass_fold_adopts in E as [_ ?].
Qed.

Lemma adopts_added s l l' :
  adopts s l l' ->
  exists added, l' = l ++ added /\
    Forall (fun c => ArrowConnection.shapeIndex c = s /\
              connectionsTo (ArrowConnection.arrowIndex c) (ArrowConnection.isStartPoint c) s l = [])
           added.
Proof.
  induction 1 as [|l' c H (added & -> & Hall) Hs Hf].
  - exists []. now rewrite app_nil_r.
  - exists (added ++ [c]). split; [now rewrite app_assoc|].
    apply Forall_app. split; [exact Hall|]. constructor; [|constructor].
    split; [exact Hs|]. unfold connectionsTo in *. rewrite List.filter_app in Hf.
    now apply app_eq_nil in Hf as [-> _].
Qed.

Lemma adopts_keeps_discipline s l l' :
  adopts s l l' -> oneConnectionPerEndpointAndShape l -> oneConnectionPerEndpointAndShape l'.
Proof.
  induction 1 as [|l' c H IH Hs Hf]; intros Hone; [exact Hone|].
  specialize (IH Hone). intros a f s'. unfold connectionsTo in *.
  rewrite List.filter_app, length_app. cbn [List.filter].
  destruct (bindsTo a f s' c) eqn:E.
  - unfold bindsTo, binds in E. apply andb_true_iff in E as [E Es].
    apply andb_true_iff in E as [Ea Ef]. apply Z.eqb_eq in Ea, Es.
    apply Bool.eqb_prop in Ef. subst a f. rewrite Hs in Es. subst s'.
    rewrite Hf. cbn. lia.
  - specialize (IH a f s'). unfold connectionsTo in IH. cbn. lia.
Qed.

Lemma adopts_incl s l l' c : adopts s l l' -> In c l -> In c l'.
Proof.
  induction 1; intros Hin; [exact Hin|]. apply in_or_app. left. auto.
Qed.

Lemma adopts_connectionsOf s l l' a f c0 :
  adopts s l l' -> In c0 l -> bindsTo a f s c0 = true ->
  connectionsOf a f l' = connectionsOf a f l.
Proof.
  intros Had Hin Hb. induction Had as [|l' c Had IH Hs Hf]; [reflexivity|].
  unfold connectionsOf in *. rewrite List.filter_app, IH. cbn [List.filter].
  destruct (binds a f c) eqn:E; [|apply app_nil_r].
  exfalso. unfold binds in E. apply andb_true_iff in E as [Ea Ef].
  apply Z.eqb_eq in Ea. apply Bool.eqb_prop in Ef. subst a f.
  pose proof (adopts_incl _ _ _ _ Had Hin) as Hin'.
  unfold connectionsTo in Hf.
  assert (In c0 (List.filter (bindsTo (ArrowConnection.arrowIndex c)
            (ArrowConnection.isStartPoint c) s) l')) as Hc by (apply filter_In; auto).
  rewrite Hf in Hc. exact Hc.
Qed.

Lemma connectionsOf_replaced a f conns c :
  binds a f c = true ->
  connectionsOf a f (remove_if (binds a f) conns ++ [c]) = [c].
Proof.
  intros Hb. unfold connectionsOf, remove_if. rewrite List.filter_app. cbn [List.filter].
  rewrite Hb.
  assert (List.filter (binds a f) (List.filter (fun x => negb (binds a f x)) conns) = []) as ->;
    [|reflexivity].
  induction conns as [|x conns IH]; [reflexivity|]. cbn [List.filter].
  destruct (binds a f x) eqn:E; cbn [negb List.filter]; [exact IH|]. now rewrite E.
Qed.

Lemma findSnap_target sel pos excl dist shs : forall i0 i j pt,
  findSnap sel pos excl dist i0 shs = Some (i, j, pt) ->
  (i0 <= i)%nat /\ Z.of_nat i <> sel /\
  exists target, shs !! (i - i0)%nat = Some target /\ isArrow target = false.
Proof.
  induction shs as [|sh shs IH]; intros i0 i j pt H; [discriminate|].
  cbn [findSnap] in H.
  destruct ((Z.of_nat i0 =? sel) || isArrow sh) eqn:E.
  - apply IH in H as (Hle & Hne & target & Hl & Ha).
    split; [lia|]. split; [exact Hne|]. exists target. split; [|exact Ha].
    replace (i - i0)%nat with (S (i - S i0)) by lia. exact Hl.
  - destruct (findSnapAnchor pos excl dist 0 (getArrowAnchors sh)) as [[j' target']|].
    + injection H as <- <- <-. apply orb_false_iff in E as [E1 E2].
      split; [lia|]. split; [blia|]. exists sh. rewrite Nat.sub_diag. auto.
    + apply IH in H as (Hle & Hne & target & Hl & Ha).
      split; [lia|]. split; [exact Hne|]. exists target. split; [|exact Ha].
      replace (i - i0)%nat with (S (i - S i0)) by lia. exact Hl.
Qed.

Lemma commitEndpoint_binds isStart docPos snapDistance arrow (d d' : DrawingArea) b h pt :
  findSnap (selectedIndex d) docPos (endpoint (negb isStart) arrow) snapDistance 0 (shapes d)
    = Some (b, h, pt) ->
  commitEndpoint isStart docPos snapDistance arrow d = Some d' ->
  selectedIndex d' = selectedIndex d /\
  connectionsOf (selectedIndex d) isStart (arrowConnections d') =
    [ArrowConnection.mk (selectedIndex d) (Z.of_nat b) (Z.of_nat h) isStart].
Proof.
  intros Hf. unfold commitEndpoint. rewrite Hf. intros Hu.
  pose proof (updateConnectedArrows_adopts _ _ _ _ Hu) as Had.
  split.
  - revert Hu. unfold updateConnectedArrows.
    destruct (_ || _); [now intros [= <-]|].
    destruct (at_ _ _); [|faulted]. cbn [mbind option_bind].
    destruct (secondPass _ _ _) as [[? ?]|]; [|faulted]. now intros [= <-].
  - cbn [replaceConnection arrowConnections set_arrowConnections modifyShape set_shapes
         selectedIndex] in Had.
    set (new := ArrowConnection.mk (selectedIndex d) (Z.of_nat b) (Z.of_nat h) isStart) in *.
    assert (Hb : bindsTo (selectedIndex d) isStart (Z.of_nat b) new = true).
    { unfold bindsTo, binds, new. cbn. rewrite !Z.eqb_refl. now destruct isStart. }
    erewrite (adopts_connectionsOf _ _ _ _ _ new Had); [| apply in_or_app; right; now left | exact Hb].
    apply connectionsOf_replaced. unfold bindsTo in Hb. now apply andb_true_iff in Hb as [-> _].
Qed.

Lemma release_commits_one_connection (d d' : DrawingArea) docPos snapDistance arrow
    (isStart : bool) b h pt :
  at_ (shapes d) (selectedIndex d) = Some arrow ->
  isArrow arrow = true ->
  getSelectedHandleIndex arrow = (if isStart then 0 else 1) ->
  findSnap (selectedIndex d) docPos (endpoint (negb isStart) arrow) snapDistance 0 (shapes d)
    = Some (b, h, pt) ->
  mouseReleaseEvent docPos snapDistance d = Some d' ->
  connectionsOf (selectedIndex d) isStart (arrowConnections d') =
    [ArrowConnection.mk (selectedIndex d) (Z.of_nat b) (Z.of_nat h) isStart] /\
  exists target, shapes d !! b = Some target /\ isArrow target = false.
Proof.
  intros Hat Harrow Hh Hf Hrel. split.
  - unfold mouseReleaseEvent, releaseSelected in Hrel.
    assert ((selectedIndex d =? -1) = false) as Hsel.
    { unfold at_ in Hat. destruct (selectedIndex d <? 0) eqn:E; [discriminate|]. blia. }
    rewrite Hsel, Hat in Hrel. cbn [mbind option_bind] in Hrel. rewrite Harrow, Hh in Hrel.
    assert (Hc : exists d1, commitEndpoint isStart docPos snapDistance arrow d = Some d1 /\
                   arrowConnections d' = arrowConnections d1).
    { destruct isStart; cbn [Z.eqb Pos.eqb] in Hrel;
      match type of Hrel with
      | context [commitEndpoint ?f ?p ?sd ?a ?x] =>
          destruct (commitEndpoint f p sd a x) as [d1|] eqn:E; [|faulted]
      end;
      cbn [mbind option_bind] in Hrel; injection Hrel as <-; exists d1; auto. }
    destruct Hc as (d1 & Hc & ->).
    now apply (commitEndpoint_binds _ _ _ _ _ _ _ _ _ Hf) in Hc as [_ ?].
  - apply findSnap_target in Hf as (_ & _ & target & Hl & Ha).
    rewrite Nat.sub_0_r in Hl. eauto.
Qed.

(** What the two paths that create connections keep, on every canvas.
    Commit-on-release erases every connection of the released arrow endpoint
    before it appends the new one, so after a release that snapped the
    endpoint has exactly one connection, the new one, and the shape it names
    is not an arrow.  The reconciliation pass of [updateConnectedArrows] for
    the shape [s] only appends connections to [s], each for an endpoint that
    had no connection to [s]: its test looks at the connections to [s] only,
    not at the other connections of the endpoint. *)
Lemma connection_discipline (d : DrawingArea) :
  (forall docPos snapDistance arrow (isStart : bool) b h pt d',
     at_ (shapes d) (selectedIndex d) = Some arrow ->
     isArrow arrow = true ->
     getSelectedHandleIndex arrow = (if isStart then 0 else 1) ->
     findSnap (selectedIndex d) docPos (endpoint (negb isStart) arrow) snapDistance 0
              (shapes d) = Some (b, h, pt) ->
     mouseReleaseEvent docPos snapDistance d = Some d' ->
     connectionsOf (selectedIndex d) isStart (arrowConnections d') =
       [ArrowConnection.mk (selectedIndex d) (Z.of_nat b) (Z.of_nat h) isStart] /\
     exists target, shapes d !! b = Some target /\ isArrow target = false) /\
  (forall s delta d',
     updateConnectedArrows s delta d = Some d' ->
     (exists added,
        arrowConnections d' = arrowConnections d ++ added /\
        Forall (fun c =>
                  ArrowConnection.shapeIndex c = s /\
                  connectionsTo (ArrowConnection.arrowIndex c)
                                (ArrowConnection.isStartPoint c) s (arrowConnections d) = [])
               added) /\
     (oneConnectionPerEndpointAndShape (arrowConnections d) ->
      oneConnectionPerEndpointAndShape (arrowConnections d'))).
Proof.
  split.
  - intros docPos snapDistance arrow isStart b h pt d'.
    apply release_commits_one_connection.
  - intros s delta d' Hu. apply (updateConnectedArrows_adopts s delta d d') in Hu. split.
    + now apply adopts_added.
    + now apply (adopts_keeps_discipline s).
Qed.

Lemma inRange_false {A} (i : Z) (v : list A) :
  inRange i v = false -> (i <? 0) || (Z.of_nat (length v) <=? i) = true.
Proof.
  unfold inRange. intros H. apply orb_true_iff.
  apply andb_false_iff in H as [H|H]; [left|right]; blia.
Qed.

Lemma undo_stale (d : DrawingArea) (a : HistoryAction) (rest : list HistoryAction) :
  m_undoStack d = a :: rest ->
  inRange (shapeIndex a) (shapes d) = false ->
  type a <> Remove ->
  undo d = Some (set_ignoreHistoryActions false (set_undoStack rest d)).
Proof.
  intros Hu Hr Ht. unfold undo. rewrite Hu. unfold undoAction.
  cbn [shapes set_undoStack set_ignoreHistoryActions]. rewrite Hr.
  destruct (type a); try reflexivity. congruence.
Qed.

Lemma redo_stale (d : DrawingArea) (a : HistoryAction) (rest : list HistoryAction) :
  m_redoStack d = a :: rest ->
  inRange (shapeIndex a) (shapes d) = false ->
  type a <> Add ->
  redo d = Some (set_ignoreHistoryActions false (set_redoStack rest d)).
Proof.
  intros Hu Hr Ht. unfold redo. rewrite Hu. unfold redoAction.
  cbn [shapes set_redoStack set_ignoreHistoryActions]. rewrite Hr.
  destruct (type a); try reflexivity. congruence.
Qed.

Lemma insertClamped_beyond (index : Z) (s : ShapeBase) (d : DrawingArea) :
  Z.of_nat (length (shapes d)) <= index ->
  exists d', insertClamped index s d = Some d' /\
    shapes d' = shapes d ++ [s] /\
    arrowConnections d' = arrowConnections d /\
    m_undoStack d' = m_undoStack d /\ m_redoStack d' = m_redoStack d.
Proof.
  intros Hge. unfold insertClamped. rewrite Z.min_r by exact Hge.
  destruct (Z.of_nat (length (shapes d)) <? 0) eqn:E; [blia|].
  eexists. split; [reflexivity|]. rewrite Nat2Z.id. unfold selectionAfterInsert, insertAt.
  rewrite take_ge, drop_ge by lia.
  destruct (_ <=? _); cbn; auto.
Qed.

Lemma insertClamped_negative (index : Z) (s : ShapeBase) (d : DrawingArea) :
  index < 0 -> insertClamped index s d = None.
Proof.
  intros Hneg. unfold insertClamped.
  assert ((Z.min index (Z.of_nat (length (shapes d))) <? 0) = true) as -> by lia.
  reflexivity.
Qed.

(** C2, as amended.  A connection update for a shape index outside the shape
    list returns at once and changes nothing, and no [record...] call stores
    an action for an index outside the shape list.  [undo()] and [redo()]
    pop the action before any bounds check.  For [Add] (on undo), [Remove]
    (on redo), [Move], [Resize] and [Property] with an index outside the
    shape list, negative or past the end, the popped action is dropped and
    the rest of the canvas stays as it is.  Undo of a [Remove] and redo of
    an [Add] are guarded from above only: with an index at or past the end
    the stored clone is appended (and the connections of the [Remove] are
    appended to the connection list); with a negative index the insert
    position lies before [begin()] and the call does not complete. *)
Theorem stale_index_guards (d : DrawingArea) :
  (forall s delta,
     inRange s (shapes d) = false -> updateConnectedArrows s delta d = Some d) /\
  (forall index,
     inRange index (shapes d) = false ->
     recordAddShape index d = d /\ recordRemoveShape index d = d /\
     (forall delta, recordMoveShape index delta d = d) /\
     (forall oldR newR, recordResizeShape index oldR newR d = d) /\
     (forall oc nc ow nw, recordPropertyChange index oc nc ow nw d = d)) /\
  (forall a rest,
     m_undoStack d = a :: rest -> inRange (shapeIndex a) (shapes d) = false ->
     type a <> Remove ->
     undo d = Some (set_ignoreHistoryActions false (set_undoStack rest d))) /\
  (forall a rest,
     m_redoStack d = a :: rest -> inRange (shapeIndex a) (shapes d) = false ->
     type a <> Add ->
     redo d = Some (set_ignoreHistoryActions false (set_redoStack rest d))) /\
  (forall a rest s,
     m_undoStack d = a :: rest -> type a = Remove -> shape a = Some s ->
     Z.of_nat (length (shapes d)) <= shapeIndex a ->
     exists d', undo d = Some d' /\ shapes d' = shapes d ++ [s] /\
                arrowConnections d' = arrowConnections d ++ connections a /\
                m_undoStack d' = rest) /\
  (forall a rest s,
     m_redoStack d = a :: rest -> type a = Add -> shape a = Some s ->
     Z.of_nat (length (shapes d)) <= shapeIndex a ->
     exists d', redo d = Some d' /\ shapes d' = shapes d ++ [s] /\
                arrowConnections d' = arrowConnections d /\
                m_redoStack d' = rest) /\
  (forall a rest s,
     m_undoStack d = a :: rest -> type a = Remove -> shape a = Some s ->
     shapeIndex a < 0 ->
     undo d = None) /\
  (forall a rest s,
     m_redoStack d = a :: rest -> type a = Add -> shape a = Some s ->
     shapeIndex a < 0 ->
     redo d = None).
Proof.
  split; [|split; [|split; [|split; [|split; [|split; [|split]]]]]].
  - intros s delta Hr. unfold updateConnectedArrows. now rewrite (inRange_false _ _ Hr).
  - intros index Hr. apply inRange_false in Hr.
    unfold recordAddShape, recordRemoveShape, recordMoveShape, recordResizeShape,
      recordPropertyChange.
    rewrite <- !orb_assoc, Hr, !orb_true_r.
    destruct (m_ignoreHistoryActions d); repeat split.
  - intros a rest. apply undo_stale.
  - intros a rest. apply redo_stale.
  - intros a rest s Hu Ht Hs Hge. unfold undo. rewrite Hu. unfold undoAction. rewrite Ht, Hs.
    match goal with |- context [insertClamped ?i ?x ?y] =>
      destruct (insertClamped_beyond i x y Hge) as (d1 & -> & H1 & H3 & H2 & _) end.
    cbn [mbind option_bind]. eexists. split; [reflexivity|]. cbn. rewrite H1, H2, H3. auto.
  - intros a rest s Hu Ht Hs Hge. unfold redo. rewrite Hu. unfold redoAction. rewrite Ht, Hs.
    match goal with |- context [insertClamped ?i ?x ?y] =>
      destruct (insertClamped_beyond i x y Hge) as (d1 & -> & H1 & H3 & _ & H2) end.
    cbn [mbind option_bind]. eexists. split; [reflexivity|]. cbn. rewrite H1, H2, H3. auto.
  - intros a rest s Hu Ht Hs Hneg. unfold undo. rewrite Hu. unfold undoAction. rewrite Ht, Hs.
    cbv zeta. now rewrite insertClamped_negative.
  - intros a rest s Hu Ht Hs Hneg. unfold redo. rewrite Hu. unfold redoAction. rewrite Ht, Hs.
    cbv zeta. now rewrite insertClamped_negative.
Qed.

Lemma kind_setEndpoint f p (x : ShapeBase) : isArrow (setEndpoint f p x) = isArrow x.
Proof. now destruct f. Qed.

Lemma endpoint_setEndpoint f g p (x : ShapeBase) :
  endpoint f (setEndpoint g p x) = if Bool.eqb f g then p else endpoint f x.
Proof. now destruct f, g. Qed.

Lemma firstPassStep_lookup s delta anchors (shs : list ShapeBase) conn j x :
  shs !! j = Some x ->
  exists x', firstPassStep s delta anchors shs conn !! j = Some x' /\
             isArrow x' = isArrow x /\ (isArrow x = false -> x' = x).
Proof.
  intros Hj. unfold firstPassStep.
  destruct (ArrowConnection.shapeIndex conn =? s); [|eauto].
  destruct (inRange _ shs); [|eauto].
  destruct (shs !! Z.to_nat (ArrowConnection.arrowIndex conn)) as [arrow|] eqn:Ha; [|eauto].
  destruct (isArrow arrow) eqn:Hk; [|eauto].
  assert (Hgen : forall f : ShapeBase -> ShapeBase, (forall y, isArrow (f y) = isArrow y) ->
            exists x', alter f (Z.to_nat (ArrowConnection.arrowIndex conn)) shs !! j = Some x' /\
                       isArrow x' = isArrow x /\ (isArrow x = false -> x' = x)).
  { intros f Hf.
    destruct (decide (Z.to_nat (ArrowConnection.arrowIndex conn) = j)) as [<-|Hne].
    - rewrite list_lookup_alter_eq, Ha. cbn. rewrite Ha in Hj. injection Hj as <-.
      eexists. split; [reflexivity|]. split; [apply Hf | congruence].
    - rewrite list_lookup_alter_ne by exact Hne. eauto. }
  destruct (inRange _ anchors).
  - destruct (anchors !! _); [|eauto]. apply Hgen. intros y. apply kind_setEndpoint.
  - apply Hgen. intros y. apply kind_setEndpoint.
Qed.

Lemma firstPass_lookup s delta anchors conns : forall (shs : list ShapeBase) j x,
  shs !! j = Some x ->
  exists x', firstPass s delta anchors conns shs !! j = Some x' /\
             isArrow x' = isArrow x /\ (isArrow x = false -> x' = x).
Proof.
  unfold firstPass. induction conns as [|c conns IH]; intros shs j x Hj; cbn [fold_left].
  - eauto.
  - destruct (firstPassStep_lookup s delta anchors shs c j x Hj) as (x1 & H1 & Hk1 & He1).
    destruct (IH _ j x1 H1) as (x2 & H2 & Hk2 & He2).
    exists x2. split; [exact H2|]. split; [congruence|].
    intros Hx. rewrite He2 by congruence. auto.
Qed.

Lemma length_firstPass s delta anchors conns : forall shs : list ShapeBase,
  length (firstPass s delta anchors conns shs) = length shs.
Proof.
  unfold firstPass. induction conns as [|c conns IH]; intros shs; cbn [fold_left]; [reflexivity|].
  rewrite IH. unfold firstPassStep.
  repeat match goal with |- context [if ?b then _ else _] => destruct b end;
    repeat match goal with |- context [match ?o with Some _ => _ | None => _ end] =>
      destruct o end;
    repeat match goal with |- context [if ?b then _ else _] => destruct b end;
    rewrite ?length_alter; reflexivity.
Qed.

(** The refresh loop of the second pass faults as soon as one recorded
    connection of the arrow to the moved shape names no anchor. *)
Lemma refresh_faults i s anchors conn conns :
  In conn conns ->
  ArrowConnection.arrowIndex conn = Z.of_nat i ->
  ArrowConnection.shapeIndex conn = s ->
  at_ anchors (ArrowConnection.handleIndex conn) = None ->
  forall acc, foldlM (refreshStep i s anchors) conns acc = None.
Proof.
  intros Hin Ha Hs Hat. induction conns as [|c conns IH]; [destruct Hin|].
  intros [[arrow sc] ec]. cbn [foldlM]. destruct Hin as [->|Hin].
  - unfold refreshStep. rewrite Ha, Hs, !Z.eqb_refl, Hat. reflexivity.
  - destruct (refreshStep i s anchors (arrow, sc, ec) c) as [acc'|]; [|reflexivity].
    cbn [mbind option_bind]. now apply IH.
Qed.

Lemma secondPassStep_frame s (shs : list ShapeBase) conns j shs' conns' k :
  secondPassStep s (shs, conns) j = Some (shs', conns') ->
  k <> j \/ Z.of_nat k = s ->
  shs' !! k = shs !! k.
Proof.
  unfold secondPassStep.
  destruct (shs !! j) as [sh|]; [|faulted]. cbn [mbind option_bind].
  destruct (negb (isArrow sh) || (Z.of_nat j =? s)) eqn:E.
  { now intros [= <- <-]. }
  destruct (at_ shs s) as [moved|]; [|faulted]. cbn [mbind option_bind].
  destruct (foldlM _ conns _) as [[[arrow sc] ec]|]; [|faulted]. cbn [mbind option_bind].
  destruct (adoptEndpoint j s _ false ec _ _) as [arrow2 conns2].
  intros [= <- <-] Hk. apply list_lookup_insert_ne.
  destruct Hk as [Hk|Hk]; [congruence|]. intros ->. blia.
Qed.

Lemma secondPass_prefix_frame s is_ : forall (shs : list ShapeBase) conns shs' conns' k,
  foldlM (secondPassStep s) is_ (shs, conns) = Some (shs', conns') ->
  ~ In k is_ \/ Z.of_nat k = s ->
  shs' !! k = shs !! k.
Proof.
  induction is_ as [|j is_ IH]; intros shs conns shs' conns' k H Hk.
  - cbn in H. now injection H as <- <-.
  - cbn [foldlM] in H.
    destruct (secondPassStep s (shs, conns) j) as [[shs1 conns1]|] eqn:E; [|faulted].
    cbn [mbind option_bind] in H.
    rewrite (IH _ _ _ _ k H); [|destruct Hk as [Hk|Hk]; [left; intros ?; apply Hk; now right | now right]].
    eapply secondPassStep_frame; [exact E|].
    destruct Hk as [Hk|Hk]; [left; intros ->; apply Hk; now left | now right].
Qed.

Lemma foldlM_app {A B} (f : B -> A -> option B) l1 l2 b :
  foldlM f (l1 ++ l2) b = b' ← foldlM f l1 b; foldlM f l2 b'.
Proof.
  revert b. induction l1 as [|x l1 IH]; intros b; cbn [foldlM app]; [reflexivity|].
  destruct (f b x) as [b1|]; cbn [mbind option_bind]; [apply IH | reflexivity].
Qed.

(** Whenever the first loop takes the delta fallback for an arrow bound to a
    shape other than an arrow, the second loop runs into the unchecked
    [anchors[conn.handleIndex]]. *)
Lemma fallback_then_fault (d : DrawingArea) s delta conn moved arrow :
  at_ (shapes d) s = Some moved ->
  isArrow moved = false ->
  In conn (arrowConnections d) ->
  ArrowConnection.shapeIndex conn = s ->
  at_ (shapes d) (ArrowConnection.arrowIndex conn) = Some arrow ->
  isArrow arrow = true ->
  inRange (ArrowConnection.handleIndex conn) (getArrowAnchors moved) = false ->
  updateConnectedArrows s delta d = None.
Proof.
  intros Hm Hkm Hin Hs Ha Hka Hh.
  unfold at_ in Hm, Ha.
  destruct (s <? 0) eqn:Es; [discriminate|].
  destruct (ArrowConnection.arrowIndex conn <? 0) eqn:Ea; [discriminate|].
  pose proof (lookup_lt_Some _ _ _ Hm) as Hsl.
  pose proof (lookup_lt_Some _ _ _ Ha) as Hal.
  unfold updateConnectedArrows.
  destruct ((s <? 0) || (Z.of_nat (length (shapes d)) <=? s)) eqn:E; [blia|].
  unfold at_ at 1. rewrite Es, Hm. cbn [mbind option_bind].
  set (shs1 := firstPass s delta (getArrowAnchors moved) (arrowConnections d) (shapes d)).
  destruct (firstPass_lookup s delta (getArrowAnchors moved) (arrowConnections d)
              _ _ _ Hm) as (moved1 & Hm1 & _ & Hme). fold shs1 in Hm1.
  rewrite (Hme Hkm) in Hm1.
  destruct (firstPass_lookup s delta (getArrowAnchors moved) (arrowConnections d)
              _ _ _ Ha) as (arrow1 & Ha1 & Hka1 & _). fold shs1 in Ha1.
  rewrite Hka in Hka1.
  assert (Hlen : length shs1 = length (shapes d)) by apply length_firstPass.
  set (i := Z.to_nat (ArrowConnection.arrowIndex conn)) in *.
  assert (Hne : i <> Z.to_nat s).
  { intros Heq. rewrite Heq in Ha1. congruence. }
  unfold secondPass. rewrite Hlen.
  replace (length (shapes d)) with (i + S (length (shapes d) - S i))%nat by lia.
  rewrite seq_app. cbn [seq]. rewrite foldlM_app.
  destruct (foldlM (secondPassStep s) (seq 0 i) (shs1, arrowConnections d))
    as [[shs2 conns2]|] eqn:E1; [|reflexivity].
  cbn [mbind option_bind foldlM].
  assert (Hstep : secondPassStep s (shs2, conns2) (0 + i)%nat = None); [|now rewrite Hstep].
  pose proof (secondPass_fold_adopts _ _ _ _ _ _ E1) as [_ Had].
  pose proof (adopts_incl _ _ _ _ Had Hin) as Hin2.
  assert (Hi2 : shs2 !! i = Some arrow1).
  { rewrite <- Ha1. eapply secondPass_prefix_frame; [exact E1|].
    left. rewrite in_seq. lia. }
  assert (Hs2 : shs2 !! Z.to_nat s = Some moved).
  { rewrite <- Hm1. eapply secondPass_prefix_frame; [exact E1|]. right. lia. }
  unfold secondPassStep. cbn [Nat.add]. rewrite Hi2. cbn [mbind option_bind]. rewrite Hka1.
  destruct (Z.of_nat i =? s) eqn:Eis; [exfalso; blia|]. cbn [negb orb].
  unfold at_ at 1. rewrite Es, Hs2. cbn [mbind option_bind].
  rewrite (refresh_faults i s (getArrowAnchors moved) conn conns2 Hin2); [reflexivity | lia | exact Hs |].
  unfold at_, inRange in *. destruct (ArrowConnection.handleIndex conn <? 0) eqn:Eh; [reflexivity|].
  apply lookup_ge_None. blia.
Qed.

Lemma refresh_endpoint i s anchors f P conns : forall arrow sc ec arrow' sc' ec',
  foldlM (refreshStep i s anchors) conns (arrow, sc, ec) = Some (arrow', sc', ec') ->
  (forall c, In c conns -> bindsTo (Z.of_nat i) f s c = true ->
     exists anchor, at_ anchors (ArrowConnection.handleIndex c) = Some anchor /\
                    anchorCenter anchor = P) ->
  endpoint f arrow' =
    if existsb (bindsTo (Z.of_nat i) f s) conns then P else endpoint f arrow.
Proof.
  induction conns as [|c conns IH]; intros arrow sc ec arrow' sc' ec' H Hall.
  - cbn in H. now injection H as <- <- <-.
  - cbn [foldlM] in H.
    destruct (refreshStep i s anchors (arrow, sc, ec) c) as [[[a1 sc1] ec1]|] eqn:E;
      [|faulted].
    cbn [mbind option_bind] in H.
    apply IH in H; [|intros c' Hin; apply Hall; now right].
    rewrite H. cbn [existsb].
    destruct (existsb (bindsTo (Z.of_nat i) f s) conns); [now rewrite orb_true_r|].
    rewrite orb_false_r. revert E. unfold refreshStep.
    destruct (bindsTo (Z.of_nat i) f s c) eqn:Eb.
    + destruct (Hall c (or_introl eq_refl) Eb) as (anchor & Hat & HP).
      unfold bindsTo, binds in Eb. apply andb_true_iff in Eb as [Eb ->].
      apply andb_true_iff in Eb as [-> Ef]. apply Bool.eqb_prop in Ef.
      cbn [andb]. rewrite Hat. cbn [mbind option_bind]. intros [= <- _ _].
      rewrite endpoint_setEndpoint, <- Ef, HP. now destruct (ArrowConnection.isStartPoint c).
    + destruct ((ArrowConnection.arrowIndex c =? Z.of_nat i) &&
                (ArrowConnection.shapeIndex c =? s)) eqn:Ec; [|now intros [= <- _ _]].
      destruct (at_ anchors _) as [anchor|]; [|faulted]. cbn [mbind option_bind].
      intros [= <- _ _]. rewrite endpoint_setEndpoint.
      destruct (Bool.eqb f (ArrowConnection.isStartPoint c)) eqn:Ef; [|reflexivity].
      exfalso. apply Bool.eqb_prop in Ef. subst f.
      unfold bindsTo, binds in Eb. apply andb_true_iff in Ec as [Ec1 Ec2].
      rewrite Ec1, Ec2, Bool.eqb_reflx in Eb. discriminate.
Qed.

Lemma adoptEndpoint_endpoint i s anchors g connected p (arrow : ShapeBase) conns f :
  g <> f \/ connected = true ->
  endpoint f (fst (adoptEndpoint i s anchors g connected p (arrow, conns))) = endpoint f arrow.
Proof.
  intros H. unfold adoptEndpoint. destruct connected; [reflexivity|].
  destruct H as [H|H]; [|discriminate].
  destruct (findAnchorNear p 5 0 anchors) as [[j anchorPos]|]; [|reflexivity].
  cbn [fst]. rewrite endpoint_setEndpoint.
  destruct f, g; try congruence; reflexivity.
Qed.

Lemma adopts_origin s l l' c :
  adopts s l l' -> In c l' ->
  In c l \/ connectionsTo (ArrowConnection.arrowIndex c) (ArrowConnection.isStartPoint c) s l = [].
Proof.
  intros Had Hin. destruct (adopts_added _ _ _ Had) as (added & -> & Hall).
  apply in_app_or in Hin as [Hin|Hin]; [now left|]. right.
  rewrite Forall_forall in Hall. apply Hall. now apply list_elem_of_In.
Qed.

(** The first half of C6 on the code: when the call completes, the endpoint
    that a connection binds to a valid anchor slot of the moved shape sits on
    the centre of that anchor as the shape now computes it, provided the
    connection list names one slot of that shape for this endpoint. *)
Lemma bound_endpoint_on_anchor (d d' : DrawingArea) s delta conn moved arrow anchor :
  updateConnectedArrows s delta d = Some d' ->
  at_ (shapes d) s = Some moved ->
  isArrow moved = false ->
  In conn (arrowConnections d) ->
  ArrowConnection.shapeIndex conn = s ->
  at_ (shapes d) (ArrowConnection.arrowIndex conn) = Some arrow ->
  isArrow arrow = true ->
  at_ (getArrowAnchors moved) (ArrowConnection.handleIndex conn) = Some anchor ->
  (forall c, In c (arrowConnections d) ->
     bindsTo (ArrowConnection.arrowIndex conn) (ArrowConnection.isStartPoint conn) s c = true ->
     ArrowConnection.handleIndex c = ArrowConnection.handleIndex conn) ->
  at_ (shapes d') s = Some moved /\
  exists arrow',
    at_ (shapes d') (ArrowConnection.arrowIndex conn) = Some arrow' /\
    endpoint (ArrowConnection.isStartPoint conn) arrow' = anchorCenter anchor.
Proof.
  intros Hu Hm Hkm Hin Hs Ha Hka Hanchor Huniq.
  unfold at_ in Hm, Ha |- *.
  destruct (s <? 0) eqn:Es; [discriminate|].
  destruct (ArrowConnection.arrowIndex conn <? 0) eqn:Ea; [discriminate|].
  pose proof (lookup_lt_Some _ _ _ Hm) as Hsl.
  pose proof (lookup_lt_Some _ _ _ Ha) as Hal.
  revert Hu. unfold updateConnectedArrows.
  destruct ((s <? 0) || (Z.of_nat (length (shapes d)) <=? s)) eqn:E; [blia|].
  unfold at_ at 1. rewrite Es, Hm. cbn [mbind option_bind].
  set (shs1 := firstPass s delta (getArrowAnchors moved) (arrowConnections d) (shapes d)).
  destruct (firstPass_lookup s delta (getArrowAnchors moved) (arrowConnections d)
              _ _ _ Hm) as (moved1 & Hm1 & _ & Hme). fold shs1 in Hm1.
  rewrite (Hme Hkm) in Hm1.
  destruct (firstPass_lookup s delta (getArrowAnchors moved) (arrowConnections d)
              _ _ _ Ha) as (arrow1 & Ha1 & Hka1 & _). fold shs1 in Ha1.
  rewrite Hka in Hka1.
  assert (Hlen : length shs1 = length (shapes d)) by apply length_firstPass.
  set (i := Z.to_nat (ArrowConnection.arrowIndex conn)) in *.
  set (f := ArrowConnection.isStartPoint conn) in *.
  assert (Hi : ArrowConnection.arrowIndex conn = Z.of_nat i) by (unfold i; blia).
  unfold secondPass. rewrite Hlen.
  replace (length (shapes d)) with (i + S (length (shapes d) - S i))%nat by lia.
  rewrite seq_app. cbn [seq]. rewrite foldlM_app.
  destruct (foldlM (secondPassStep s) (seq 0 i) (shs1, arrowConnections d))
    as [[shs2 conns2]|] eqn:E1; [|faulted].
  cbn [mbind option_bind foldlM Nat.add].
  destruct (secondPassStep s (shs2, conns2) i) as [[shs3 conns3]|] eqn:E2; [|faulted].
  cbn [mbind option_bind].
  destruct (foldlM (secondPassStep s) (seq (S i) _) (shs3, conns3))
    as [[shs4 conns4]|] eqn:E3; [|faulted].
  cbn [mbind option_bind]. intros [= <-]. cbn [shapes set_arrowConnections set_shapes].
  pose proof (secondPass_fold_adopts _ _ _ _ _ _ E1) as [_ Had].
  pose proof (adopts_incl _ _ _ _ Had Hin) as Hin2.
  assert (Hi2 : shs2 !! i = Some arrow1).
  { rewrite <- Ha1. eapply secondPass_prefix_frame; [exact E1|].
    left. rewrite in_seq. lia. }
  assert (Hs2 : shs2 !! Z.to_nat s = Some moved).
  { rewrite <- Hm1. eapply secondPass_prefix_frame; [exact E1|]. right. lia. }
  assert (Hs3 : shs3 !! Z.to_nat s = Some moved).
  { rewrite <- Hs2. eapply secondPassStep_frame; [exact E2|]. right. lia. }
  split.
  { rewrite <- Hs3. eapply secondPass_prefix_frame; [exact E3|]. right. lia. }
  assert (Hi4 : shs4 !! i = shs3 !! i).
  { eapply secondPass_prefix_frame; [exact E3|]. left. rewrite in_seq. lia. }
  rewrite Hi4. clear E3 Hi4.
  revert E2. unfold secondPassStep. rewrite Hi2. cbn [mbind option_bind]. rewrite Hka1.
  destruct (Z.of_nat i =? s) eqn:Eis.
  { exfalso. assert (i = Z.to_nat s) as Heq by blia. rewrite Heq in Hi2. congruence. }
  cbn [negb orb]. unfold at_ at 1. rewrite Es, Hs2. cbn [mbind option_bind].
  destruct (foldlM _ conns2 _) as [[[arrowR sc] ec]|] eqn:Er; [|faulted].
  cbn [mbind option_bind].
  pose proof (refresh_flags _ _ _ _ _ _ _ _ _ _ Er) as [Hsc Hec]. cbn [orb] in Hsc, Hec.
  assert (Hex : existsb (bindsTo (Z.of_nat i) f s) conns2 = true).
  { apply existsb_exists. exists conn. split; [exact Hin2|].
    unfold bindsTo, binds. rewrite Hi, Hs, !Z.eqb_refl. fold f. now rewrite Bool.eqb_reflx. }
  apply (refresh_endpoint i s (getArrowAnchors moved) f (anchorCenter anchor)) in Er.
  2:{ intros c Hc Hb. exists anchor. split; [|reflexivity].
      destruct (adopts_origin _ _ _ _ Had Hc) as [Hc0|Hfresh].
      - rewrite (Huniq c Hc0); [exact Hanchor | now rewrite Hi].
      - exfalso. unfold bindsTo, binds in Hb. apply andb_true_iff in Hb as [Hb _].
        apply andb_true_iff in Hb as [Hb1 Hb2]. apply Z.eqb_eq in Hb1.
        apply Bool.eqb_prop in Hb2. rewrite Hb1, Hb2 in Hfresh.
        unfold connectionsTo in Hfresh.
        assert (In conn (List.filter (bindsTo (Z.of_nat i) f s) (arrowConnections d))) as Hf.
        { apply filter_In. split; [exact Hin|].
          unfold bindsTo, binds. rewrite Hi, Hs, !Z.eqb_refl. fold f.
          now rewrite Bool.eqb_reflx. }
        rewrite Hfresh in Hf. exact Hf. }
  rewrite Hex in Er.
  match goal with
  | |- context [adoptEndpoint i s ?an false ec ?q (adoptEndpoint i s ?an true sc ?p ?st)] =>
      pose proof (adoptEndpoint_endpoint i s an true sc p arrowR conns2 f) as Hstart;
      destruct (adoptEndpoint i s an true sc p st) as [arrowS connsS] eqn:ES;
      pose proof (adoptEndpoint_endpoint i s an false ec q arrowS connsS f) as Hend;
      destruct (adoptEndpoint i s an false ec q (arrowS, connsS)) as [arrowE connsE] eqn:EE
  end.
  cbn [fst] in Hstart, Hend.
  intros [= <- <-]. exists arrowE.
  rewrite list_lookup_insert_eq by (apply lookup_lt_Some in Hi2; exact Hi2).
  split; [reflexivity|].
  rewrite Hend, Hstart, Er; [reflexivity | | ].
  - destruct f; [right | left; discriminate]. now rewrite Hsc.
  - destruct f; [left; discriminate | right]. now rewrite Hec.
Qed.

(** ** Further properties of the code *)


Lemma Handle_type_eqb_eq a b : Handle.type_eqb a b = true <-> a = b.
Proof. destruct a, b; cbn; split; congruence. Qed.




Lemma withLine_same (x : ShapeBase) : withLine (m_line x) x = x.
Proof. now destruct x. Qed.

Lemma reconnected_refl (x : ShapeBase) : reconnected x x.
Proof.
  unfold reconnected. destruct (isArrow x); [|reflexivity].
  exists (m_line x). symmetry. apply withLine_same.
Qed.

Lemma isArrow_reconnected (x x' : ShapeBase) : reconnected x x' -> isArrow x' = isArrow x.
Proof.
  unfold reconnected. destruct (isArrow x) eqn:E.
  - intros [l ->]. exact E.
  - intros ->. exact E.
Qed.

Lemma reconnected_trans (x y z : ShapeBase) :
  reconnected x y -> reconnected y z -> reconnected x z.
Proof.
  intros Hxy Hyz. pose proof (isArrow_reconnected _ _ Hxy) as Hk.
  unfold reconnected in *. rewrite Hk in Hyz. destruct (isArrow x).
  - destruct Hxy as [l ->]. destruct Hyz as [l' ->]. now exists l'.
  - congruence.
Qed.

Lemma reconnected_setEndpoint f p (x : ShapeBase) :
  isArrow x = true -> reconnected x (setEndpoint f p x).
Proof.
  intros Hk. unfold reconnected. rewrite Hk. destruct f; eexists; reflexivity.
Qed.

Lemma firstPassStep_reconnected s delta anchors (shs : list ShapeBase) conn j x :
  shs !! j = Some x ->
  exists x', firstPassStep s delta anchors shs conn !! j = Some x' /\ reconnected x x'.
Proof.
  intros Hj. pose proof (reconnected_refl x) as Hrefl. unfold firstPassStep.
  destruct (ArrowConnection.shapeIndex conn =? s); [|eauto].
  destruct (inRange _ shs); [|eauto].
  destruct (shs !! Z.to_nat (ArrowConnection.arrowIndex conn)) as [arrow|] eqn:Ha; [|eauto].
  destruct (isArrow arrow) eqn:Hk; [|eauto].
  assert (Hgen : forall f : ShapeBase -> ShapeBase,
            (forall y, isArrow y = true -> reconnected y (f y)) ->
            exists x', alter f (Z.to_nat (ArrowConnection.arrowIndex conn)) shs !! j = Some x' /\
                       reconnected x x').
  { intros f Hf.
    destruct (decide (Z.to_nat (ArrowConnection.arrowIndex conn) = j)) as [<-|Hne].
    - rewrite list_lookup_alter_eq, Ha. cbn. rewrite Ha in Hj. injection Hj as <-.
      eexists. split; [reflexivity|]. now apply Hf.
    - rewrite list_lookup_alter_ne by exact Hne. eauto. }
  destruct (inRange _ anchors).
  - destruct (anchors !! _); [|eauto]. apply Hgen. intros y. apply reconnected_setEndpoint.
  - apply Hgen. intros y. apply reconnected_setEndpoint.
Qed.

Lemma firstPass_reconnected s delta anchors conns : forall (shs : list ShapeBase) j x,
  shs !! j = Some x ->
  exists x', firstPass s delta anchors conns shs !! j = Some x' /\ reconnected x x'.
Proof.
  unfold firstPass. induction conns as [|c conns IH]; intros shs j x Hj; cbn [fold_left].
  - exists x. split; [exact Hj | apply reconnected_refl].
  - destruct (firstPassStep_reconnected s delta anchors shs c j x Hj) as (x1 & H1 & R1).
    destruct (IH _ j x1 H1) as (x2 & H2 & R2).
    exists x2. split; [exact H2 | eapply reconnected_trans; eauto].
Qed.

Lemma refresh_reconnected i s anchors conns : forall (arrow : ShapeBase) sc ec arrow' sc' ec',
  isArrow arrow = true ->
  foldlM (refreshStep i s anchors) conns (arrow, sc, ec) = Some (arrow', sc', ec') ->
  reconnected arrow arrow'.
Proof.
  induction conns as [|c conns IH]; intros arrow sc ec arrow' sc' ec' Hk H.
  - cbn in H. injection H as <- <- <-. apply reconnected_refl.
  - cbn [foldlM] in H.
    destruct (refreshStep i s anchors (arrow, sc, ec) c) as [[[a1 sc1] ec1]|] eqn:E;
      [|faulted].
    cbn [mbind option_bind] in H.
    assert (R1 : reconnected arrow a1).
    { revert E. unfold refreshStep. destruct (_ && _).
      - destruct (at_ anchors _); [|faulted]. cbn [mbind option_bind].
        intros [= <- _ _]. now apply reconnected_setEndpoint.
      - intros [= <- _ _]. apply reconnected_refl. }
    eapply reconnected_trans; [exact R1|].
    eapply IH; [|exact H]. now rewrite (isArrow_reconnected _ _ R1).
Qed.

Lemma adoptEndpoint_reconnected i s anchors f connected p (arrow : ShapeBase) conns :
  isArrow arrow = true ->
  reconnected arrow (fst (adoptEndpoint i s anchors f connected p (arrow, conns))).
Proof.
  intros Hk. unfold adoptEndpoint. destruct connected; [apply reconnected_refl|].
  destruct (findAnchorNear p 5 0 anchors) as [[j anchorPos]|]; [|apply reconnected_refl].
  cbn [fst]. now apply reconnected_setEndpoint.
Qed.

Lemma secondPassStep_reconnected s (shs : list ShapeBase) conns i shs' conns' j x :
  secondPassStep s (shs, conns) i = Some (shs', conns') ->
  shs !! j = Some x ->
  exists x', shs' !! j = Some x' /\ reconnected x x'.
Proof.
  intros H Hj. revert H. unfold secondPassStep.
  destruct (shs !! i) as [sh|] eqn:Hi; [|faulted]. cbn [mbind option_bind].
  destruct (negb (isArrow sh) || (Z.of_nat i =? s)) eqn:E.
  { intros [= <- <-]. exists x. split; [exact Hj | apply reconnected_refl]. }
  apply orb_false_iff in E as [Ek _]. apply negb_false_iff in Ek.
  destruct (at_ shs s) as [moved|]; [|faulted]. cbn [mbind option_bind].
  destruct (foldlM _ conns _) as [[[arrow sc] ec]|] eqn:Hf; [|faulted].
  cbn [mbind option_bind].
  pose proof (refresh_reconnected _ _ _ _ _ _ _ _ _ _ Ek Hf) as R1.
  pose proof (adoptEndpoint_reconnected i s (getArrowAnchors moved) true sc
                (p1 (getLine sh)) arrow conns) as R2.
  destruct (adoptEndpoint i s (getArrowAnchors moved) true sc _ (arrow, conns))
    as [arrow1 conns1]. cbn [fst] in R2.
  pose proof (adoptEndpoint_reconnected i s (getArrowAnchors moved) false ec
                (p2 (getLine sh)) arrow1 conns1) as R3.
  destruct (adoptEndpoint i s (getArrowAnchors moved) false ec _ (arrow1, conns1))
    as [arrow2 conns2]. cbn [fst] in R3.
  intros [= <- <-].
  destruct (decide (i = j)) as [->|Hne].
  - rewrite list_lookup_insert_eq by (now apply lookup_lt_Some in Hj).
    rewrite Hi in Hj. injection Hj as <-.
    eexists. split; [reflexivity|].
    assert (K1 : isArrow arrow = true) by now rewrite (isArrow_reconnected _ _ R1).
    specialize (R2 K1).
    assert (K2 : isArrow arrow1 = true) by now rewrite (isArrow_reconnected _ _ R2).
    eapply reconnected_trans; [exact R1|]. eapply reconnected_trans; [exact R2|]. now apply R3.
  - rewrite list_lookup_insert_ne by exact Hne. exists x.
    split; [exact Hj | apply reconnected_refl].
Qed.

Lemma secondPass_fold_reconnected s is_ : forall (shs : list ShapeBase) conns shs' conns' j x,
  foldlM (secondPassStep s) is_ (shs, conns) = Some (shs', conns') ->
  shs !! j = Some x ->
  exists x', shs' !! j = Some x' /\ reconnected x x'.
Proof.
  induction is_ as [|i is_ IH]; intros shs conns shs' conns' j x H Hj.
  - cbn in H. injection H as <- <-. exists x. split; [exact Hj | apply reconnected_refl].
  - cbn [foldlM] in H.
    destruct (secondPassStep s (shs, conns) i) as [[shs1 conns1]|] eqn:E; [|faulted].
    cbn [mbind option_bind] in H.
    destruct (secondPassStep_reconnected _ _ _ _ _ _ _ _ E Hj) as (x1 & H1 & R1).
    destruct (IH _ _ _ _ _ _ H H1) as (x2 & H2 & R2).
    exists x2. split; [exact H2 | eapply reconnected_trans; eauto].
Qed.

(** The state that a completed connection update returns: the canvas with
    another shape list and another connection list. *)
Lemma updateConnectedArrows_frame s delta (d d' : DrawingArea) :
  updateConnectedArrows s delta d = Some d' ->
  exists shs conns,
    d' = set_arrowConnections conns (set_shapes shs d) /\
    length shs = length (shapes d) /\
    adopts s (arrowConnections d) conns /\
    forall j x, shapes d !! j = Some x -> exists x', shs !! j = Some x' /\ reconnected x x'.
Proof.
  unfold updateConnectedArrows.
  destruct ((s <? 0) || (Z.of_nat (length (shapes d)) <=? s)).
  { intros [= <-]. exists (shapes d), (arrowConnections d).
    split; [now destruct d|]. split; [reflexivity|]. split; [constructor|].
    intros j x Hj. exists x. split; [exact Hj | apply reconnected_refl]. }
  destruct (at_ (shapes d) s) as [moved|]; [|faulted]. cbn [mbind option_bind].
  unfold secondPass.
  destruct (foldlM _ _ _) as [[shs conns]|] eqn:E; [|faulted].
  cbn [mbind option_bind]. intros [= <-]. exists shs, conns.
  split; [reflexivity|].
  pose proof (secondPass_fold_adopts _ _ _ _ _ _ E) as [Hlen Had].
  rewrite length_firstPass in Hlen. split; [exact Hlen|]. split; [exact Had|].
  intros j x Hj.
  destruct (firstPass_reconnected s delta (getArrowAnchors moved) (arrowConnections d)
              _ _ _ Hj) as (x1 & H1 & R1).
  destruct (secondPass_fold_reconnected _ _ _ _ _ _ _ _ E H1) as (x2 & H2 & R2).
  exists x2. split; [exact H2 | eapply reconnected_trans; eauto].
Qed.

(** X2. A connection update that completes only rewrites endpoints of
    arrows and appends connections: the shape list keeps its length, every
    shape other than an arrow is untouched, an arrow keeps everything but its
    two endpoints, the old connection list is a prefix of the new one, and
    the selection and both history stacks are the ones before the call. *)
Theorem updateConnectedArrows_touches_only_arrows (s : Z) (delta : QPoint)
  (d d' : DrawingArea) :
  updateConnectedArrows s delta d = Some d' ->
  length (shapes d') = length (shapes d) /\
  (forall j x, shapes d !! j = Some x ->
     exists x', shapes d' !! j = Some x' /\ reconnected x x') /\
  (exists added, arrowConnections d' = arrowConnections d ++ added) /\
  selectedIndex d' = selectedIndex d /\
  m_undoStack d' = m_undoStack d /\
  m_redoStack d' = m_redoStack d /\
  m_ignoreHistoryActions d' = m_ignoreHistoryActions d.
Proof.
  intros H. apply updateConnectedArrows_frame in H as (shs & conns & -> & Hlen & Had & Hsh).
  cbn. split; [exact Hlen|]. split; [exact Hsh|]. split; [|auto].
  destruct (adopts_added _ _ _ Had) as (added & -> & _). eauto.
Qed.

Lemma hitTest_spec docPos (shs : list ShapeBase) :
  match hitTest docPos (length shs) (rev shs) with
  | Some i =>
      (exists s, shs !! i = Some s /\ contains s docPos = true) /\
      (forall j s', (i < j)%nat -> shs !! j = Some s' -> contains s' docPos = false)
  | None => forall j s', shs !! j = Some s' -> contains s' docPos = false
  end.
Proof.
  induction shs as [|x shs IH] using rev_ind.
  - cbn. intros j s' H. rewrite lookup_nil in H. discriminate.
  - rewrite rev_app_distr, length_app. cbn [rev app length]. rewrite Nat.add_1_r.
    cbn [hitTest].
    assert (Hlast : forall j s', (shs ++ [x]) !! j = Some s' -> ~ (j < length shs)%nat ->
                                 s' = x).
    { intros j s' Hj Hn. rewrite lookup_app_r in Hj by lia.
      destruct (j - length shs)%nat; cbn in Hj; [now injection Hj | discriminate]. }
    destruct (contains x docPos) eqn:Hc.
    + split.
      * exists x. rewrite lookup_app_r by lia. now rewrite Nat.sub_diag.
      * intros j s' Hlt Hj. apply lookup_lt_Some in Hj. rewrite length_app in Hj.
        cbn in Hj. lia.
    + destruct (hitTest docPos (length shs) (rev shs)) as [i|].
      * destruct IH as [(s & Hs & Hcs) Hab]. split.
        -- exists s. split; [|exact Hcs]. rewrite lookup_app_l; [exact Hs|].
           now apply lookup_lt_Some in Hs.
        -- intros j s' Hlt Hj. destruct (decide (j < length shs)%nat) as [Hl|Hl].
           ++ rewrite lookup_app_l in Hj by lia. eauto.
           ++ now rewrite (Hlast _ _ Hj Hl).
      * intros j s' Hj. destruct (decide (j < length shs)%nat) as [Hl|Hl].
        -- rewrite lookup_app_l in Hj by lia. eauto.
        -- now rewrite (Hlast _ _ Hj Hl).
Qed.

(** X3. A press while nothing is selected never fails and changes neither
    the shapes, the connections nor the history.  It selects the topmost
    shape under the pointer, the one with the greatest index among the shapes
    that contain the point, and starts a drag there, with the press position
    as the start of the move; when no shape contains the point the selection
    stays empty and no drag starts. *)
Theorem press_selects_topmost (docPos : QPoint) (d : DrawingArea) :
  selectedIndex d = -1 ->
  exists d',
    mousePressEvent docPos d = Some d' /\
    shapes d' = shapes d /\
    arrowConnections d' = arrowConnections d /\
    m_undoStack d' = m_undoStack d /\
    m_redoStack d' = m_redoStack d /\
    ((exists i s,
        selectedIndex d' = Z.of_nat i /\
        shapes d !! i = Some s /\ contains s docPos = true /\
        (forall j s', (i < j)%nat -> shapes d !! j = Some s' -> contains s' docPos = false) /\
        dragging d' = true /\ lastMousePos d' = docPos /\ m_moveStartPos d' = docPos)
     \/
     (selectedIndex d' = -1 /\ dragging d' = dragging d /\
      forall j s', shapes d !! j = Some s' -> contains s' docPos = false)).
Proof.
  intros Hsel. unfold mousePressEvent. rewrite Hsel. cbn [Z.eqb negb].
  eexists. split; [reflexivity|]. unfold selectAt.
  pose proof (hitTest_spec docPos (shapes d)) as H.
  destruct (hitTest docPos (length (shapes d)) (rev (shapes d))) as [i|].
  - destruct H as [(s & Hs & Hc) Hab]. cbn.
    repeat (split; [reflexivity|]). left. exists i, s. repeat split; auto.
  - cbn. repeat (split; [reflexivity|]). right. repeat split; auto.
Qed.

Lemma rotate_handle_position (s : ShapeBase) (k : nat) (h : Handle.t) :
  isArrow s = false -> getHandles s !! k = Some h ->
  Handle.type h = Handle.Rotate -> k = 8%nat.
Proof.
  intros Hs. unfold getHandles, ShapeBase_getHandles, scaleHandles, rotateHandle, plusHandles.
  rewrite Hs.
  destruct (angle_nonzero (m_rotation s)), (needPlusHandles s);
    do 14 (destruct k as [|k];
           [cbn [lookup list_lookup app]; intros [= <-]; cbn [Handle.type handleAt];
            first [discriminate | reflexivity]|]);
    cbn [lookup list_lookup app]; try discriminate.
Qed.

Lemma isEmpty_false (r : QRect) :
  Rect.isEmpty r = false <-> 1 <= Rect.width r /\ 1 <= Rect.height r.
Proof.
  unfold Rect.isEmpty, Rect.width, Rect.height. rewrite orb_false_iff, !Z.ltb_ge. lia.
Qed.

(** X4. What a handle drag does to a shape other than an arrow, whatever
    the selected handle index is, the rotate handle (position 8) apart: it
    changes at most the rectangle; the result is the shape as it was or has a
    rectangle of width and height at least 1, so a shape with a proper
    rectangle keeps one; and when the call reports [false] the shape is
    unchanged.  A drag on a plus handle, or with an index that names no
    handle, changes nothing. *)
Theorem resize_keeps_rectangle_proper (s : ShapeBase) (mousePos lastMousePos : QPoint) :
  isArrow s = false ->
  m_selectedHandleIndex s <> 8 ->
  let r := handleAnchorInteraction s mousePos lastMousePos in
  snd r = set_m_rect (m_rect (snd r)) s /\
  (snd r = s \/ 1 <= Rect.width (m_rect (snd r)) /\ 1 <= Rect.height (m_rect (snd r))) /\
  (fst r = false -> snd r = s) /\
  (~ 0 <= m_selectedHandleIndex s <= 7 -> r = (false, s)).
Proof.
  intros Hs H8. unfold handleAnchorInteraction.
  assert (Hsame : s = set_m_rect (m_rect s) s) by (symmetry; apply set_m_rect_same).
  destruct (m_selectedHandleIndex s =? -1) eqn:E1; [cbn; auto|].
  destruct ((m_selectedHandleIndex s <? 0) ||
            (Z.of_nat (length (getHandles s)) <=? m_selectedHandleIndex s)) eqn:E2;
    [cbn; auto|].
  destruct (getHandles s !! Z.to_nat (m_selectedHandleIndex s)) as [h|] eqn:Hh; [|cbn; auto].
  destruct (Handle.type_eqb (Handle.type h) Handle.Rotate) eqn:Ety.
  { exfalso. apply H8. apply Handle_type_eqb_eq in Ety.
    pose proof (rotate_handle_position s _ h Hs Hh Ety). blia. }
  destruct (decide (0 <= m_selectedHandleIndex s <= 7)) as [Hk|Hk].
  - rewrite (calculateNewRect_scale s mousePos lastMousePos Hs Hk). cbv zeta.
    set (cand := draggedRect _ _ _).
    destruct ((Rect.width cand <? 1) || (Rect.height cand <? 1)) eqn:Ec.
    + destruct (Rect.isEmpty (m_rect s)); cbn [fst snd]; [tauto|].
      unfold resize, setRect. rewrite Hs, set_m_rect_same. tauto.
    + assert (Rect.isEmpty cand = false) as ->.
      { apply isEmpty_false. blia. }
      cbn [fst snd]. unfold resize, setRect. rewrite Hs.
      split; [reflexivity|]. split; [|split; [discriminate|tauto]].
      right. cbn. blia.
  - assert (calculateNewRect s mousePos lastMousePos = Rect.null) as ->.
    { unfold calculateNewRect.
      destruct (m_selectedHandleIndex s) as [|p|p]; [lia| |reflexivity].
      do 3 (destruct p as [p|p|]; try reflexivity; try lia). }
    cbn. auto.
Qed.

Lemma insertAt_erase {A} (l : list A) (i : nat) (x : A) :
  l !! i = Some x -> insertAt i x (erase i l) = l.
Proof.
  unfold insertAt, erase. revert i. induction l as [|a l IH]; intros [|i] H; cbn in *;
    try discriminate.
  - now injection H as ->.
  - f_equal. now apply IH.
Qed.

Lemma filter_split_Permutation {A} (p : A -> bool) (l : list A) :
  Permutation (List.filter (fun x => negb (p x)) l ++ List.filter p l) l.
Proof.
  induction l as [|a l IH]; cbn; [constructor|].
  destruct (p a); cbn.
  - rewrite <- Permutation_middle. now constructor.
  - now constructor.
Qed.

Lemma recordRemoveShape_frame (i : Z) (d : DrawingArea) :
  shapes (recordRemoveShape i d) = shapes d /\
  arrowConnections (recordRemoveShape i d) = arrowConnections d /\
  selectedIndex (recordRemoveShape i d) = selectedIndex d /\
  m_ignoreHistoryActions (recordRemoveShape i d) = m_ignoreHistoryActions d.
Proof.
  unfold recordRemoveShape.
  destruct (_ || _); [auto|]. destruct (shapes d !! Z.to_nat i); cbn; auto.
Qed.

Lemma recordRemoveShape_done (d : DrawingArea) (s : ShapeBase) :
  m_ignoreHistoryActions d = false ->
  inRange (selectedIndex d) (shapes d) = true ->
  shapes d !! Z.to_nat (selectedIndex d) = Some s ->
  recordRemoveShape (selectedIndex d) d =
    set_redoStack []
      (set_undoStack
         (set_connections
            (List.filter (fun conn => ArrowConnection.shapeIndex conn =? selectedIndex d)
                         (arrowConnections d))
            (set_shape (Some s) (HistoryAction_new Remove (selectedIndex d)))
          :: m_undoStack d) d).
Proof.
  intros Hi Hr Hs. unfold recordRemoveShape. rewrite Hi. cbn [orb].
  unfold inRange in Hr.
  destruct ((selectedIndex d <? 0) || (Z.of_nat (length (shapes d)) <=? selectedIndex d)) eqn:E;
    [blia|].
  rewrite Hs. reflexivity.
Qed.

Lemma inRange_lookup {A} (i : Z) (v : list A) :
  inRange i v = true -> exists x, v !! Z.to_nat i = Some x /\ at_ v i = Some x.
Proof.
  intros H. unfold inRange in H. unfold at_.
  destruct (i <? 0) eqn:E; [blia|].
  destruct (lookup_lt_is_Some_2 v (Z.to_nat i)) as [x Hx]; [blia|]. eauto.
Qed.

Lemma undo_unfold (d : DrawingArea) (a : HistoryAction) (rest : list HistoryAction) :
  m_undoStack d = a :: rest ->
  undo d = (d' ← undoAction a (set_undoStack rest (set_ignoreHistoryActions true d));
            Some (set_ignoreHistoryActions false d')).
Proof. intros Hu. unfold undo. rewrite Hu. reflexivity. Qed.

Lemma redo_unfold (d : DrawingArea) (a : HistoryAction) (rest : list HistoryAction) :
  m_redoStack d = a :: rest ->
  redo d = (d' ← redoAction a (set_redoStack rest (set_ignoreHistoryActions true d));
            Some (set_ignoreHistoryActions false d')).
Proof. intros Hu. unfold redo. rewrite Hu. reflexivity. Qed.

Lemma insertClamped_fields (index : Z) (s : ShapeBase) (d : DrawingArea) :
  0 <= index ->
  let k := Z.min index (Z.of_nat (length (shapes d))) in
  exists d',
    insertClamped index s d = Some d' /\
    shapes d' = insertAt (Z.to_nat k) s (shapes d) /\
    arrowConnections d' = arrowConnections d /\
    selectedIndex d' = (if k <=? selectedIndex d then selectedIndex d + 1 else selectedIndex d) /\
    m_undoStack d' = m_undoStack d /\
    m_redoStack d' = m_redoStack d /\
    m_ignoreHistoryActions d' = m_ignoreHistoryActions d.
Proof.
  intros H0 k. unfold insertClamped. fold k.
  destruct (k <? 0) eqn:E; [subst k; blia|].
  eexists. split; [reflexivity|]. unfold selectionAfterInsert.
  cbn [selectedIndex set_shapes].
  destruct (k <=? selectedIndex d); cbn; auto 10.
Qed.

Lemma undoAction_Remove (d : DrawingArea) (a : HistoryAction) (s : ShapeBase) :
  type a = Remove -> shape a = Some s -> 0 <= shapeIndex a ->
  let k := Z.min (shapeIndex a) (Z.of_nat (length (shapes d))) in
  exists d',
    undoAction a d = Some d' /\
    shapes d' = insertAt (Z.to_nat k) s (shapes d) /\
    arrowConnections d' = arrowConnections d ++ connections a /\
    selectedIndex d' = (if k <=? selectedIndex d then selectedIndex d + 1 else selectedIndex d) /\
    m_undoStack d' = m_undoStack d /\
    m_redoStack d' =
      set_connections (connections a)
        (set_shape (Some s) (HistoryAction_new Remove (shapeIndex a))) :: m_redoStack d /\
    m_ignoreHistoryActions d' = m_ignoreHistoryActions d.
Proof.
  intros Ht Hs H0 k. unfold undoAction. rewrite Ht, Hs.
  destruct (insertClamped_fields (shapeIndex a) s
              (set_arrowConnections (arrowConnections (pushRedo
                 (set_connections (connections a)
                    (set_shape (Some (clone s)) (HistoryAction_new Remove (shapeIndex a)))) d)
                 ++ connections a)
                 (pushRedo
                    (set_connections (connections a)
                       (set_shape (Some (clone s)) (HistoryAction_new Remove (shapeIndex a))))
                    d)) H0)
    as (d' & -> & H1 & H2 & H3 & H4 & H5 & H6).
  exists d'. split; [reflexivity|]. cbn in H1, H2, H3, H4, H5, H6. auto 10.
Qed.

Lemma selectionAfterErase_fields (index : Z) (d : DrawingArea) :
  shapes (selectionAfterErase index d) = shapes d /\
  arrowConnections (selectionAfterErase index d) = arrowConnections d /\
  selectedIndex (selectionAfterErase index d) =
    (if selectedIndex d =? index then -1
     else if index <? selectedIndex d then selectedIndex d - 1 else selectedIndex d) /\
  m_undoStack (selectionAfterErase index d) = m_undoStack d /\
  m_redoStack (selectionAfterErase index d) = m_redoStack d /\
  m_ignoreHistoryActions (selectionAfterErase index d) = m_ignoreHistoryActions d.
Proof.
  unfold selectionAfterErase.
  destruct (selectedIndex d =? index); [cbn; auto 10|].
  destruct (index <? selectedIndex d); cbn; auto 10.
Qed.

Lemma redoAction_Remove (d : DrawingArea) (a : HistoryAction) :
  type a = Remove -> inRange (shapeIndex a) (shapes d) = true ->
  exists d',
    redoAction a d = Some d' /\
    shapes d' = erase (Z.to_nat (shapeIndex a)) (shapes d) /\
    arrowConnections d' = arrowConnections d /\
    selectedIndex d' =
      (if selectedIndex d =? shapeIndex a then -1
       else if shapeIndex a <? selectedIndex d then selectedIndex d - 1 else selectedIndex d) /\
    m_undoStack d' = a :: m_undoStack d /\
    m_redoStack d' = m_redoStack d /\
    m_ignoreHistoryActions d' = m_ignoreHistoryActions d.
Proof.
  intros Ht Hr. unfold redoAction. rewrite Ht.
  cbn [shapes pushUndo set_undoStack]. rewrite Hr.
  eexists. split; [reflexivity|].
  match goal with
  | |- context [selectionAfterErase ?i ?x] =>
      destruct (selectionAfterErase_fields i x) as (-> & -> & -> & -> & -> & ->)
  end.
  cbn. auto 10.
Qed.

Lemma deleteSelectedShape_fields (d : DrawingArea) (s : ShapeBase) :
  m_ignoreHistoryActions d = false ->
  inRange (selectedIndex d) (shapes d) = true ->
  shapes d !! Z.to_nat (selectedIndex d) = Some s ->
  shapes (deleteSelectedShape d) = erase (Z.to_nat (selectedIndex d)) (shapes d) /\
  arrowConnections (deleteSelectedShape d) =
    remove_if (touches (selectedIndex d)) (arrowConnections d) /\
  selectedIndex (deleteSelectedShape d) = -1 /\
  m_undoStack (deleteSelectedShape d) =
    set_connections
      (List.filter (fun c => ArrowConnection.shapeIndex c =? selectedIndex d)
                   (arrowConnections d))
      (set_shape (Some s) (HistoryAction_new Remove (selectedIndex d))) :: m_undoStack d /\
  m_redoStack (deleteSelectedShape d) = [] /\
  m_ignoreHistoryActions (deleteSelectedShape d) = false.
Proof.
  intros Hi Hr Hs.
  assert (Hne : (selectedIndex d =? -1) = false) by (unfold inRange in Hr; blia).
  unfold deleteSelectedShape. rewrite Hne, Hr. cbn [negb andb].
  rewrite (recordRemoveShape_done d s Hi Hr Hs). cbn. rewrite Hi. auto 10.
Qed.

(** X5. Deleting the selected shape and undoing the deletion, on a canvas
    that records history: both steps complete, the shape list is the one
    before the deletion, the undo stack too, and nothing is selected.  The
    connection list is the survivors of the deletion followed by the stashed
    connections, those whose [shapeIndex] was the deleted position; it is a
    permutation of the original list when every connection that bound the
    deleted shape as an arrow also named it as its shape.  A redo after that
    removes the shape again, restores the undo stack of the deletion and
    leaves the connection list as the undo made it. *)
Theorem delete_undo_restores_shapes (d : DrawingArea) :
  m_ignoreHistoryActions d = false ->
  inRange (selectedIndex d) (shapes d) = true ->
  let sel := selectedIndex d in
  let kept := remove_if (touches sel) (arrowConnections d) in
  let stash := List.filter (fun c => ArrowConnection.shapeIndex c =? sel) (arrowConnections d) in
  exists d1,
    undo (deleteSelectedShape d) = Some d1 /\
    shapes d1 = shapes d /\
    arrowConnections d1 = kept ++ stash /\
    m_undoStack d1 = m_undoStack d /\
    selectedIndex d1 = -1 /\
    ((forall c, In c (arrowConnections d) ->
        ArrowConnection.arrowIndex c = sel -> ArrowConnection.shapeIndex c = sel) ->
     Permutation (arrowConnections d1) (arrowConnections d)) /\
    exists d2,
      redo d1 = Some d2 /\
      shapes d2 = erase (Z.to_nat sel) (shapes d) /\
      arrowConnections d2 = kept ++ stash /\
      m_undoStack d2 = m_undoStack (deleteSelectedShape d) /\
      m_redoStack d2 = [].
Proof.
  intros Hi Hr sel kept stash.
  destruct (inRange_lookup _ _ Hr) as (s & Hs & _).
  destruct (deleteSelectedShape_fields d s Hi Hr Hs) as (Dsh & Dco & Dse & Dun & Dre & Dig).
  fold sel in Dsh, Dco, Dun. fold kept in Dco. fold stash in Dun.
  set (d0 := deleteSelectedShape d) in *.
  assert (Hsel0 : 0 <= sel) by (unfold inRange in Hr; subst sel; blia).
  assert (Hlt : (Z.to_nat sel < length (shapes d))%nat) by now apply lookup_lt_Some in Hs.
  rewrite (undo_unfold d0 _ _ Dun).
  destruct (undoAction_Remove (set_undoStack (m_undoStack d) (set_ignoreHistoryActions true d0))
              (set_connections stash (set_shape (Some s) (HistoryAction_new Remove sel))) s
              eq_refl eq_refl Hsel0)
    as (d1 & -> & U1 & U2 & U3 & U4 & U5 & U6).
  cbn [mbind option_bind]. eexists. split; [reflexivity|].
  cbn [shapes arrowConnections selectedIndex m_undoStack m_redoStack m_ignoreHistoryActions
       set_undoStack set_ignoreHistoryActions shapeIndex connections set_connections
       set_shape HistoryAction_new] in U1, U2, U3, U4, U5.
  rewrite Dsh in U1. rewrite Dco in U2. rewrite Dse, Dsh in U3. rewrite Dre in U5.
  assert (Hlen : length (erase (Z.to_nat sel) (shapes d)) = (length (shapes d) - 1)%nat).
  { unfold erase. rewrite length_delete by eauto. reflexivity. }
  rewrite Hlen in U1, U3.
  replace (Z.min sel (Z.of_nat (length (shapes d) - 1))) with sel in U1, U3 by lia.
  rewrite (insertAt_erase _ _ _ Hs
           : insertAt (Z.to_nat sel) s (erase (Z.to_nat sel) (shapes d)) = _) in U1.
  destruct (sel <=? -1) eqn:E1; [blia|].
  cbn [shapes arrowConnections selectedIndex m_undoStack m_redoStack set_ignoreHistoryActions].
  split; [exact U1|]. split; [exact U2|]. split; [exact U4|]. split; [exact U3|].
  split.
  - intros Hbound. rewrite U2. subst kept stash. unfold remove_if.
    rewrite (List.filter_ext_in (fun x => negb (touches sel x))
               (fun x => negb (ArrowConnection.shapeIndex x =? sel))).
    + apply filter_split_Permutation.
    + intros c Hc. f_equal. unfold touches.
      destruct (ArrowConnection.arrowIndex c =? sel) eqn:Ea; [|reflexivity].
      apply Z.eqb_eq in Ea. rewrite (Hbound c Hc Ea), Z.eqb_refl. reflexivity.
  - rewrite (redo_unfold (set_ignoreHistoryActions false d1) _ _ U5).
    destruct (redoAction_Remove
                (set_redoStack [] (set_ignoreHistoryActions true
                                     (set_ignoreHistoryActions false d1)))
                (set_connections stash (set_shape (Some s) (HistoryAction_new Remove sel)))
                eq_refl)
      as (d2 & -> & R1 & R2 & R3 & R4 & R5 & R6).
    { cbn [shapes set_redoStack set_ignoreHistoryActions shapeIndex set_connections set_shape
           HistoryAction_new]. rewrite U1. exact Hr. }
    cbn [mbind option_bind]. eexists. split; [reflexivity|].
    cbn [shapes arrowConnections selectedIndex m_undoStack m_redoStack m_ignoreHistoryActions
         set_redoStack set_ignoreHistoryActions shapeIndex connections set_connections
         set_shape HistoryAction_new] in R1, R2, R4, R5.
    cbn [shapes arrowConnections selectedIndex m_undoStack m_redoStack
         set_ignoreHistoryActions].
    rewrite U1 in R1. rewrite U2 in R2. rewrite U4 in R4.
    split; [exact R1|]. split; [exact R2|]. split; [|exact R5].
    rewrite R4, Dun. reflexivity.
Qed.

Lemma keyDelete_spec (d : DrawingArea) :
  keyDelete d =
    if inRange (selectedIndex d) (shapes d) then Some (deleteSelectedShape d) else None.
Proof.
  destruct (recordRemoveShape_frame (selectedIndex d) d) as (Hsh & Hco & Hse & _).
  unfold keyDelete. cbn [selectedIndex set_arrowConnections shapes]. rewrite Hse, Hsh.
  destruct (inRange (selectedIndex d) (shapes d)) eqn:Hr; [|reflexivity].
  assert (Hne : (selectedIndex d =? -1) = false) by (unfold inRange in Hr; blia).
  unfold deleteSelectedShape. rewrite Hne, Hr.
  cbn [negb andb selectedIndex set_arrowConnections shapes arrowConnections].
  rewrite Hse, Hsh.
  assert (Hf : forall l,
            remove_if (fun conn =>
                         (ArrowConnection.shapeIndex conn =? selectedIndex d) ||
                         (ArrowConnection.arrowIndex conn =? selectedIndex d)) l =
            remove_if (touches (selectedIndex d)) l).
  { intros l. unfold remove_if. apply List.filter_ext.
    intros c. unfold touches. f_equal. apply orb_comm. }
  rewrite Hf. reflexivity.
Qed.

(** X6. The Delete and Backspace keys: with nothing selected the key does
    nothing; with a selected position of the shape list it does exactly what
    [deleteSelectedShape] does; with any other selection the handler runs
    into the erase outside the list, where [deleteSelectedShape] does
    nothing. *)
Theorem keyPressEvent_delete (event : QKeyEvent) (d : DrawingArea) :
  key event = Key_Delete \/ key event = Key_Backspace ->
  (selectedIndex d = -1 -> keyPressEvent event d = Some d) /\
  (inRange (selectedIndex d) (shapes d) = true ->
     keyPressEvent event d = Some (deleteSelectedShape d)) /\
  (selectedIndex d <> -1 -> inRange (selectedIndex d) (shapes d) = false ->
     keyPressEvent event d = None /\ deleteSelectedShape d = d).
Proof.
  intros Hkey.
  assert (Hkp : keyPressEvent event d =
                if negb (selectedIndex d =? -1) then keyDelete d else Some d).
  { unfold keyPressEvent.
    destruct Hkey as [-> | ->]; destruct (controlModifier event);
      now rewrite andb_true_r. }
  rewrite Hkp, keyDelete_spec. clear Hkp.
  split; [|split].
  - intros ->. reflexivity.
  - intros Hr.
    assert (Hne : (selectedIndex d =? -1) = false) by (unfold inRange in Hr; blia).
    now rewrite Hne, Hr.
  - intros Hne Hr. apply Z.eqb_neq in Hne. rewrite Hne, Hr. split; [reflexivity|].
    unfold deleteSelectedShape. rewrite Hr, andb_false_r. reflexivity.
Qed.

Lemma alter_twice_same (l : list ShapeBase) (i : nat) (s : ShapeBase) f g :
  l !! i = Some s -> g (f s) = s -> alter g i (alter f i l) = l.
Proof.
  intros Hs Hgf. apply list_eq. intros j. destruct (decide (j = i)) as [->|Hne].
  - rewrite !list_lookup_alter_eq, Hs. cbn. now rewrite Hgf.
  - now rewrite !list_lookup_alter_ne by auto.
Qed.

Lemma alter_agree (l : list ShapeBase) (i : nat) (s : ShapeBase) f g :
  l !! i = Some s -> f s = g s -> alter f i l = alter g i l.
Proof.
  intros Hs Hfg. apply list_eq. intros j. destruct (decide (j = i)) as [->|Hne].
  - rewrite !list_lookup_alter_eq, Hs. cbn. now rewrite Hfg.
  - now rewrite !list_lookup_alter_ne by auto.
Qed.

Lemma inRange_alter (i : Z) (j : nat) f (l : list ShapeBase) :
  inRange i (alter f j l) = inRange i l.
Proof. unfold inRange. now rewrite length_alter. Qed.

(** The shape edit that an undo or a redo of a [Resize] or [Property] action
    applies. *)
Lemma undo_edit_step (d : DrawingArea) (a : HistoryAction) (rest : list HistoryAction) :
  m_undoStack d = a :: rest ->
  type a = Resize \/ type a = Property ->
  inRange (shapeIndex a) (shapes d) = true ->
  exists d',
    undo d = Some d' /\
    shapes d' =
      alter (match type a with
             | Resize => setRect (oldRect a)
             | _ => fun s => setLineWidth (oldLineWidth a) (setLineColor (oldLineColor a) s)
             end) (Z.to_nat (shapeIndex a)) (shapes d) /\
    arrowConnections d' = arrowConnections d /\
    selectedIndex d' = selectedIndex d /\
    m_undoStack d' = rest /\
    m_redoStack d' = a :: m_redoStack d /\
    m_ignoreHistoryActions d' = false.
Proof.
  intros Hu Ht Hr. unfold undo. rewrite Hu. unfold undoAction.
  cbn [shapes set_undoStack set_ignoreHistoryActions]. rewrite Hr.
  destruct Ht as [-> | ->]; cbn [mbind option_bind]; eexists; (split; [reflexivity|]);
    cbn; auto 10.
Qed.

Lemma redo_edit_step (d : DrawingArea) (a : HistoryAction) (rest : list HistoryAction) :
  m_redoStack d = a :: rest ->
  type a = Resize \/ type a = Property ->
  inRange (shapeIndex a) (shapes d) = true ->
  exists d',
    redo d = Some d' /\
    shapes d' =
      alter (match type a with
             | Resize => setRect (newRect a)
             | _ => fun s => setLineWidth (newLineWidth a) (setLineColor (newLineColor a) s)
             end) (Z.to_nat (shapeIndex a)) (shapes d) /\
    arrowConnections d' = arrowConnections d /\
    selectedIndex d' = selectedIndex d /\
    m_undoStack d' = a :: m_undoStack d /\
    m_redoStack d' = rest /\
    m_ignoreHistoryActions d' = false.
Proof.
  intros Hu Ht Hr. unfold redo. rewrite Hu. unfold redoAction.
  cbn [shapes set_redoStack set_ignoreHistoryActions]. rewrite Hr.
  destruct Ht as [-> | ->]; cbn [mbind option_bind]; eexists; (split; [reflexivity|]);
    cbn; auto 10.
Qed.

(** A recorded edit of the selected shape is undone and redone exactly when
    the old values of the action restore the shape and the new values give
    the edited one. *)
Lemma edit_roundtrip (d d0 : DrawingArea) (s : ShapeBase) (a : HistoryAction) f undoF redoF :
  inRange (selectedIndex d) (shapes d) = true ->
  shapes d !! Z.to_nat (selectedIndex d) = Some s ->
  type a = Resize \/ type a = Property ->
  shapeIndex a = selectedIndex d ->
  undoF = match type a with
          | Resize => setRect (oldRect a)
          | _ => fun s => setLineWidth (oldLineWidth a) (setLineColor (oldLineColor a) s)
          end ->
  redoF = match type a with
          | Resize => setRect (newRect a)
          | _ => fun s => setLineWidth (newLineWidth a) (setLineColor (newLineColor a) s)
          end ->
  undoF (f s) = s ->
  redoF s = f s ->
  shapes d0 = alter f (Z.to_nat (selectedIndex d)) (shapes d) ->
  arrowConnections d0 = arrowConnections d ->
  selectedIndex d0 = selectedIndex d ->
  m_undoStack d0 = a :: m_undoStack d ->
  m_redoStack d0 = [] ->
  undoneAndRedone d d0.
Proof.
  intros Hr Hs Hty Hidx HuF HrF Hold Hnew Dsh Dco Dse Dun Dre. unfold undoneAndRedone.
  destruct (undo_edit_step d0 a _ Dun Hty) as (d1 & U0 & U1 & U2 & U3 & U4 & U5 & U6).
  { rewrite Dsh, Hidx, inRange_alter. exact Hr. }
  rewrite <- HuF, Hidx, Dsh in U1. rewrite (alter_twice_same _ _ s _ _ Hs Hold) in U1.
  rewrite Dre in U5.
  destruct (redo_edit_step d1 a _ U5 Hty) as (d2 & R0 & R1 & R2 & R3 & R4 & R5 & R6).
  { rewrite U1, Hidx. exact Hr. }
  rewrite <- HrF, Hidx, U1 in R1.
  exists d1, d2. split; [exact U0|]. split; [exact U1|].
  split; [now rewrite U2|]. split; [now rewrite U3|]. split; [exact U4|].
  split; [exact R0|]. split; [|split; [|exact R5]].
  - rewrite R1, Dsh. apply (alter_agree _ _ s); [exact Hs | exact Hnew].
  - rewrite R4, U4, Dun. reflexivity.
Qed.

(** X7. A recorded style change is undone and redone exactly.  On a canvas
    that records history, after the line colour or the line width of the
    selected shape was set to a value it did not have, an undo completes and
    gives back the shape list, connections, selection and undo stack from
    before the change, and a redo after that gives the changed shape list
    and the undo stack of the change again. *)
Theorem style_change_undo_redo (d : DrawingArea) (s : ShapeBase) :
  m_ignoreHistoryActions d = false ->
  inRange (selectedIndex d) (shapes d) = true ->
  shapes d !! Z.to_nat (selectedIndex d) = Some s ->
  (forall color, color <> getLineColor s ->
     undoneAndRedone d (setSelectedShapeLineColor color d)) /\
  (forall width, width <> getLineWidth s ->
     undoneAndRedone d (setSelectedShapeLineWidth width d)).
Proof.
  intros Hi Hr Hs.
  assert (Hr' : (selectedIndex d <? 0) || (Z.of_nat (length (shapes d)) <=? selectedIndex d)
                = false) by (unfold inRange in Hr; blia).
  split.
  - intros color Hne.
    assert (setSelectedShapeLineColor color d =
            modifyShape (Z.to_nat (selectedIndex d)) (setLineColor color)
              (clearRedoStack
                 (pushUndo (set_properties (getLineColor s) color (getLineWidth s)
                              (getLineWidth s) (HistoryAction_new Property (selectedIndex d)))
                           d))) as ->.
    { unfold setSelectedShapeLineColor. rewrite Hr, Hs.
      destruct (Color.eqb (getLineColor s) color) eqn:E.
      { apply Color_eqb_eq in E. congruence. }
      unfold recordPropertyChange. rewrite Hi. cbn [orb]. rewrite Hr'. reflexivity. }
    eapply (edit_roundtrip d _ s _ (setLineColor color)); try reflexivity; auto;
      now destruct s.
  - intros width Hne.
    assert (setSelectedShapeLineWidth width d =
            modifyShape (Z.to_nat (selectedIndex d)) (setLineWidth width)
              (clearRedoStack
                 (pushUndo (set_properties (getLineColor s) (getLineColor s) (getLineWidth s)
                              width (HistoryAction_new Property (selectedIndex d)))
                           d))) as ->.
    { unfold setSelectedShapeLineWidth. rewrite Hr, Hs.
      destruct (getLineWidth s =? width) eqn:E; [blia|].
      unfold recordPropertyChange. rewrite Hi. cbn [orb]. rewrite Hr'. reflexivity. }
    eapply (edit_roundtrip d _ s _ (setLineWidth width)); try reflexivity; auto;
      now destruct s.
Qed.

Lemma swapAt_sym {A} (i j : nat) (l : list A) : i <> j -> swapAt i j l = swapAt j i l.
Proof.
  intros Hne. unfold swapAt.
  destruct (l !! i) as [x|], (l !! j) as [y|]; try reflexivity.
  now apply list_insert_insert_ne.
Qed.

Lemma insert_swap_adjacent {A} (l : list A) : forall (i : nat) (x y : A),
  l !! i = Some x -> l !! S i = Some y ->
  <[i := y]> (<[S i := x]> l) = take i l ++ y :: x :: drop (S (S i)) l.
Proof.
  induction l as [|a l IH]; intros [|i] x y Hx Hy; try discriminate.
  - destruct l as [|b l]; [discriminate|].
    injection Hx as ->. injection Hy as ->. reflexivity.
  - cbn. f_equal. apply IH; assumption.
Qed.

Lemma swapAt_adjacent {A} (l : list A) (i : nat) (x y : A) :
  l !! i = Some x -> l !! S i = Some y ->
  swapAt i (S i) l = take i l ++ y :: x :: drop (S (S i)) l.
Proof.
  intros Hx Hy. unfold swapAt. rewrite Hx, Hy. now apply insert_swap_adjacent.
Qed.

Lemma swapAt_spec {A} (l : list A) (i : nat) (x y : A) :
  l !! i = Some x -> l !! S i = Some y ->
  Permutation (swapAt i (S i) l) l /\
  length (swapAt i (S i) l) = length l /\
  swapAt i (S i) l !! i = Some y /\
  swapAt i (S i) l !! S i = Some x /\
  swapAt i (S i) (swapAt i (S i) l) = l.
Proof.
  intros Hx Hy.
  pose proof (lookup_lt_Some _ _ _ Hy) as Hlt.
  assert (Hl : l = take i l ++ x :: y :: drop (S (S i)) l).
  { rewrite <- (take_drop_middle l i x Hx) at 1. f_equal. f_equal.
    rewrite <- (take_drop_middle l (S i) y Hy) at 1.
    rewrite drop_app_length'; [reflexivity|]. rewrite length_take. lia. }
  assert (Hi : length (take i l) = i) by (rewrite length_take; lia).
  assert (Hsw : swapAt i (S i) l = take i l ++ y :: x :: drop (S (S i)) l)
    by now apply swapAt_adjacent.
  assert (H1 : swapAt i (S i) l !! i = Some y).
  { rewrite Hsw, lookup_app_r by lia. now rewrite Hi, Nat.sub_diag. }
  assert (H2 : swapAt i (S i) l !! S i = Some x).
  { rewrite Hsw, lookup_app_r by lia. rewrite Hi.
    replace (S i - i)%nat with 1%nat by lia. reflexivity. }
  split; [|split; [|split; [|split]]]; auto.
  - rewrite Hsw. rewrite Hl at 3. apply Permutation_app_head. constructor.
  - rewrite Hsw. rewrite Hl at 3. rewrite !length_app. reflexivity.
  - rewrite (swapAt_adjacent _ i y x H1 H2). rewrite Hsw.
    rewrite take_app_length' by (symmetry; exact Hi).
    assert (Hd : drop (S (S i)) (take i l ++ y :: x :: drop (S (S i)) l) =
                 drop (S (S i)) l).
    { replace (S (S i)) with (i + 2)%nat at 1 by lia.
      rewrite drop_app_add' by (symmetry; exact Hi). reflexivity. }
    rewrite Hd. symmetry. exact Hl.
Qed.

Lemma at_of_nat {A} (v : list A) (i : nat) : at_ v (Z.of_nat i) = v !! i.
Proof.
  unfold at_. destruct (Z.of_nat i <? 0) eqn:E; [blia|]. now rewrite Nat2Z.id.
Qed.

Lemma inRange_of_nat {A} (v : list A) (i : nat) :
  inRange (Z.of_nat i) v = true <-> (i < length v)%nat.
Proof. unfold inRange. rewrite andb_true_iff, Z.leb_le, Z.ltb_lt. lia. Qed.

Lemma moveShapeUp_spec (d0 : DrawingArea) :
  0 <= selectedIndex d0 < Z.of_nat (length (shapes d0)) - 1 ->
  keepsSelectedShape moveShapeUp d0 /\
  selectedIndex (moveShapeUp d0) = selectedIndex d0 + 1 /\
  length (shapes (moveShapeUp d0)) = length (shapes d0) /\
  moveShapeUp d0 =
    set_selectedIndex (selectedIndex d0 + 1)
      (set_shapes (swapAt (Z.to_nat (selectedIndex d0))
                     (S (Z.to_nat (selectedIndex d0))) (shapes d0)) d0).
Proof.
  intros Hb. unfold keepsSelectedShape, moveShapeUp.
  destruct ((selectedIndex d0 <? 0) ||
            (Z.of_nat (length (shapes d0)) - 1 <=? selectedIndex d0)) eqn:E; [blia|].
  rewrite Nat.add_1_r.
  destruct (lookup_lt_is_Some_2 (shapes d0) (Z.to_nat (selectedIndex d0))) as [x Hx]; [lia|].
  destruct (lookup_lt_is_Some_2 (shapes d0) (S (Z.to_nat (selectedIndex d0)))) as [y Hy];
    [lia|].
  destruct (swapAt_spec _ _ x y Hx Hy) as (Hp & Hlen & H1 & H2 & _).
  cbn [shapes arrowConnections m_undoStack m_redoStack selectedIndex set_selectedIndex
       set_shapes].
  repeat split; auto.
  - unfold inRange. rewrite Hlen. blia.
  - unfold at_. destruct (selectedIndex d0 + 1 <? 0) eqn:E1; [blia|].
    destruct (selectedIndex d0 <? 0) eqn:E2; [blia|].
    replace (Z.to_nat (selectedIndex d0 + 1)) with (S (Z.to_nat (selectedIndex d0))) by lia.
    now rewrite H2, Hx.
Qed.

Lemma moveShapeDown_spec (d0 : DrawingArea) :
  0 < selectedIndex d0 < Z.of_nat (length (shapes d0)) ->
  keepsSelectedShape moveShapeDown d0 /\
  selectedIndex (moveShapeDown d0) = selectedIndex d0 - 1 /\
  length (shapes (moveShapeDown d0)) = length (shapes d0) /\
  moveShapeDown d0 =
    set_selectedIndex (selectedIndex d0 - 1)
      (set_shapes (swapAt (Z.to_nat (selectedIndex d0 - 1))
                     (S (Z.to_nat (selectedIndex d0 - 1))) (shapes d0)) d0).
Proof.
  intros Hb. unfold keepsSelectedShape, moveShapeDown.
  destruct ((selectedIndex d0 <=? 0) ||
            (Z.of_nat (length (shapes d0)) <=? selectedIndex d0)) eqn:E; [blia|].
  replace (Z.to_nat (selectedIndex d0)) with (S (Z.to_nat (selectedIndex d0 - 1))) by lia.
  replace (S (Z.to_nat (selectedIndex d0 - 1)) - 1)%nat
    with (Z.to_nat (selectedIndex d0 - 1)) by lia.
  rewrite (swapAt_sym (S _) _) by lia.
  destruct (lookup_lt_is_Some_2 (shapes d0) (Z.to_nat (selectedIndex d0 - 1))) as [x Hx];
    [lia|].
  destruct (lookup_lt_is_Some_2 (shapes d0) (S (Z.to_nat (selectedIndex d0 - 1))))
    as [y Hy]; [lia|].
  destruct (swapAt_spec _ _ x y Hx Hy) as (Hp & Hlen & H1 & H2 & _).
  cbn [shapes arrowConnections m_undoStack m_redoStack selectedIndex set_selectedIndex
       set_shapes].
  repeat split; auto.
  - unfold inRange. rewrite Hlen. blia.
  - unfold at_. destruct (selectedIndex d0 - 1 <? 0) eqn:E1; [blia|].
    destruct (selectedIndex d0 <? 0) eqn:E2; [blia|].
    replace (Z.to_nat (selectedIndex d0)) with (S (Z.to_nat (selectedIndex d0 - 1))) by lia.
    now rewrite H1, Hy.
Qed.

Lemma moveShapeToTop_spec (d : DrawingArea) :
  inRange (selectedIndex d) (shapes d) = true ->
  keepsSelectedShape moveShapeToTop d /\
  selectedIndex (moveShapeToTop d) = Z.of_nat (length (shapes d)) - 1 /\
  length (shapes (moveShapeToTop d)) = length (shapes d).
Proof.
  intros Hr. destruct (inRange_lookup _ _ Hr) as (x & Hx & Hat).
  pose proof (lookup_lt_Some _ _ _ Hx) as Hlt.
  assert (Hg : (selectedIndex d <? 0) || (Z.of_nat (length (shapes d)) <=? selectedIndex d)
               = false) by (unfold inRange in Hr; blia).
  assert (Hlen : length (erase (Z.to_nat (selectedIndex d)) (shapes d) ++ [x]) =
                 length (shapes d)).
  { unfold erase. rewrite length_app, length_delete by eauto. cbn. lia. }
  unfold keepsSelectedShape, moveShapeToTop. rewrite Hg, Hx.
  cbn [shapes arrowConnections m_undoStack m_redoStack selectedIndex set_selectedIndex
       set_shapes].
  rewrite Hlen, Hat. repeat split; auto.
  - unfold erase. rewrite (delete_Permutation _ _ _ Hx) at 2.
    symmetry. apply Permutation_cons_append.
  - unfold inRange. rewrite Hlen. blia.
  - replace (Z.of_nat (length (shapes d)) - 1)
      with (Z.of_nat (length (erase (Z.to_nat (selectedIndex d)) (shapes d)))).
    + rewrite at_of_nat, lookup_app_r by lia. now rewrite Nat.sub_diag.
    + unfold erase. rewrite length_delete by eauto. lia.
Qed.

Lemma moveShapeToBottom_spec (d : DrawingArea) :
  inRange (selectedIndex d) (shapes d) = true ->
  keepsSelectedShape moveShapeToBottom d /\
  selectedIndex (moveShapeToBottom d) = 0 /\
  length (shapes (moveShapeToBottom d)) = length (shapes d).
Proof.
  intros Hr. destruct (inRange_lookup _ _ Hr) as (x & Hx & Hat).
  pose proof (lookup_lt_Some _ _ _ Hx) as Hlt.
  assert (Hg : (selectedIndex d <? 0) || (Z.of_nat (length (shapes d)) <=? selectedIndex d)
               = false) by (unfold inRange in Hr; blia).
  assert (Hlen : length (x :: erase (Z.to_nat (selectedIndex d)) (shapes d)) =
                 length (shapes d)).
  { unfold erase. cbn [length]. rewrite length_delete by eauto. lia. }
  unfold keepsSelectedShape, moveShapeToBottom. rewrite Hg, Hx.
  cbn [shapes arrowConnections m_undoStack m_redoStack selectedIndex set_selectedIndex
       set_shapes].
  rewrite Hat. repeat split; auto.
  all: try (unfold erase; now rewrite (delete_Permutation _ _ _ Hx) at 2).
  all: try (unfold inRange; rewrite Hlen; blia).
Qed.

Lemma z_order_noop (op : DrawingArea -> DrawingArea) (d : DrawingArea) :
  op d = d -> keepsSelectedShape op d.
Proof. intros Hop. unfold keepsSelectedShape. rewrite Hop. repeat split; auto. Qed.

Lemma z_order_keeps (d : DrawingArea) :
  keepsSelectedShape moveShapeUp d /\
  keepsSelectedShape moveShapeDown d /\
  keepsSelectedShape moveShapeToTop d /\
  keepsSelectedShape moveShapeToBottom d.
Proof.
  split; [|split; [|split]].
  - destruct (decide (0 <= selectedIndex d < Z.of_nat (length (shapes d)) - 1)) as [Hb|Hb].
    + apply moveShapeUp_spec, Hb.
    + apply z_order_noop. unfold moveShapeUp.
      destruct ((selectedIndex d <? 0) ||
                (Z.of_nat (length (shapes d)) - 1 <=? selectedIndex d)) eqn:E;
        [reflexivity | blia].
  - destruct (decide (0 < selectedIndex d < Z.of_nat (length (shapes d)))) as [Hb|Hb].
    + apply moveShapeDown_spec, Hb.
    + apply z_order_noop. unfold moveShapeDown.
      destruct ((selectedIndex d <=? 0) ||
                (Z.of_nat (length (shapes d)) <=? selectedIndex d)) eqn:E;
        [reflexivity | blia].
  - destruct (inRange (selectedIndex d) (shapes d)) eqn:Hr.
    + now apply moveShapeToTop_spec.
    + apply z_order_noop. unfold moveShapeToTop. unfold inRange in Hr.
      destruct ((selectedIndex d <? 0) ||
                (Z.of_nat (length (shapes d)) <=? selectedIndex d)) eqn:E;
        [reflexivity | blia].
  - destruct (inRange (selectedIndex d) (shapes d)) eqn:Hr.
    + now apply moveShapeToBottom_spec.
    + apply z_order_noop. unfold moveShapeToBottom. unfold inRange in Hr.
      destruct ((selectedIndex d <? 0) ||
                (Z.of_nat (length (shapes d)) <=? selectedIndex d)) eqn:E;
        [reflexivity | blia].
Qed.

(** X8. The four z-order operations only reorder: each one gives a
    permutation of the shape list, leaves the connection list and both
    history stacks as they are (connections keep their indices and the
    change is not recorded), and the selection follows the selected shape,
    which ends at the last position after [moveShapeToTop] and at position
    [0] after [moveShapeToBottom].  Where [moveShapeUp] applies,
    [moveShapeDown] after it gives back the canvas, and the other way
    round. *)
Theorem z_order_reorders (d : DrawingArea) :
  keepsSelectedShape moveShapeUp d /\
  keepsSelectedShape moveShapeDown d /\
  keepsSelectedShape moveShapeToTop d /\
  keepsSelectedShape moveShapeToBottom d /\
  (inRange (selectedIndex d) (shapes d) = true ->
   selectedIndex (moveShapeToTop d) = Z.of_nat (length (shapes d)) - 1 /\
   selectedIndex (moveShapeToBottom d) = 0) /\
  (0 <= selectedIndex d < Z.of_nat (length (shapes d)) - 1 ->
   selectedIndex (moveShapeUp d) = selectedIndex d + 1 /\
   moveShapeDown (moveShapeUp d) = d) /\
  (0 < selectedIndex d < Z.of_nat (length (shapes d)) ->
   selectedIndex (moveShapeDown d) = selectedIndex d - 1 /\
   moveShapeUp (moveShapeDown d) = d).
Proof.
  destruct (z_order_keeps d) as (K1 & K2 & K3 & K4).
  split; [exact K1|]. split; [exact K2|]. split; [exact K3|]. split; [exact K4|].
  split; [|split].
  - intros Hr. split; [now apply moveShapeToTop_spec | now apply moveShapeToBottom_spec].
  - intros Hb. destruct (moveShapeUp_spec d Hb) as (_ & Hsel & Hlen & Heq).
    split; [exact Hsel|].
    destruct (moveShapeDown_spec (moveShapeUp d)) as (_ & _ & _ & Heq2);
      [rewrite Hsel, Hlen; lia|].
    rewrite Heq2, Hsel. rewrite Heq.
    cbn [shapes set_selectedIndex set_shapes].
    replace (selectedIndex d + 1 - 1) with (selectedIndex d) by lia.
    destruct (lookup_lt_is_Some_2 (shapes d) (Z.to_nat (selectedIndex d))) as [x Hx]; [lia|].
    destruct (lookup_lt_is_Some_2 (shapes d) (S (Z.to_nat (selectedIndex d)))) as [y Hy];
      [lia|].
    destruct (swapAt_spec _ _ x y Hx Hy) as (_ & _ & _ & _ & Hinv).
    rewrite Hinv. now destruct d.
  - intros Hb. destruct (moveShapeDown_spec d Hb) as (_ & Hsel & Hlen & Heq).
    split; [exact Hsel|].
    destruct (moveShapeUp_spec (moveShapeDown d)) as (_ & _ & _ & Heq2);
      [rewrite Hsel, Hlen; lia|].
    rewrite Heq2, Hsel. rewrite Heq.
    cbn [shapes set_selectedIndex set_shapes].
    replace (selectedIndex d - 1 + 1) with (selectedIndex d) by lia.
    destruct (lookup_lt_is_Some_2 (shapes d) (Z.to_nat (selectedIndex d - 1))) as [x Hx];
      [lia|].
    destruct (lookup_lt_is_Some_2 (shapes d) (S (Z.to_nat (selectedIndex d - 1))))
      as [y Hy]; [lia|].
    destruct (swapAt_spec _ _ x y Hx Hy) as (_ & _ & _ & _ & Hinv).
    rewrite Hinv. now destruct d.
Qed.

(** *** The frame of the handlers and the invariant of the canvas *)

Lemma sameFrame_refl (d : DrawingArea) : sameFrame d d.
Proof. unfold sameFrame. auto. Qed.

Lemma sameFrame_trans (d1 d2 d3 : DrawingArea) :
  sameFrame d1 d2 -> sameFrame d2 d3 -> sameFrame d1 d3.
Proof.
  unfold sameFrame. intros (A1 & A2 & A3 & A4 & A5) (B1 & B2 & B3 & B4 & B5).
  repeat split; congruence.
Qed.

Lemma sameFrame_modifyShape (i : nat) f (d : DrawingArea) : sameFrame d (modifyShape i f d).
Proof. unfold sameFrame, modifyShape. cbn. rewrite length_alter. auto. Qed.

Lemma sameFrame_updateConnectedArrows s delta (d d' : DrawingArea) :
  updateConnectedArrows s delta d = Some d' -> sameFrame d d'.
Proof.
  intros H. apply updateConnectedArrows_frame in H as (shs & conns & -> & Hlen & _).
  unfold sameFrame. cbn. auto.
Qed.

Lemma sameFrame_invariant (d d' : DrawingArea) :
  sameFrame d d' -> canvasInvariant d -> canvasInvariant d'.
Proof.
  unfold sameFrame, canvasInvariant, selectionValid, historyValid, inRange.
  intros (A1 & A2 & A3 & A4 & A5) (Hsel & Hi & Hu & Hr).
  rewrite A1, A2, A3, A4, A5. auto.
Qed.

Lemma historyGrows_refl (d : DrawingArea) : historyGrows d d.
Proof. unfold historyGrows. auto. Qed.

Lemma historyGrows_invariant (d d' : DrawingArea) :
  historyGrows d d' -> historyValid d -> historyValid d'.
Proof.
  unfold historyGrows, historyValid.
  intros (A1 & [[A2 A3] | (a & Ha & A2 & A3)]) (Hi & Hu & Hr).
  - rewrite A1, A2, A3. auto.
  - rewrite A1, A2, A3. auto.
Qed.

Lemma historyGrows_sameFrame (d1 d2 d3 : DrawingArea) :
  historyGrows d1 d2 -> sameFrame d2 d3 -> historyGrows d1 d3.
Proof.
  unfold historyGrows, sameFrame. intros (A1 & A) (_ & _ & B3 & B4 & B5).
  rewrite B3, B4, B5. auto.
Qed.

Lemma historyGrows_recorded (d : DrawingArea) (a : HistoryAction) :
  replayable a -> historyGrows d (clearRedoStack (pushUndo a d)).
Proof. intros Ha. unfold historyGrows. cbn. split; [reflexivity|]. right. eauto. Qed.

Lemma recordAddShape_fields (index : Z) (d : DrawingArea) :
  shapes (recordAddShape index d) = shapes d /\
  arrowConnections (recordAddShape index d) = arrowConnections d /\
  selectedIndex (recordAddShape index d) = selectedIndex d /\
  historyGrows d (recordAddShape index d).
Proof.
  unfold recordAddShape.
  destruct (m_ignoreHistoryActions d) eqn:Hi;
    [repeat split; auto using historyGrows_refl|].
  destruct ((index <? 0) || (Z.of_nat (length (shapes d)) <=? index)) eqn:E;
    [repeat split; auto using historyGrows_refl|].
  destruct (shapes d !! Z.to_nat index);
    [|repeat split; auto using historyGrows_refl].
  repeat split; try reflexivity. apply historyGrows_recorded.
  unfold replayable. cbn. split; [blia | discriminate].
Qed.

Lemma recordRemoveShape_grows (index : Z) (d : DrawingArea) :
  historyGrows d (recordRemoveShape index d).
Proof.
  unfold recordRemoveShape.
  destruct (m_ignoreHistoryActions d || (index <? 0) ||
            (Z.of_nat (length (shapes d)) <=? index)) eqn:E;
    [apply historyGrows_refl|].
  destruct (shapes d !! Z.to_nat index); [|apply historyGrows_refl].
  apply historyGrows_recorded.
  unfold replayable. cbn. split; [blia | discriminate].
Qed.

Lemma record_edit_fields (d d' : DrawingArea) :
  (exists index delta, d' = recordMoveShape index delta d) \/
  (exists index oldR newR, d' = recordResizeShape index oldR newR d) \/
  (exists index oc nc ow nw, d' = recordPropertyChange index oc nc ow nw d) ->
  shapes d' = shapes d /\
  arrowConnections d' = arrowConnections d /\
  selectedIndex d' = selectedIndex d /\
  historyGrows d d'.
Proof.
  intros [(index & delta & ->) | [(index & oldR & newR & ->) | (index & oc & nc & ow & nw & ->)]].
  - unfold recordMoveShape.
    destruct (m_ignoreHistoryActions d || (index <? 0) ||
              (Z.of_nat (length (shapes d)) <=? index)) eqn:E;
      [repeat split; auto using historyGrows_refl|].
    repeat split; try reflexivity. apply historyGrows_recorded.
    unfold replayable. cbn. split; [blia | exact I].
  - unfold recordResizeShape.
    destruct (m_ignoreHistoryActions d || (index <? 0) ||
              (Z.of_nat (length (shapes d)) <=? index)) eqn:E;
      [repeat split; auto using historyGrows_refl|].
    repeat split; try reflexivity. apply historyGrows_recorded.
    unfold replayable. cbn. split; [blia | exact I].
  - unfold recordPropertyChange.
    destruct (m_ignoreHistoryActions d || (index <? 0) ||
              (Z.of_nat (length (shapes d)) <=? index)) eqn:E;
      [repeat split; auto using historyGrows_refl|].
    repeat split; try reflexivity. apply historyGrows_recorded.
    unfold replayable. cbn. split; [blia | exact I].
Qed.

Lemma addShape_fields (s : ShapeBase) (d : DrawingArea) :
  shapes (addShape s d) = shapes d ++ [s] /\
  arrowConnections (addShape s d) = arrowConnections d /\
  selectedIndex (addShape s d) = Z.of_nat (length (shapes d)) /\
  historyGrows d (addShape s d).
Proof.
  unfold addShape.
  match goal with
  | |- context [recordAddShape ?i ?x] =>
      destruct (recordAddShape_fields i x) as (H1 & H2 & H3 & H4)
  end.
  cbn [shapes arrowConnections selectedIndex set_selectedIndex set_shapes] in *.
  rewrite H1, H2, H3.
  split; [reflexivity|]. split; [reflexivity|].
  split; [rewrite length_app; cbn; lia|]. exact H4.
Qed.

Lemma addShape_invariant (s : ShapeBase) (d : DrawingArea) :
  canvasInvariant d -> canvasInvariant (addShape s d).
Proof.
  intros [Hsel Hh]. destruct (addShape_fields s d) as (H1 & _ & H3 & H4).
  split; [|eapply historyGrows_invariant; eauto].
  right. rewrite H1, H3. apply inRange_of_nat. rewrite length_app. cbn. lia.
Qed.

Lemma selectionValid_iff (d : DrawingArea) :
  selectionValid d <->
  selectedIndex d = -1 \/ 0 <= selectedIndex d < Z.of_nat (length (shapes d)).
Proof.
  unfold selectionValid, inRange. rewrite andb_true_iff, Z.leb_le, Z.ltb_lt. tauto.
Qed.

Lemma sameFrame_editFrame (d d' : DrawingArea) : sameFrame d d' -> editFrame d d'.
Proof.
  unfold sameFrame, editFrame, historyGrows. intros (A1 & A2 & A3 & A4 & A5). auto 10.
Qed.

Lemma editFrame_invariant (d d' : DrawingArea) :
  editFrame d d' -> canvasInvariant d -> canvasInvariant d'.
Proof.
  intros (A1 & A2 & A3) [Hsel Hh]. split; [|eapply historyGrows_invariant; eauto].
  apply selectionValid_iff. apply selectionValid_iff in Hsel. rewrite A1, A2. exact Hsel.
Qed.

Lemma editFrame_sameFrame (d1 d2 d3 : DrawingArea) :
  editFrame d1 d2 -> sameFrame d2 d3 -> editFrame d1 d3.
Proof.
  intros (A1 & A2 & A3) B. pose proof (historyGrows_sameFrame _ _ _ A3 B) as H.
  destruct B as (B1 & B2 & _). unfold editFrame. rewrite B1, B2. auto.
Qed.

Lemma deleteSelectedShape_invariant (d : DrawingArea) :
  canvasInvariant d -> canvasInvariant (deleteSelectedShape d).
Proof.
  intros [Hsel Hh]. unfold deleteSelectedShape.
  destruct (negb (selectedIndex d =? -1) && inRange (selectedIndex d) (shapes d));
    [|split; assumption].
  split; [left; reflexivity|].
  eapply historyGrows_invariant; [|exact Hh].
  exact (recordRemoveShape_grows (selectedIndex d) d).
Qed.

Lemma style_setters_editFrame (d : DrawingArea) :
  (forall color, editFrame d (setSelectedShapeLineColor color d)) /\
  (forall width, editFrame d (setSelectedShapeLineWidth width d)).
Proof.
  assert (Hrefl : editFrame d d) by (apply sameFrame_editFrame, sameFrame_refl).
  split.
  - intros color. unfold setSelectedShapeLineColor.
    destruct (inRange _ _); [|exact Hrefl].
    destruct (shapes d !! _) as [s|]; [|exact Hrefl].
    destruct (Color.eqb _ _); [exact Hrefl|].
    eapply editFrame_sameFrame; [|apply sameFrame_modifyShape].
    match goal with
    | |- editFrame d ?x =>
        destruct (record_edit_fields d x) as (H1 & _ & H3 & H4); [eauto 10|]
    end.
    unfold editFrame. rewrite H1, H3. auto.
  - intros width. unfold setSelectedShapeLineWidth.
    destruct (inRange _ _); [|exact Hrefl].
    destruct (shapes d !! _) as [s|]; [|exact Hrefl].
    destruct (_ =? _); [exact Hrefl|].
    eapply editFrame_sameFrame; [|apply sameFrame_modifyShape].
    match goal with
    | |- editFrame d ?x =>
        destruct (record_edit_fields d x) as (H1 & _ & H3 & H4); [eauto 10|]
    end.
    unfold editFrame. rewrite H1, H3. auto.
Qed.

Lemma z_order_flags (d : DrawingArea) :
  forall op, In op [moveShapeUp; moveShapeDown; moveShapeToTop; moveShapeToBottom] ->
    m_ignoreHistoryActions (op d) = m_ignoreHistoryActions d /\
    (selectedIndex d = -1 -> op d = d).
Proof.
  intros op [<- | [<- | [<- | [<- | []]]]].
  - unfold moveShapeUp. destruct (_ || _) eqn:E; [auto|]. split; [reflexivity | blia].
  - unfold moveShapeDown. destruct (_ || _) eqn:E; [auto|]. split; [reflexivity | blia].
  - unfold moveShapeToTop. destruct (_ || _) eqn:E; [auto|].
    destruct (shapes d !! _); [|auto]. split; [reflexivity | blia].
  - unfold moveShapeToBottom. destruct (_ || _) eqn:E; [auto|].
    destruct (shapes d !! _); [|auto]. split; [reflexivity | blia].
Qed.

Lemma z_order_invariant (d : DrawingArea) :
  canvasInvariant d ->
  forall op, In op [moveShapeUp; moveShapeDown; moveShapeToTop; moveShapeToBottom] ->
    canvasInvariant (op d).
Proof.
  intros [Hsel Hh] op Hop.
  destruct (z_order_flags d op Hop) as [Hig Hno].
  assert (Hk : keepsSelectedShape op d).
  { destruct (z_order_keeps d) as (K1 & K2 & K3 & K4).
    destruct Hop as [<- | [<- | [<- | [<- | []]]]]; assumption. }
  destruct Hk as (_ & _ & Hu & Hr & Hk).
  destruct Hsel as [Hsel | Hsel].
  - rewrite (Hno Hsel). split; [left|]; assumption.
  - split; [right; now apply Hk|].
    unfold historyValid in *. rewrite Hu, Hr, Hig. exact Hh.
Qed.

Lemma length_insertAt {A} (k : nat) (x : A) (l : list A) :
  (k <= length l)%nat -> length (insertAt k x l) = S (length l).
Proof.
  intros Hk. unfold insertAt. rewrite length_app, length_take. cbn [length].
  rewrite length_drop. lia.
Qed.

Lemma selection_after_erase (sel index len : Z) :
  sel = -1 \/ 0 <= sel < len -> 0 <= index < len ->
  let sel' := if sel =? index then -1 else if index <? sel then sel - 1 else sel in
  sel' = -1 \/ 0 <= sel' < len - 1.
Proof.
  intros Hsel Hi. cbv zeta.
  destruct (sel =? index) eqn:E1; [auto|].
  destruct (index <? sel) eqn:E2; blia.
Qed.

Lemma selection_after_insert (sel k len : Z) :
  sel = -1 \/ 0 <= sel < len -> 0 <= k ->
  let sel' := if k <=? sel then sel + 1 else sel in
  sel' = -1 \/ 0 <= sel' < len + 1.
Proof.
  intros Hsel Hk. cbv zeta. destruct (k <=? sel) eqn:E; blia.
Qed.

Lemma replayable_shape (a : HistoryAction) :
  replayable a -> type a = Add \/ type a = Remove -> exists s, shape a = Some s.
Proof.
  intros [_ H] Ht. destruct (shape a) as [s|]; [eauto|].
  destruct Ht as [Ht | Ht]; rewrite Ht in H; now elim H.
Qed.

Lemma undoAction_invariant (a : HistoryAction) (d d' : DrawingArea) :
  replayable a -> selectionValid d -> undoAction a d = Some d' ->
  selectionValid d' /\
  m_undoStack d' = m_undoStack d /\
  m_ignoreHistoryActions d' = m_ignoreHistoryActions d /\
  (m_redoStack d' = m_redoStack d \/
   exists a', replayable a' /\ m_redoStack d' = a' :: m_redoStack d).
Proof.
  intros Ha Hsel. pose proof Ha as [H0 _].
  assert (Hstale : Some d = Some d' ->
                   selectionValid d' /\ m_undoStack d' = m_undoStack d /\
                   m_ignoreHistoryActions d' = m_ignoreHistoryActions d /\
                   (m_redoStack d' = m_redoStack d \/
                    exists a', replayable a' /\ m_redoStack d' = a' :: m_redoStack d)).
  { intros [= <-]. auto. }
  apply selectionValid_iff in Hsel.
  destruct (type a) eqn:Ht.
  - unfold undoAction. rewrite Ht.
    destruct (inRange (shapeIndex a) (shapes d)) eqn:Hr; [|exact Hstale].
    destruct (at_ (shapes d) (shapeIndex a)) as [s|]; [|faulted]. cbn [mbind option_bind].
    intros [= <-].
    match goal with
    | |- context [selectionAfterErase ?i ?x] =>
        destruct (selectionAfterErase_fields i x) as (F1 & F2 & F3 & F4 & F5 & F6)
    end.
    rewrite selectionValid_iff, F1, F3, F4, F5, F6.
    cbn [shapes selectedIndex m_undoStack m_redoStack m_ignoreHistoryActions set_shapes
         pushRedo set_redoStack].
    assert (Hb : 0 <= shapeIndex a < Z.of_nat (length (shapes d)))
      by (unfold inRange in Hr; blia).
    unfold erase. rewrite length_delete by (apply lookup_lt_is_Some_2; lia).
    split; [|split; [reflexivity|split; [reflexivity|]]].
    + pose proof (selection_after_erase _ _ _ Hsel Hb) as H. cbv zeta in H. lia.
    + right. eexists. split; [|reflexivity]. split; [exact H0 | cbn; discriminate].
  - destruct (replayable_shape a Ha (or_intror Ht)) as [s Hs].
    destruct (undoAction_Remove d a s Ht Hs H0) as (d1 & -> & F1 & F2 & F3 & F4 & F5 & F6).
    intros [= <-]. rewrite selectionValid_iff, F1, F3, F4, F5, F6.
    rewrite length_insertAt by lia.
    split; [|split; [reflexivity|split; [reflexivity|]]].
    + match goal with
      | |- context [if ?k <=? _ then _ else _] =>
          pose proof (selection_after_insert (selectedIndex d) k _ Hsel ltac:(lia)) as H
      end.
      cbv zeta in H. lia.
    + right. eexists. split; [|reflexivity]. split; [exact H0 | cbn; discriminate].
  - unfold undoAction. rewrite Ht.
    destruct (inRange (shapeIndex a) (shapes d)) eqn:Hr; [|exact Hstale].
    intros H. apply sameFrame_updateConnectedArrows in H as (A1 & A2 & A3 & A4 & A5).
    cbn [shapes selectedIndex m_undoStack m_redoStack m_ignoreHistoryActions modifyShape
         set_shapes pushRedo set_redoStack] in A1, A2, A3, A4, A5.
    rewrite length_alter in A1.
    rewrite selectionValid_iff, A1, A2, A3, A4, A5.
    split; [exact Hsel|]. split; [reflexivity|]. split; [reflexivity|].
    right. eexists. split; [|reflexivity]. split; [exact H0 | cbn; exact I].
  - unfold undoAction. rewrite Ht.
    destruct (inRange (shapeIndex a) (shapes d)) eqn:Hr; [|exact Hstale].
    intros [= <-]. rewrite selectionValid_iff.
    cbn [shapes selectedIndex m_undoStack m_redoStack m_ignoreHistoryActions modifyShape
         set_shapes pushRedo set_redoStack].
    rewrite length_alter.
    split; [exact Hsel|]. split; [reflexivity|]. split; [reflexivity|].
    right. eexists. split; [exact Ha | reflexivity].
  - unfold undoAction. rewrite Ht.
    destruct (inRange (shapeIndex a) (shapes d)) eqn:Hr; [|exact Hstale].
    intros [= <-]. rewrite selectionValid_iff.
    cbn [shapes selectedIndex m_undoStack m_redoStack m_ignoreHistoryActions modifyShape
         set_shapes pushRedo set_redoStack].
    rewrite length_alter.
    split; [exact Hsel|]. split; [reflexivity|]. split; [reflexivity|].
    right. eexists. split; [exact Ha | reflexivity].
Qed.

Lemma redoAction_invariant (a : HistoryAction) (d d' : DrawingArea) :
  replayable a -> selectionValid d -> redoAction a d = Some d' ->
  selectionValid d' /\
  m_redoStack d' = m_redoStack d /\
  m_ignoreHistoryActions d' = m_ignoreHistoryActions d /\
  (m_undoStack d' = m_undoStack d \/
   exists a', replayable a' /\ m_undoStack d' = a' :: m_undoStack d).
Proof.
  intros Ha Hsel. pose proof Ha as [H0 _].
  assert (Hstale : Some d = Some d' ->
                   selectionValid d' /\ m_redoStack d' = m_redoStack d /\
                   m_ignoreHistoryActions d' = m_ignoreHistoryActions d /\
                   (m_undoStack d' = m_undoStack d \/
                    exists a', replayable a' /\ m_undoStack d' = a' :: m_undoStack d)).
  { intros [= <-]. auto. }
  apply selectionValid_iff in Hsel.
  destruct (type a) eqn:Ht.
  - destruct (replayable_shape a Ha (or_introl Ht)) as [s Hs].
    unfold redoAction. rewrite Ht, Hs.
    match goal with
    | |- insertClamped ?i ?x ?y = _ -> _ =>
        destruct (insertClamped_fields i x y H0) as (d1 & -> & F1 & F2 & F3 & F4 & F5 & F6)
    end.
    intros [= <-]. rewrite selectionValid_iff, F1, F3, F4, F5, F6.
    cbn [shapes selectedIndex m_undoStack m_redoStack m_ignoreHistoryActions pushUndo
         set_undoStack].
    rewrite length_insertAt by (cbn [shapes pushUndo set_undoStack]; lia).
    split; [|split; [reflexivity|split; [reflexivity|]]].
    + match goal with
      | |- context [if ?k <=? _ then _ else _] =>
          pose proof (selection_after_insert (selectedIndex d) k _ Hsel
                        ltac:(cbn [shapes pushUndo set_undoStack]; lia)) as H
      end.
      cbv zeta in H. lia.
    + right. eexists. split; [|reflexivity]. split; [exact H0 | cbn; discriminate].
  - destruct (inRange (shapeIndex a) (shapes d)) eqn:Hr.
    + destruct (redoAction_Remove d a Ht Hr) as (d1 & -> & F1 & F2 & F3 & F4 & F5 & F6).
      intros [= <-]. rewrite selectionValid_iff, F1, F3, F4, F5, F6.
      assert (Hb : 0 <= shapeIndex a < Z.of_nat (length (shapes d)))
        by (unfold inRange in Hr; blia).
      unfold erase. rewrite length_delete by (apply lookup_lt_is_Some_2; lia).
      split; [|split; [reflexivity|split; [reflexivity|]]].
      * pose proof (selection_after_erase _ _ _ Hsel Hb) as H. cbv zeta in H. lia.
      * right. eexists. split; [exact Ha | reflexivity].
    + unfold redoAction. rewrite Ht, Hr. exact Hstale.
  - unfold redoAction. rewrite Ht.
    destruct (inRange (shapeIndex a) (shapes d)) eqn:Hr; [|exact Hstale].
    intros H. apply sameFrame_updateConnectedArrows in H as (A1 & A2 & A3 & A4 & A5).
    cbn [shapes selectedIndex m_undoStack m_redoStack m_ignoreHistoryActions modifyShape
         set_shapes pushUndo set_undoStack] in A1, A2, A3, A4, A5.
    rewrite length_alter in A1.
    rewrite selectionValid_iff, A1, A2, A3, A4, A5.
    split; [exact Hsel|]. split; [reflexivity|]. split; [reflexivity|].
    right. eexists. split; [exact Ha | reflexivity].
  - unfold redoAction. rewrite Ht.
    destruct (inRange (shapeIndex a) (shapes d)) eqn:Hr; [|exact Hstale].
    intros [= <-]. rewrite selectionValid_iff.
    cbn [shapes selectedIndex m_undoStack m_redoStack m_ignoreHistoryActions modifyShape
         set_shapes pushUndo set_undoStack].
    rewrite length_alter.
    split; [exact Hsel|]. split; [reflexivity|]. split; [reflexivity|].
    right. eexists. split; [exact Ha | reflexivity].
  - unfold redoAction. rewrite Ht.
    destruct (inRange (shapeIndex a) (shapes d)) eqn:Hr; [|exact Hstale].
    intros [= <-]. rewrite selectionValid_iff.
    cbn [shapes selectedIndex m_undoStack m_redoStack m_ignoreHistoryActions modifyShape
         set_shapes pushUndo set_undoStack].
    rewrite length_alter.
    split; [exact Hsel|]. split; [reflexivity|]. split; [reflexivity|].
    right. eexists. split; [exact Ha | reflexivity].
Qed.

Lemma undo_invariant (d d' : DrawingArea) :
  canvasInvariant d -> undo d = Some d' -> canvasInvariant d'.
Proof.
  intros [Hsel (Hi & Hu & Hr)]. unfold undo.
  destruct (m_undoStack d) as [|a rest] eqn:Eu.
  { intros [= <-]. repeat split; auto. now rewrite Eu. }
  destruct (undoAction a _) as [d1|] eqn:E; [|faulted]. cbn [mbind option_bind].
  intros [= <-]. inversion Hu as [|? ? Ha Hrest]; subst.
  apply undoAction_invariant in E as (S1 & S2 & S3 & S4); [|exact Ha|exact Hsel].
  cbn [m_undoStack m_redoStack set_undoStack set_ignoreHistoryActions] in S2, S4.
  split; [exact S1|]. split; [reflexivity|].
  cbn [m_undoStack m_redoStack set_ignoreHistoryActions]. rewrite S2. split; [exact Hrest|].
  destruct S4 as [-> | (a' & Ha' & ->)]; auto.
Qed.

Lemma redo_invariant (d d' : DrawingArea) :
  canvasInvariant d -> redo d = Some d' -> canvasInvariant d'.
Proof.
  intros [Hsel (Hi & Hu & Hr)]. unfold redo.
  destruct (m_redoStack d) as [|a rest] eqn:Eu.
  { intros [= <-]. repeat split; auto. now rewrite Eu. }
  destruct (redoAction a _) as [d1|] eqn:E; [|faulted]. cbn [mbind option_bind].
  intros [= <-]. inversion Hr as [|? ? Ha Hrest]; subst.
  apply redoAction_invariant in E as (S1 & S2 & S3 & S4); [|exact Ha|exact Hsel].
  cbn [m_undoStack m_redoStack set_redoStack set_ignoreHistoryActions] in S2, S4.
  split; [exact S1|]. split; [reflexivity|].
  cbn [m_undoStack m_redoStack set_ignoreHistoryActions]. rewrite S2. split; [|exact Hrest].
  destruct S4 as [-> | (a' & Ha' & ->)]; auto.
Qed.

(** Goals of the form [sameFrame d d'] where [d'] is [d] under setters. *)
Ltac frame_fields :=
  cbn [shapes arrowConnections selectedIndex m_undoStack m_redoStack m_ignoreHistoryActions
       modifyShape replaceConnection set_shapes set_arrowConnections set_selectedIndex
       set_snappedHandle set_dragging set_resizing set_originalRect set_lastMousePos
       set_moveStartPos] in *.

Ltac frame_solve :=
  unfold sameFrame in *; frame_fields; rewrite ?length_alter in *;
  repeat match goal with H : _ /\ _ |- _ => destruct H end;
  repeat split; congruence.

Lemma mouseMoveEvent_frame docPos snapDistance (d d' : DrawingArea) :
  mouseMoveEvent docPos snapDistance d = Some d' -> sameFrame d d'.
Proof.
  unfold mouseMoveEvent.
  destruct (dragging d && negb (selectedIndex d =? -1)); [|intros [= <-]; apply sameFrame_refl].
  destruct (at_ (shapes d) (selectedIndex d)) as [s|]; [|faulted]. cbn [mbind option_bind].
  destruct (isHandleSelected s).
  - destruct (isArrow s).
    + destruct (negb (getSelectedHandleIndex s =? -1));
        [|intros [= <-]; apply sameFrame_refl].
      destruct (findSnap _ _ _ _ _ _) as [[[a b] c]|]; intros [= <-]; frame_solve.
    + cbv zeta.
      destruct (updateConnectedArrows _ _ _) as [d1|] eqn:E; [|faulted].
      cbn [mbind option_bind]. intros [= <-].
      apply sameFrame_updateConnectedArrows in E. frame_solve.
  - cbv zeta. destruct (negb (isArrow s)).
    + destruct (inRange _ _).
      * destruct (updateConnectedArrows _ _ _) as [d1|] eqn:E; [|faulted].
        cbn [mbind option_bind]. intros [= <-].
        apply sameFrame_updateConnectedArrows in E. frame_solve.
      * cbn [mbind option_bind]. intros [= <-]. frame_solve.
    + cbn [mbind option_bind]. intros [= <-]. frame_solve.
Qed.

Lemma commitEndpoint_frame isStart docPos snapDistance arrow (d d' : DrawingArea) :
  commitEndpoint isStart docPos snapDistance arrow d = Some d' -> sameFrame d d'.
Proof.
  unfold commitEndpoint.
  destruct (findSnap _ _ _ _ _ _) as [[[a b] c]|]; [|intros [= <-]; apply sameFrame_refl].
  intros E. apply sameFrame_updateConnectedArrows in E. frame_solve.
Qed.

Lemma releaseSelected_frame docPos snapDistance (d d' : DrawingArea) :
  releaseSelected docPos snapDistance d = Some d' -> editFrame d d'.
Proof.
  assert (Hrefl : editFrame d d) by (apply sameFrame_editFrame, sameFrame_refl).
  unfold releaseSelected.
  destruct (selectedIndex d =? -1); [intros [= <-]; exact Hrefl|].
  destruct (at_ (shapes d) (selectedIndex d)) as [s|]; [|faulted]. cbn [mbind option_bind].
  destruct (isArrow s).
  - destruct (getSelectedHandleIndex s =? 1).
    + destruct (commitEndpoint false docPos snapDistance s d) as [d1|] eqn:E; [|faulted].
      cbn [mbind option_bind]. intros [= <-]. apply sameFrame_editFrame.
      eapply sameFrame_trans; [eapply commitEndpoint_frame; exact E|].
      apply sameFrame_modifyShape.
    + destruct (getSelectedHandleIndex s =? 0).
      * destruct (commitEndpoint true docPos snapDistance s d) as [d1|] eqn:E; [|faulted].
        cbn [mbind option_bind]. intros [= <-]. apply sameFrame_editFrame.
        eapply sameFrame_trans; [eapply commitEndpoint_frame; exact E|].
        apply sameFrame_modifyShape.
      * cbn [mbind option_bind]. intros [= <-].
        apply sameFrame_editFrame, sameFrame_modifyShape.
  - intros [= <-]. eapply editFrame_sameFrame; [|apply sameFrame_modifyShape].
    destruct (dragging d && negb (isHandleSelected s)).
    + destruct (0 <? _); [|exact Hrefl].
      match goal with
      | |- editFrame d ?x =>
          destruct (record_edit_fields d x) as (H1 & _ & H3 & H4); [eauto 10|]
      end.
      unfold editFrame. rewrite H1, H3. auto.
    + destruct (resizing d && isHandleSelected s); [|exact Hrefl].
      eapply editFrame_sameFrame; [|instantiate (1 := _); frame_solve].
      destruct (negb _); [|exact Hrefl].
      match goal with
      | |- editFrame d ?x =>
          destruct (record_edit_fields d x) as (H1 & _ & H3 & H4); [eauto 10|]
      end.
      unfold editFrame. rewrite H1, H3. auto.
Qed.

Lemma mouseReleaseEvent_frame docPos snapDistance (d d' : DrawingArea) :
  mouseReleaseEvent docPos snapDistance d = Some d' -> editFrame d d'.
Proof.
  unfold mouseReleaseEvent.
  destruct (releaseSelected docPos snapDistance d) as [d1|] eqn:E; [|faulted].
  cbn [mbind option_bind]. intros [= <-].
  apply releaseSelected_frame in E.
  eapply editFrame_sameFrame; [exact E|]. frame_solve.
Qed.

Lemma selectAt_invariant docPos (d : DrawingArea) :
  canvasInvariant d -> canvasInvariant (selectAt docPos d).
Proof.
  intros [Hsel Hh]. unfold selectAt.
  pose proof (hitTest_spec docPos (shapes d)) as H.
  destruct (hitTest docPos (length (shapes d)) (rev (shapes d))) as [i|].
  - destruct H as [(s & Hs & _) _]. split; [|exact Hh].
    right. cbn [selectedIndex shapes set_dragging set_moveStartPos set_lastMousePos
                set_selectedIndex].
    apply inRange_of_nat. now apply lookup_lt_Some in Hs.
  - split; [left; reflexivity | exact Hh].
Qed.

Lemma startArrow_fields docPos direction (s : ShapeBase) (d d' : DrawingArea) :
  startArrow docPos direction s d = Some (Some d') ->
  length (shapes d') = S (length (shapes d)) /\
  selectedIndex d' = Z.of_nat (length (shapes d)) /\
  historyGrows d d'.
Proof.
  unfold startArrow.
  destruct (0 <=? mapArrowHandleToAnchor s direction); [|discriminate].
  destruct (_ && _); [|discriminate].
  destruct (at_ (getArrowAnchors s) _) as [anchor|]; [|faulted]. cbn [mbind option_bind].
  cbv zeta.
  set (arrow := ShapeFactory_createArrow _).
  change (recordAddShape _ _) with (addShape arrow d).
  destruct (addShape_fields arrow d) as (F1 & F2 & F3 & F4).
  assert (Hbase : forall d1, sameFrame (addShape arrow d) d1 ->
            length (shapes (set_lastMousePos docPos (set_dragging true d1))) =
              S (length (shapes d)) /\
            selectedIndex (set_lastMousePos docPos (set_dragging true d1)) =
              Z.of_nat (length (shapes d)) /\
            historyGrows d (set_lastMousePos docPos (set_dragging true d1))).
  { intros d1 Hf. pose proof (historyGrows_sameFrame _ _ _ F4 Hf) as Hg.
    destruct Hf as (A1 & A2 & _). frame_fields. rewrite A1, A2, F1, F3, length_app.
    split; [cbn; lia|]. split; [reflexivity | exact Hg]. }
  set (d3 := addShape arrow d) in *.
  destruct (at_ (shapes d3) (selectedIndex d3)) as [arrowShape|]; [|faulted].
  cbn [mbind option_bind].
  destruct (isArrow arrowShape).
  - destruct (at_ _ (selectedIndex d)) as [original|]; [|faulted]. cbn [mbind option_bind].
    destruct (_ <? _).
    + destruct (at_ (getArrowAnchors original) _) as [anchor2|]; [|faulted].
      cbn [mbind option_bind].
      destruct (updateConnectedArrows _ _ _) as [d9|] eqn:E; [|faulted].
      cbn [mbind option_bind]. intros [= <-]. apply Hbase.
      apply sameFrame_updateConnectedArrows in E. frame_solve.
    + cbn [mbind option_bind]. intros [= <-]. apply Hbase. frame_solve.
  - cbn [mbind option_bind]. intros [= <-]. apply Hbase. apply sameFrame_refl.
Qed.

Lemma startArrow_invariant docPos direction (s : ShapeBase) (d d' : DrawingArea) :
  canvasInvariant d -> startArrow docPos direction s d = Some (Some d') ->
  canvasInvariant d'.
Proof.
  intros [Hsel Hh] H. apply startArrow_fields in H as (A1 & A2 & A3).
  split; [|eapply historyGrows_invariant; eauto].
  apply selectionValid_iff. rewrite A1, A2. lia.
Qed.

Lemma pressHandles_invariant docPos (s : ShapeBase) handles : forall i (d d' : DrawingArea),
  canvasInvariant d -> pressHandles docPos s i handles d = Some (Some d') ->
  canvasInvariant d'.
Proof.
  induction handles as [|h rest IH]; intros i d d' Hinv; cbn [pressHandles];
    [discriminate|].
  destruct (Rect.contains (Handle.rect h) docPos); [|now apply IH].
  destruct (Handle.type_eqb (Handle.type h) Handle.Arrow).
  - destruct (startArrow docPos (Handle.direction h) s d) as [[d1|]|] eqn:E; [| |faulted];
      cbn [mbind option_bind].
    + intros [= <-]. eapply startArrow_invariant; eauto.
    + now apply IH.
  - intros [= <-]. eapply sameFrame_invariant; [|exact Hinv].
    destruct (Handle.type_eqb (Handle.type h) Handle.Scale); frame_solve.
Qed.

Lemma mousePressEvent_invariant docPos (d d' : DrawingArea) :
  canvasInvariant d -> mousePressEvent docPos d = Some d' -> canvasInvariant d'.
Proof.
  intros Hinv. unfold mousePressEvent.
  destruct (negb (selectedIndex d =? -1));
    [|intros [= <-]; now apply selectAt_invariant].
  destruct (at_ (shapes d) (selectedIndex d)) as [s|]; [|faulted]. cbn [mbind option_bind].
  destruct (pressHandles docPos s 0 (getHandles s) d) as [[d1|]|] eqn:E; [| |faulted];
    cbn [mbind option_bind]; intros [= <-].
  - eapply pressHandles_invariant; eauto.
  - now apply selectAt_invariant.
Qed.

Lemma loadShapes_fields vs : forall d : DrawingArea,
  selectedIndex (fold_left loadShape vs d) = selectedIndex d /\
  arrowConnections (fold_left loadShape vs d) = arrowConnections d /\
  m_ignoreHistoryActions (fold_left loadShape vs d) = m_ignoreHistoryActions d.
Proof.
  induction vs as [|v vs IH]; intros d; cbn [fold_left]; [auto|].
  destruct (IH (loadShape d v)) as (-> & -> & ->).
  unfold loadShape. destruct (shapeOfType _); auto.
Qed.

Lemma loadConnections_fields vs : forall d : DrawingArea,
  selectedIndex (fold_left loadConnection vs d) = selectedIndex d /\
  shapes (fold_left loadConnection vs d) = shapes d /\
  m_ignoreHistoryActions (fold_left loadConnection vs d) = m_ignoreHistoryActions d.
Proof.
  induction vs as [|v vs IH]; intros d; cbn [fold_left]; [auto|].
  destruct (IH (loadConnection d v)) as (-> & -> & ->). auto.
Qed.

Lemma setPageSize_fields sz (d : DrawingArea) :
  selectedIndex (setPageSize sz d) = selectedIndex d /\
  shapes (setPageSize sz d) = shapes d /\
  arrowConnections (setPageSize sz d) = arrowConnections d /\
  m_ignoreHistoryActions (setPageSize sz d) = m_ignoreHistoryActions d.
Proof. unfold setPageSize. destruct (_ && _); auto. Qed.

Lemma loadFromFile_invariant fileName (d : DrawingArea) :
  canvasInvariant d -> canvasInvariant (snd (loadFromFile fileName d)).
Proof.
  intros Hinv. unfold loadFromFile.
  destruct (file_read fileName) as [data|]; [|exact Hinv].
  destruct (QJsonDocument_fromJson data) as [doc|]; [|exact Hinv].
  cbn [snd]. destruct Hinv as [_ (Hi & _ & _)].
  unfold canvasInvariant, selectionValid, historyValid.
  match goal with |- context [fold_left loadConnection ?l ?x] =>
    destruct (loadConnections_history l x) as [-> ->];
    destruct (loadConnections_fields l x) as (-> & _ & ->) end.
  match goal with |- context [fold_left loadShape ?l ?x] =>
    destruct (loadShapes_history l x) as [-> ->];
    destruct (loadShapes_fields l x) as (-> & _ & ->) end.
  match goal with |- context [setPageSize ?l ?x] =>
    destruct (setPageSize_history l x) as [-> ->];
    destruct (setPageSize_fields l x) as (-> & _ & _ & ->) end.
  cbn. auto.
Qed.

Lemma perform_invariant (op : Operation) (d d' : DrawingArea) :
  canvasInvariant d -> perform op d = Some d' -> canvasInvariant d'.
Proof.
  intros Hinv. destruct op; cbn [perform].
  - intros [= <-]. unfold dropEvent. destruct (droppedShape _ _); [|exact Hinv].
    now apply addShape_invariant.
  - intros [= <-]. unfold pasteShape. destruct clipboard; [|exact Hinv].
    now apply addShape_invariant.
  - intros [= <-]. unfold cutSelectedShape. destruct (_ && _); [|exact Hinv].
    now apply deleteSelectedShape_invariant.
  - intros [= <-]. now apply deleteSelectedShape_invariant.
  - unfold keyPressEvent.
    assert (Hdel : (if negb (selectedIndex d =? -1) &&
                       match key event with
                       | Key_Delete | Key_Backspace => true
                       | _ => false
                       end
                    then keyDelete d else Some d) = Some d' -> canvasInvariant d').
    { destruct (_ && _); [|now intros [= <-]].
      rewrite keyDelete_spec. destruct (inRange _ _); [|discriminate].
      intros [= <-]. now apply deleteSelectedShape_invariant. }
    destruct (controlModifier event), (key event); try exact Hdel.
    + now apply undo_invariant.
    + now apply redo_invariant.
  - intros [= <-]. eapply editFrame_invariant; [|exact Hinv].
    apply style_setters_editFrame.
  - intros [= <-]. eapply editFrame_invariant; [|exact Hinv].
    apply style_setters_editFrame.
  - intros [= <-]. apply z_order_invariant; [exact Hinv | cbn; auto].
  - intros [= <-]. apply z_order_invariant; [exact Hinv | cbn; auto].
  - intros [= <-]. apply z_order_invariant; [exact Hinv | cbn; auto].
  - intros [= <-]. apply z_order_invariant; [exact Hinv | cbn; auto 6].
  - now apply mousePressEvent_invariant.
  - intros H. apply mouseMoveEvent_frame in H. eapply sameFrame_invariant; eauto.
  - intros H. apply mouseReleaseEvent_frame in H. eapply editFrame_invariant; eauto.
  - now apply undo_invariant.
  - now apply redo_invariant.
  - intros [= <-]. now apply loadFromFile_invariant.
  - intros [= <-]. destruct Hinv as [_ (Hi & _ & _)].
    split; [left; reflexivity|]. split; [exact Hi|]. split; constructor.
  - intros [= <-]. unfold setGridSize. destruct (_ && _); exact Hinv.
  - intros [= <-]. unfold setPageSize. destruct (_ && _); exact Hinv.
Qed.

Lemma performAll_invariant (ops : list Operation) : forall d d' : DrawingArea,
  canvasInvariant d -> performAll ops d = Some d' -> canvasInvariant d'.
Proof.
  unfold performAll. induction ops as [|op ops IH]; intros d d' Hinv; cbn [foldlM].
  - now intros [= <-].
  - destruct (perform op d) as [d1|] eqn:E; [|faulted]. cbn [mbind option_bind].
    apply IH. eapply perform_invariant; eauto.
Qed.

(** X9. The invariant of the canvas is kept by every entry point, hence by
    every sequence of them that completes: the selection is [-1] or a
    position of the shape list, history recording is switched on between two
    events, and every action on the undo and redo stacks has a non-negative
    index and, for [Add] and [Remove], carries its shape. *)
Theorem operations_keep_invariant (ops : list Operation) (d d' : DrawingArea) :
  canvasInvariant d -> performAll ops d = Some d' -> canvasInvariant d'.
Proof.
  unfold performAll. revert d. induction ops as [|op ops IH]; intros d Hinv; cbn [foldlM].
  - now intros [= <-].
  - destruct (perform op d) as [d1|] eqn:E; [|faulted]. cbn [mbind option_bind].
    apply IH. eapply perform_invariant; eauto.
Qed.

(** X10. In a state with a valid selection, so in every state reached from
    one that satisfies the invariant, the Delete and Backspace keys never run
    into the unguarded erase: the key handler completes and does what
    [deleteSelectedShape] does. *)
Theorem delete_key_safe (ops : list Operation) (event : QKeyEvent) (d d' : DrawingArea) :
  canvasInvariant d -> performAll ops d = Some d' ->
  key event = Key_Delete \/ key event = Key_Backspace ->
  keyPressEvent event d' = Some (deleteSelectedShape d').
Proof.
  intros Hinv Hrun Hkey.
  destruct (performAll_invariant ops d d' Hinv Hrun) as [Hsel _].
  assert (Hkp : keyPressEvent event d' =
                if negb (selectedIndex d' =? -1) then keyDelete d' else Some d').
  { unfold keyPressEvent.
    destruct Hkey as [-> | ->]; destruct (controlModifier event);
      now rewrite andb_true_r. }
  rewrite Hkp, keyDelete_spec. destruct Hsel as [Hsel | Hsel].
  - rewrite Hsel. cbn [Z.eqb negb]. unfold deleteSelectedShape. rewrite Hsel. reflexivity.
  - rewrite Hsel.
    assert (Hne : (selectedIndex d' =? -1) = false) by (unfold inRange in Hsel; blia).
    now rewrite Hne.
Qed.

(** X11. With a valid history, [undo()] and [redo()] can only fail inside
    the connection update of a [Move]: when the call does not complete, the
    action on top of the stack is a [Move] whose index is a position of the
    shape list.  Every other action is replayed, or dropped, without
    undefined behaviour. *)
Theorem undo_redo_fail_only_in_move (d : DrawingArea) :
  historyValid d ->
  (undo d = None ->
   exists a rest, m_undoStack d = a :: rest /\ type a = Move /\
                  inRange (shapeIndex a) (shapes d) = true) /\
  (redo d = None ->
   exists a rest, m_redoStack d = a :: rest /\ type a = Move /\
                  inRange (shapeIndex a) (shapes d) = true).
Proof.
  intros (Hi & Hu & Hr). split.
  - unfold undo. destruct (m_undoStack d) as [|a rest] eqn:Eu; [discriminate|].
    inversion Hu as [|? ? Ha _]; subst.
    destruct (undoAction a _) as [d1|] eqn:E; [discriminate|]. intros _.
    exists a, rest. split; [reflexivity|].
    destruct (type a) eqn:Ht.
    + exfalso. revert E. unfold undoAction. rewrite Ht.
      cbn [shapes set_undoStack set_ignoreHistoryActions].
      destruct (inRange (shapeIndex a) (shapes d)) eqn:Hin; [|discriminate].
      destruct (inRange_lookup _ _ Hin) as (x & _ & ->). discriminate.
    + exfalso. destruct (replayable_shape a Ha (or_intror Ht)) as [s Hs].
      destruct Ha as [H0 _].
      destruct (undoAction_Remove (set_undoStack rest (set_ignoreHistoryActions true d))
                  a s Ht Hs H0) as (d1 & E1 & _).
      congruence.
    + split; [reflexivity|]. revert E. unfold undoAction. rewrite Ht.
      cbn [shapes set_undoStack set_ignoreHistoryActions].
      destruct (inRange (shapeIndex a) (shapes d)); [reflexivity | discriminate].
    + exfalso. revert E. unfold undoAction. rewrite Ht.
      destruct (inRange _ _); discriminate.
    + exfalso. revert E. unfold undoAction. rewrite Ht.
      destruct (inRange _ _); discriminate.
  - unfold redo. destruct (m_redoStack d) as [|a rest] eqn:Eu; [discriminate|].
    inversion Hr as [|? ? Ha _]; subst.
    destruct (redoAction a _) as [d1|] eqn:E; [discriminate|]. intros _.
    exists a, rest. split; [reflexivity|].
    destruct (type a) eqn:Ht.
    + exfalso. destruct (replayable_shape a Ha (or_introl Ht)) as [s Hs].
      destruct Ha as [H0 _]. revert E. unfold redoAction. rewrite Ht, Hs.
      match goal with
      | |- insertClamped ?i ?x ?y = _ -> _ =>
          destruct (insertClamped_fields i x y H0) as (d1 & -> & _)
      end.
      discriminate.
    + exfalso. revert E. unfold redoAction. rewrite Ht.
      destruct (inRange _ _); discriminate.
    + split; [reflexivity|]. revert E. unfold redoAction. rewrite Ht.
      cbn [shapes set_redoStack set_ignoreHistoryActions].
      destruct (inRange (shapeIndex a) (shapes d)); [reflexivity | discriminate].
    + exfalso. revert E. unfold redoAction. rewrite Ht.
      destruct (inRange _ _); discriminate.
    + exfalso. revert E. unfold redoAction. rewrite Ht.
      destruct (inRange _ _); discriminate.
Qed.

Lemma findAnchorNear_bound p dist anchors : forall j0 j pt,
  findAnchorNear p dist j0 anchors = Some (j, pt) ->
  (j0 <= j < j0 + length anchors)%nat.
Proof.
  induction anchors as [|a rest IH]; intros j0 j pt; cbn [findAnchorNear length];
    [discriminate|].
  destruct (_ <=? _).
  - intros [= <- _]. lia.
  - intros H. apply IH in H. lia.
Qed.

Lemma refreshStep_completes i s (moved : ShapeBase) acc c :
  slotExists s moved c ->
  exists r, refreshStep i s (getArrowAnchors moved) acc c = Some r.
Proof.
  intros Hc. destruct acc as [[arrow sc] ec]. unfold refreshStep.
  destruct ((ArrowConnection.arrowIndex c =? Z.of_nat i) &&
            (ArrowConnection.shapeIndex c =? s)) eqn:E; [|eauto].
  apply andb_true_iff in E as [_ E]. apply Z.eqb_eq in E.
  destruct (inRange_lookup _ _ (Hc E)) as (anchor & _ & ->).
  cbn [mbind option_bind]. eauto.
Qed.

Lemma refresh_completes i s (moved : ShapeBase) conns : forall acc,
  Forall (slotExists s moved) conns ->
  exists r, foldlM (refreshStep i s (getArrowAnchors moved)) conns acc = Some r.
Proof.
  induction conns as [|c conns IH]; intros acc Hall; cbn [foldlM]; [eauto|].
  inversion Hall as [|? ? Hc Hrest]; subst.
  destruct (refreshStep_completes i s moved acc c Hc) as [r ->].
  cbn [mbind option_bind]. now apply IH.
Qed.

Lemma adoptEndpoint_slots i s (moved : ShapeBase) f connected p (arrow : ShapeBase) conns :
  Forall (slotExists s moved) conns ->
  Forall (slotExists s moved)
         (snd (adoptEndpoint i s (getArrowAnchors moved) f connected p (arrow, conns))).
Proof.
  intros Hall. unfold adoptEndpoint. destruct connected; [exact Hall|].
  destruct (findAnchorNear p 5 0 (getArrowAnchors moved)) as [[j pt]|] eqn:E; [|exact Hall].
  cbn [snd]. apply Forall_app. split; [exact Hall|]. constructor; [|constructor].
  intros _. cbn. apply findAnchorNear_bound in E. apply inRange_of_nat. lia.
Qed.

Lemma secondPassStep_completes s (moved : ShapeBase) (shs : list ShapeBase) conns i :
  at_ shs s = Some moved -> (i < length shs)%nat ->
  Forall (slotExists s moved) conns ->
  exists shs' conns',
    secondPassStep s (shs, conns) i = Some (shs', conns') /\
    at_ shs' s = Some moved /\ length shs' = length shs /\
    Forall (slotExists s moved) conns'.
Proof.
  intros Hm Hi Hall.
  destruct (lookup_lt_is_Some_2 shs i Hi) as [sh Hsh].
  unfold secondPassStep. rewrite Hsh. cbn [mbind option_bind].
  destruct (negb (isArrow sh) || (Z.of_nat i =? s)) eqn:E.
  { exists shs, conns. auto. }
  rewrite Hm. cbn [mbind option_bind].
  destruct (refresh_completes i s moved conns (sh, false, false) Hall) as [[[arrow sc] ec] ->].
  cbn [mbind option_bind].
  pose proof (adoptEndpoint_slots i s moved true sc (p1 (getLine sh)) arrow conns Hall) as H1.
  destruct (adoptEndpoint i s (getArrowAnchors moved) true sc _ (arrow, conns))
    as [arrow1 conns1]. cbn [snd] in H1.
  pose proof (adoptEndpoint_slots i s moved false ec (p2 (getLine sh)) arrow1 conns1 H1) as H2.
  destruct (adoptEndpoint i s (getArrowAnchors moved) false ec _ (arrow1, conns1))
    as [arrow2 conns2]. cbn [snd] in H2.
  eexists. eexists. split; [reflexivity|]. split; [|split; [apply length_insert | exact H2]].
  revert Hm. unfold at_. destruct (s <? 0) eqn:E0; [discriminate|].
  intros Hm. rewrite list_lookup_insert_ne; [exact Hm|]. blia.
Qed.

Lemma secondPass_fold_completes s (moved : ShapeBase) is_ :
  forall (shs : list ShapeBase) conns,
  at_ shs s = Some moved ->
  Forall (fun i => (i < length shs)%nat) is_ ->
  Forall (slotExists s moved) conns ->
  exists r, foldlM (secondPassStep s) is_ (shs, conns) = Some r.
Proof.
  induction is_ as [|i is_ IH]; intros shs conns Hm Hin Hall; cbn [foldlM]; [eauto|].
  inversion Hin as [|? ? Hi Hrest]; subst.
  destruct (secondPassStep_completes s moved shs conns i Hm Hi Hall)
    as (shs' & conns' & -> & Hm' & Hlen & Hall').
  cbn [mbind option_bind]. apply IH; auto. now rewrite Hlen.
Qed.

Lemma firstPass_keeps_shape s delta anchors conns (shs : list ShapeBase) i (x : ShapeBase) :
  at_ shs i = Some x -> isArrow x = false ->
  at_ (firstPass s delta anchors conns shs) i = Some x.
Proof.
  unfold at_. destruct (i <? 0); [discriminate|]. intros Hx Hk.
  destruct (firstPass_reconnected s delta anchors conns shs _ _ Hx) as (x' & -> & R).
  unfold reconnected in R. rewrite Hk in R. now rewrite R.
Qed.

(** X12. A connection update completes whenever the slots it reads exist:
    if the moved shape is not an arrow and every connection to it names an
    anchor slot that the shape has, the call returns a state.  (The call
    also returns at once for an index outside the shape list.) *)
Theorem updateConnectedArrows_completes (s : Z) (delta : QPoint) (d : DrawingArea)
  (moved : ShapeBase) :
  at_ (shapes d) s = Some moved ->
  isArrow moved = false ->
  Forall (slotExists s moved) (arrowConnections d) ->
  exists d', updateConnectedArrows s delta d = Some d'.
Proof.
  intros Hm Hk Hall. unfold updateConnectedArrows.
  destruct ((s <? 0) || (Z.of_nat (length (shapes d)) <=? s)); [eauto|].
  rewrite Hm. cbn [mbind option_bind]. cbv zeta. unfold secondPass.
  destruct (secondPass_fold_completes s moved
              (seq 0 (length (firstPass s delta (getArrowAnchors moved) (arrowConnections d)
                                (shapes d))))
              (firstPass s delta (getArrowAnchors moved) (arrowConnections d) (shapes d))
              (arrowConnections d)) as [[shs conns] ->]; auto.
  - now apply firstPass_keeps_shape.
  - apply Forall_forall. intros i Hi. apply elem_of_seq in Hi. lia.
  - cbn [mbind option_bind]. eauto.
Qed.

(** *** Gestures *)

Lemma performAll_app (ops1 ops2 : list Operation) (d : DrawingArea) :
  performAll (ops1 ++ ops2) d = d1 ← performAll ops1 d; performAll ops2 d1.
Proof. unfold performAll. apply foldlM_app. Qed.

Lemma alter_fixed (l : list ShapeBase) (i : nat) (s : ShapeBase) f :
  l !! i = Some s -> f s = s -> alter f i l = l.
Proof.
  intros Hs Hf. apply list_eq. intros j. destruct (decide (j = i)) as [->|Hne].
  - rewrite list_lookup_alter_eq, Hs. cbn. now rewrite Hf.
  - now rewrite list_lookup_alter_ne by auto.
Qed.

Lemma moveBy_shape delta (s : ShapeBase) :
  isArrow s = false ->
  moveBy delta s = set_m_rect (Rect.translated delta (m_rect s)) s /\
  isArrow (moveBy delta s) = false /\
  isHandleSelected (moveBy delta s) = isHandleSelected s.
Proof. intros Hk. unfold moveBy. rewrite Hk. auto. Qed.

Lemma moveBy_moveBy a b (s : ShapeBase) :
  isArrow s = false -> moveBy b (moveBy a s) = moveBy (Point.add a b) s.
Proof.
  intros Hk. destruct (moveBy_shape a s Hk) as (Ha & Hka & _).
  destruct (moveBy_shape b _ Hka) as (Hb & _ & _).
  destruct (moveBy_shape (Point.add a b) s Hk) as (Hab & _ & _).
  rewrite Hb, Ha, Hab. unfold set_m_rect, Rect.translated, Point.add. cbn.
  f_equal. f_equal; lia.
Qed.

Lemma moveBy_zero p (s : ShapeBase) :
  isArrow s = false -> moveBy (Point.sub p p) s = s.
Proof.
  intros Hk. destruct (moveBy_shape (Point.sub p p) s Hk) as (-> & _ & _).
  destruct s as [k [x1 y1 x2 y2] l c w rot h].
  unfold set_m_rect, Rect.translated, Point.sub. cbn. f_equal. f_equal; lia.
Qed.

Lemma moveBy_back delta (s : ShapeBase) :
  isArrow s = false -> moveBy (Point.neg delta) (moveBy delta s) = s.
Proof.
  intros Hk. rewrite moveBy_moveBy by exact Hk.
  destruct (moveBy_shape (Point.add delta (Point.neg delta)) s Hk) as (-> & _ & _).
  destruct s as [k [x1 y1 x2 y2] l c w rot h].
  unfold set_m_rect, Rect.translated, Point.add, Point.neg. cbn. f_equal. f_equal; lia.
Qed.

Lemma last_cons {A} (x d : A) (l : list A) : List.last (x :: l) d = List.last l x.
Proof.
  revert x d. induction l as [|y l IH]; intros x d; [reflexivity|].
  change (List.last (x :: y :: l) d) with (List.last (y :: l) d).
  rewrite !IH. reflexivity.
Qed.

(** The state that a connection update of shape [i] returns when that shape
    is not an arrow: every field but the shapes and the connections is kept,
    and shape [i] itself is kept. *)
Lemma updateConnectedArrows_keeps_moved (i : nat) delta (d d' : DrawingArea) (x : ShapeBase) :
  updateConnectedArrows (Z.of_nat i) delta d = Some d' ->
  shapes d !! i = Some x -> isArrow x = false ->
  shapes d' !! i = Some x /\
  exists shs conns, d' = set_arrowConnections conns (set_shapes shs d).
Proof.
  intros H Hx Hk.
  apply updateConnectedArrows_frame in H as (shs & conns & -> & _ & _ & Hsh).
  destruct (Hsh i x Hx) as (x' & Hx' & R). unfold reconnected in R. rewrite Hk in R.
  subst x'. split; [exact Hx' | eauto].
Qed.

Lemma drag_step (i : nat) (cur : ShapeBase) p start p' snap (d d1 : DrawingArea) :
  grabbedAt i cur p start d ->
  mouseMoveEvent p' snap d = Some d1 ->
  grabbedAt i (moveBy (Point.sub p' p) cur) p' start d1 /\ sameFrame d d1.
Proof.
  intros (Hd & Hsel & Hs & Hk & Hh & Hl & Hst) Hm.
  pose proof (mouseMoveEvent_frame _ _ _ _ Hm) as Hf. split; [|exact Hf].
  revert Hm. unfold mouseMoveEvent. rewrite Hd, Hsel, at_of_nat, Hs.
  assert (Hne : negb (Z.of_nat i =? -1) = true) by (apply negb_true_iff; blia).
  rewrite Hne. cbn [andb mbind option_bind]. rewrite Hh, Hk. cbn [negb]. cbv zeta.
  rewrite Nat2Z.id, Hl.
  assert (Hin : inRange (Z.of_nat i)
                  (shapes (modifyShape i (moveBy (Point.sub p' p)) d)) = true).
  { apply inRange_of_nat. cbn [shapes modifyShape set_shapes]. rewrite length_alter.
    now apply lookup_lt_Some in Hs. }
  assert (Hsel' : selectedIndex (modifyShape i (moveBy (Point.sub p' p)) d) = Z.of_nat i)
    by exact Hsel.
  rewrite Hsel', Hin.
  destruct (updateConnectedArrows _ _ _) as [d2|] eqn:E; [|faulted].
  cbn [mbind option_bind]. intros [= <-].
  destruct (moveBy_shape (Point.sub p' p) cur Hk) as (_ & Hk' & Hh').
  destruct (updateConnectedArrows_keeps_moved i _ _ _ (moveBy (Point.sub p' p) cur) E)
    as (Hx & shs & conns & ->); [|exact Hk'|].
  { cbn [shapes modifyShape set_shapes]. now rewrite list_lookup_alter_eq, Hs. }
  unfold grabbedAt. rewrite Hk', Hh', Hh. cbn in Hx |- *. auto 10.
Qed.

Lemma drag_moves snap ps : forall (i : nat) (cur : ShapeBase) p start (d d1 : DrawingArea),
  grabbedAt i cur p start d ->
  performAll (dragMoves ps snap) d = Some d1 ->
  grabbedAt i (moveBy (Point.sub (List.last ps p) p) cur) (List.last ps p) start d1 /\
  sameFrame d d1.
Proof.
  induction ps as [|p' ps IH]; intros i cur p start d d1 Hg.
  - cbn. intros [= <-]. split; [|apply sameFrame_refl].
    destruct Hg as (Hd & Hsel & Hs & Hk & Hh & Hl & Hst).
    rewrite (moveBy_zero p cur Hk). unfold grabbedAt. auto 10.
  - unfold performAll, dragMoves. cbn [map foldlM perform].
    destruct (mouseMoveEvent p' snap d) as [d2|] eqn:E; [|faulted].
    cbn [mbind option_bind]. intros Hrun.
    destruct (drag_step _ _ _ _ _ _ _ _ Hg E) as [Hg2 Hf2].
    destruct (IH _ _ _ _ _ _ Hg2 Hrun) as [Hg1 Hf1].
    split; [|eapply sameFrame_trans; eauto].
    rewrite last_cons.
    destruct Hg as (_ & _ & _ & Hk & _).
    rewrite (moveBy_moveBy _ _ _ Hk) in Hg1.
    replace (Point.add (Point.sub p' p) (Point.sub (List.last ps p') p'))
      with (Point.sub (List.last ps p') p) in Hg1; [exact Hg1|].
    unfold Point.add, Point.sub. cbn. f_equal; lia.
Qed.

Lemma manhattan_pos (q p : QPoint) :
  q <> p -> (0 <? Point.manhattanLength (Point.sub q p)) = true.
Proof.
  intros Hne. apply Z.ltb_lt. unfold Point.manhattanLength, Point.sub. cbn.
  destruct (Z.eq_dec (px q) (px p)) as [Hx|Hx]; [|lia].
  destruct (Z.eq_dec (py q) (py p)) as [Hy|Hy]; [|lia].
  exfalso. apply Hne. destruct q, p. cbn in *. congruence.
Qed.

Lemma release_after_drag (i : nat) (cur : ShapeBase) pl start q snap (d d1 : DrawingArea) :
  grabbedAt i cur pl start d ->
  m_ignoreHistoryActions d = false ->
  q <> start ->
  mouseReleaseEvent q snap d = Some d1 ->
  shapes d1 = shapes d /\
  arrowConnections d1 = arrowConnections d /\
  selectedIndex d1 = Z.of_nat i /\
  dragging d1 = false /\
  m_undoStack d1 = moveAction i (Point.sub q start) :: m_undoStack d /\
  m_redoStack d1 = [] /\
  m_ignoreHistoryActions d1 = false.
Proof.
  intros (Hd & Hsel & Hs & Hk & Hh & Hl & Hst) Hi Hq.
  unfold mouseReleaseEvent, releaseSelected. rewrite Hsel, at_of_nat, Hs.
  assert (Hne : (Z.of_nat i =? -1) = false) by blia.
  rewrite Hne. cbn [mbind option_bind]. rewrite Hk, Hd, Hh, Hst. cbn [negb andb].
  rewrite (manhattan_pos _ _ Hq).
  assert (Hrec : recordMoveShape (Z.of_nat i) (Point.sub q start) d =
                 clearRedoStack (pushUndo (moveAction i (Point.sub q start)) d)).
  { unfold recordMoveShape. rewrite Hi. cbn [orb].
    destruct ((Z.of_nat i <? 0) || (Z.of_nat (length (shapes d)) <=? Z.of_nat i)) eqn:E;
      [|reflexivity].
    apply lookup_lt_Some in Hs. blia. }
  rewrite Hrec.
  cbn [selectedIndex clearRedoStack pushUndo set_redoStack set_undoStack].
  rewrite Hsel, Nat2Z.id.
  cbn [mbind option_bind]. intros [= <-].
  cbn [shapes arrowConnections selectedIndex dragging m_undoStack m_redoStack
       m_ignoreHistoryActions modifyShape set_shapes set_dragging set_snappedHandle
       clearRedoStack pushUndo set_redoStack set_undoStack].
  rewrite Hsel, Hi. repeat split; auto.
  apply (alter_fixed _ _ cur); [exact Hs|].
  unfold isHandleSelected in Hh. apply negb_false_iff, Z.eqb_eq in Hh.
  unfold clearHandleSelection, setSelectedHandleIndex. rewrite <- Hh. now destruct cur.
Qed.

Lemma undo_Move_step (i : nat) delta (d d2 : DrawingArea) (rest : list HistoryAction)
  (cur : ShapeBase) :
  m_undoStack d = moveAction i delta :: rest ->
  shapes d !! i = Some cur -> isArrow cur = false ->
  undo d = Some d2 ->
  shapes d2 !! i = Some (moveBy (Point.neg delta) cur) /\
  m_undoStack d2 = rest /\
  m_redoStack d2 = moveAction i delta :: m_redoStack d /\
  selectedIndex d2 = selectedIndex d.
Proof.
  intros Hu Hs Hk. rewrite (undo_unfold d _ _ Hu). unfold undoAction.
  cbn [type moveAction set_moveDelta HistoryAction_new shapeIndex moveDelta shapes
       set_undoStack set_ignoreHistoryActions].
  assert (Hin : inRange (Z.of_nat i) (shapes d) = true).
  { apply inRange_of_nat. now apply lookup_lt_Some in Hs. }
  rewrite Hin, Nat2Z.id.
  destruct (updateConnectedArrows _ _ _) as [d1|] eqn:E; [|faulted].
  cbn [mbind option_bind]. intros [= <-].
  destruct (moveBy_shape (Point.neg delta) cur Hk) as (_ & Hk' & _).
  destruct (updateConnectedArrows_keeps_moved i _ _ _ (moveBy (Point.neg delta) cur) E)
    as (Hx & shs & conns & ->); [|exact Hk'|].
  { cbn [shapes modifyShape set_shapes pushRedo set_redoStack set_undoStack
         set_ignoreHistoryActions].
    now rewrite list_lookup_alter_eq, Hs. }
  cbn in Hx |- *. auto.
Qed.

(** X13. Dragging a shape by its body and undoing the drag puts the shape
    back exactly.  From the state after the press (shape [i], not an arrow,
    no handle selected, grabbed at [p0]), on a canvas that records history:
    when the pointer moves through the positions [ps] and the button is
    released at the last of them, away from [p0], the shape has been
    translated by the whole displacement, exactly one [Move] with that
    displacement is on top of the undo stack and the redo stack is empty; an
    undo that completes then gives the shape as it was before the drag and
    the undo stack from before the drag. *)
Theorem drag_then_undo_restores_shape (i : nat) (s : ShapeBase) (p0 : QPoint)
  (ps : list QPoint) (snapDistance : Z) (d d1 : DrawingArea) :
  grabbedAt i s p0 p0 d ->
  m_ignoreHistoryActions d = false ->
  let q := List.last ps p0 in
  q <> p0 ->
  performAll (dragMoves ps snapDistance ++ [OpRelease q snapDistance]) d = Some d1 ->
  shapes d1 !! i = Some (moveBy (Point.sub q p0) s) /\
  m_undoStack d1 = moveAction i (Point.sub q p0) :: m_undoStack d /\
  m_redoStack d1 = [] /\
  dragging d1 = false /\
  forall d2, undo d1 = Some d2 ->
    shapes d2 !! i = Some s /\ m_undoStack d2 = m_undoStack d.
Proof.
  intros Hg Hi q Hq. rewrite performAll_app.
  destruct (performAll (dragMoves ps snapDistance) d) as [dm|] eqn:Em; [|faulted].
  cbn [mbind option_bind]. unfold performAll at 1. cbn [foldlM perform].
  destruct (mouseReleaseEvent q snapDistance dm) as [dr|] eqn:Er; [|faulted].
  cbn [mbind option_bind]. intros [= <-].
  destruct (drag_moves _ _ _ _ _ _ _ _ Hg Em) as [Hgm (_ & _ & Fu & Fr & Fi)].
  fold q in Hgm.
  assert (Him : m_ignoreHistoryActions dm = false) by congruence.
  destruct (release_after_drag _ _ _ _ _ _ _ _ Hgm Him Hq Er)
    as (R1 & R2 & R3 & R4 & R5 & R6 & R7).
  destruct Hgm as (_ & _ & Hs & Hk & _).
  destruct Hg as (_ & _ & _ & Hk0 & _).
  rewrite R1, R5, R6, Fu. repeat split; auto.
  - destruct (undo_Move_step i _ dr d2 _ _ R5 ltac:(rewrite R1; exact Hs) Hk H)
      as (U1 & _). rewrite U1. f_equal. now apply moveBy_back.
  - destruct (undo_Move_step i _ dr d2 _ _ R5 ltac:(rewrite R1; exact Hs) Hk H)
      as (_ & U2 & _). rewrite U2. exact Fu.
Qed.

Lemma Rect_eqb_eq (a b : QRect) : Rect.eqb a b = true <-> a = b.
Proof.
  unfold Rect.eqb. destruct a, b; cbn. rewrite !andb_true_iff, !Z.eqb_eq. split.
  - intros [[[-> ->] ->] ->]. reflexivity.
  - intros [= -> -> -> ->]. auto.
Qed.

Lemma set_m_rect_twice r r' (s : ShapeBase) : set_m_rect r' (set_m_rect r s) = set_m_rect r' s.
Proof. reflexivity. Qed.

Lemma handleAnchorInteraction_scale (s : ShapeBase) (mousePos lastMousePos : QPoint) :
  isArrow s = false -> 0 <= m_selectedHandleIndex s <= 7 ->
  exists r, snd (handleAnchorInteraction s mousePos lastMousePos) = set_m_rect r s.
Proof.
  intros Hs Hk.
  destruct (getHandles_scale s _ Hs Hk) as (h & Hh & Hty & _).
  pose proof (length_getHandles s Hs) as Hlen.
  unfold handleAnchorInteraction.
  destruct (m_selectedHandleIndex s =? -1) eqn:E1; [blia|].
  destruct ((m_selectedHandleIndex s <? 0) ||
            (Z.of_nat (length (getHandles s)) <=? m_selectedHandleIndex s)) eqn:E2; [blia|].
  rewrite Hh, Hty. cbn [Handle.type_eqb].
  destruct (Rect.isEmpty _); cbn [snd].
  - exists (m_rect s). symmetry. apply set_m_rect_same.
  - unfold resize, setRect. rewrite Hs. eauto.
Qed.

Lemma resize_step (i : nat) (cur : ShapeBase) r0 p' snap (d d1 : DrawingArea) :
  resizingAt i cur r0 d ->
  mouseMoveEvent p' snap d = Some d1 ->
  (exists r, resizingAt i (set_m_rect r cur) r0 d1) /\ sameFrame d d1.
Proof.
  intros (Hd & Hrs & Hsel & Hs & Hk & Hh & Ho) Hm.
  pose proof (mouseMoveEvent_frame _ _ _ _ Hm) as Hf. split; [|exact Hf].
  revert Hm. unfold mouseMoveEvent. rewrite Hd, Hsel, at_of_nat, Hs.
  assert (Hne : negb (Z.of_nat i =? -1) = true) by (apply negb_true_iff; blia).
  rewrite Hne. cbn [andb mbind option_bind].
  assert (Hsl : isHandleSelected cur = true).
  { unfold isHandleSelected. apply negb_true_iff. blia. }
  rewrite Hsl, Hk. cbv zeta. rewrite Nat2Z.id.
  destruct (handleAnchorInteraction_scale cur p' (lastMousePos d) Hk Hh) as [r Hr].
  set (f := fun s0 : ShapeBase => snd (handleAnchorInteraction s0 p' (lastMousePos d))).
  assert (Hsel' : selectedIndex (modifyShape i f d) = Z.of_nat i) by exact Hsel.
  rewrite Hsel'.
  destruct (updateConnectedArrows _ _ _) as [d2|] eqn:E; [|faulted].
  cbn [mbind option_bind]. intros [= <-].
  destruct (updateConnectedArrows_keeps_moved i _ _ _ (set_m_rect r cur) E)
    as (Hx & shs & conns & ->); [|exact Hk|].
  { cbn [shapes modifyShape set_shapes]. rewrite list_lookup_alter_eq, Hs. cbn.
    unfold f. now rewrite Hr. }
  exists r. unfold resizingAt. cbn in Hx |- *. auto 10.
Qed.

Lemma resize_moves snap ps : forall (i : nat) (cur : ShapeBase) r0 (d d1 : DrawingArea),
  resizingAt i cur r0 d ->
  performAll (dragMoves ps snap) d = Some d1 ->
  (exists r, resizingAt i (set_m_rect r cur) r0 d1) /\ sameFrame d d1.
Proof.
  induction ps as [|p' ps IH]; intros i cur r0 d d1 Hg.
  - cbn. intros [= <-]. split; [|apply sameFrame_refl].
    exists (m_rect cur). now rewrite set_m_rect_same.
  - unfold performAll, dragMoves. cbn [map foldlM perform].
    destruct (mouseMoveEvent p' snap d) as [d2|] eqn:E; [|faulted].
    cbn [mbind option_bind]. intros Hrun.
    destruct (resize_step _ _ _ _ _ _ _ Hg E) as [[r Hg2] Hf2].
    destruct (IH _ _ _ _ _ Hg2 Hrun) as [[r' Hg1] Hf1].
    split; [|eapply sameFrame_trans; eauto].
    exists r'. exact Hg1.
Qed.

Lemma release_after_resize (i : nat) (cur : ShapeBase) r0 q snap (d d1 : DrawingArea) :
  resizingAt i cur r0 d ->
  m_ignoreHistoryActions d = false ->
  mouseReleaseEvent q snap d = Some d1 ->
  shapes d1 = alter clearHandleSelection i (shapes d) /\
  resizing d1 = false /\ dragging d1 = false /\
  m_ignoreHistoryActions d1 = false /\
  (m_rect cur = r0 ->
   m_undoStack d1 = m_undoStack d /\ m_redoStack d1 = m_redoStack d) /\
  (m_rect cur <> r0 ->
   m_undoStack d1 = resizeAction i r0 (m_rect cur) :: m_undoStack d /\ m_redoStack d1 = []).
Proof.
  intros (Hd & Hrs & Hsel & Hs & Hk & Hh & Ho) Hi.
  unfold mouseReleaseEvent, releaseSelected. rewrite Hsel, at_of_nat, Hs.
  assert (Hne : (Z.of_nat i =? -1) = false) by blia.
  rewrite Hne. cbn [mbind option_bind].
  assert (Hsl : isHandleSelected cur = true).
  { unfold isHandleSelected. apply negb_true_iff. blia. }
  rewrite Hk, Hd, Hrs, Hsl, Ho. cbn [negb andb].
  assert (Hget : getRect cur = m_rect cur) by (unfold getRect; now rewrite Hk).
  rewrite Hget.
  destruct (Rect.eqb (m_rect cur) r0) eqn:Eq; cbn [negb].
  - apply Rect_eqb_eq in Eq.
    cbn [selectedIndex set_resizing]. rewrite Hsel, Nat2Z.id.
    intros [= <-]. cbn. rewrite Hi.
    do 4 (split; [reflexivity|]).
    split; [intros _; split; reflexivity | intros Hc; now elim Hc].
  - assert (Hneq : m_rect cur <> r0).
    { intros Hc. apply Rect_eqb_eq in Hc. congruence. }
    assert (Hrec : recordResizeShape (Z.of_nat i) r0 (m_rect cur) d =
                   clearRedoStack (pushUndo (resizeAction i r0 (m_rect cur)) d)).
    { unfold recordResizeShape. rewrite Hi. cbn [orb].
      destruct ((Z.of_nat i <? 0) || (Z.of_nat (length (shapes d)) <=? Z.of_nat i)) eqn:E;
        [|reflexivity].
      apply lookup_lt_Some in Hs. blia. }
    rewrite Hrec.
    cbn [selectedIndex set_resizing clearRedoStack pushUndo set_redoStack set_undoStack].
    rewrite Hsel, Nat2Z.id. intros [= <-]. cbn. rewrite Hi.
    do 4 (split; [reflexivity|]).
    split; [intros Hc; now elim Hneq | intros _; split; reflexivity].
Qed.

(** X14. Resizing a shape by a scale handle and undoing it restores the
    rectangle.  From the state after the press on one of the eight scale
    handles of shape [i] (not an arrow, [originalRect] holding its
    rectangle), on a canvas that records history: after any pointer moves
    and the release, the shape differs from the original at most in its
    rectangle [r] and has no handle selected, and the resize mode is off;
    when [r] is the original rectangle nothing was recorded; otherwise
    exactly one [Resize] from the original rectangle to [r] is on top of the
    undo stack, and an undo completes and gives the original shape (with no
    handle selected) and the undo stack from before the gesture. *)
Theorem resize_then_undo_restores_rect (i : nat) (s : ShapeBase) (ps : list QPoint)
  (q : QPoint) (snapDistance : Z) (d d1 : DrawingArea) :
  resizingAt i s (m_rect s) d ->
  m_ignoreHistoryActions d = false ->
  performAll (dragMoves ps snapDistance ++ [OpRelease q snapDistance]) d = Some d1 ->
  exists r,
    shapes d1 !! i = Some (clearHandleSelection (set_m_rect r s)) /\
    resizing d1 = false /\ dragging d1 = false /\
    (r = m_rect s -> m_undoStack d1 = m_undoStack d) /\
    (r <> m_rect s ->
     m_undoStack d1 = resizeAction i (m_rect s) r :: m_undoStack d /\
     m_redoStack d1 = [] /\
     exists d2,
       undo d1 = Some d2 /\
       shapes d2 !! i = Some (clearHandleSelection s) /\
       m_undoStack d2 = m_undoStack d).
Proof.
  intros Hg Hi. rewrite performAll_app.
  destruct (performAll (dragMoves ps snapDistance) d) as [dm|] eqn:Em; [|faulted].
  cbn [mbind option_bind]. unfold performAll at 1. cbn [foldlM perform].
  destruct (mouseReleaseEvent q snapDistance dm) as [dr|] eqn:Er; [|faulted].
  cbn [mbind option_bind]. intros [= <-].
  destruct (resize_moves _ _ _ _ _ _ _ Hg Em) as [[r Hgm] (_ & _ & Fu & Fr & Fi)].
  assert (Him : m_ignoreHistoryActions dm = false) by congruence.
  destruct (release_after_resize _ _ _ _ _ _ _ Hgm Him Er)
    as (R1 & R2 & R3 & R4 & R5 & R6).
  destruct Hgm as (_ & _ & _ & Hs & _).
  destruct Hg as (_ & _ & _ & Hs0 & Hk0 & _).
  assert (Hsh : shapes dr !! i = Some (clearHandleSelection (set_m_rect r s))).
  { rewrite R1, list_lookup_alter_eq, Hs. reflexivity. }
  exists r. split; [exact Hsh|]. split; [exact R2|]. split; [exact R3|].
  cbn [m_rect set_m_rect] in R5, R6. split.
  - intros Hr. destruct (R5 Hr) as [-> _]. exact Fu.
  - intros Hr. destruct (R6 Hr) as [Hu Hre]. rewrite Hu, Fu.
    split; [reflexivity|]. split; [exact Hre|].
    assert (Hin : inRange (shapeIndex (resizeAction i (m_rect s) r)) (shapes dr) = true).
    { cbn [shapeIndex resizeAction set_rects HistoryAction_new].
      apply inRange_of_nat. now apply lookup_lt_Some in Hsh. }
    destruct (undo_edit_step dr _ _ Hu (or_introl eq_refl) Hin)
      as (d2 & U0 & U1 & _ & _ & U4 & _).
    exists d2. split; [exact U0|]. split; [|now rewrite U4].
    rewrite U1. cbn [type shapeIndex resizeAction set_rects HistoryAction_new oldRect].
    rewrite Nat2Z.id, list_lookup_alter_eq, Hsh. cbn.
    unfold setRect.
    assert (Hk' : isArrow (clearHandleSelection (set_m_rect r s)) = false) by exact Hk0.
    rewrite Hk'. reflexivity.
Qed.

(** *** Documents *)

Lemma loadShapes_shapes vs : forall d : DrawingArea,
  shapes (fold_left loadShape vs d) = shapes d ++ omap loadedShape vs.
Proof.
  induction vs as [|v vs IH]; intros d; cbn [fold_left omap list_omap].
  - now rewrite app_nil_r.
  - rewrite IH. unfold loadShape, loadedShape. cbv zeta.
    destruct (shapeOfType _) as [s|]; cbn [mbind option_bind shapes set_shapes].
    + now rewrite <- app_assoc.
    + reflexivity.
Qed.

Lemma loadConnections_connections vs : forall d : DrawingArea,
  arrowConnections (fold_left loadConnection vs d) =
    arrowConnections d ++ map loadedConnection vs.
Proof.
  induction vs as [|v vs IH]; intros d; cbn [fold_left map].
  - now rewrite app_nil_r.
  - rewrite IH. unfold loadConnection, loadedConnection. cbn [arrowConnections set_arrowConnections].
    now rewrite <- app_assoc.
Qed.

Lemma loadShapes_other vs : forall d : DrawingArea,
  m_gridSize (fold_left loadShape vs d) = m_gridSize d /\
  m_bgColor (fold_left loadShape vs d) = m_bgColor d /\
  m_pageSize (fold_left loadShape vs d) = m_pageSize d.
Proof.
  induction vs as [|v vs IH]; intros d; cbn [fold_left]; [auto|].
  destruct (IH (loadShape d v)) as (-> & -> & ->).
  unfold loadShape. destruct (shapeOfType _); auto.
Qed.

Lemma loadConnections_other vs : forall d : DrawingArea,
  m_gridSize (fold_left loadConnection vs d) = m_gridSize d /\
  m_bgColor (fold_left loadConnection vs d) = m_bgColor d /\
  m_pageSize (fold_left loadConnection vs d) = m_pageSize d.
Proof.
  induction vs as [|v vs IH]; intros d; cbn [fold_left]; [auto|].
  destruct (IH (loadConnection d v)) as (-> & -> & ->). auto.
Qed.

Lemma setPageSize_other sz (d : DrawingArea) :
  m_gridSize (setPageSize sz d) = m_gridSize d /\
  m_bgColor (setPageSize sz d) = m_bgColor d.
Proof. unfold setPageSize. destruct (_ && _); auto. Qed.

Lemma setPageSize_pageSize sz (d d0 : DrawingArea) :
  m_pageSize d0 = m_pageSize d ->
  m_pageSize (setPageSize sz d0) = m_pageSize (setPageSize sz d).
Proof. intros H. unfold setPageSize. rewrite H. destruct (_ && _); auto. Qed.

Lemma loadFromFile_fields fileName data doc (d : DrawingArea) :
  file_read fileName = Some data ->
  QJsonDocument_fromJson data = Some doc ->
  let root := Json.toObject doc in
  let sizeObj := Json.toObject (Json.get "size" root) in
  let d' := snd (loadFromFile fileName d) in
  fst (loadFromFile fileName d) = true /\
  shapes d' = omap loadedShape (Json.toArray (Json.get "shapes" root)) /\
  arrowConnections d' = map loadedConnection (Json.toArray (Json.get "connections" root)) /\
  selectedIndex d' = -1 /\
  m_gridSize d' = Json.toInt (Json.get "gridSize" root) /\
  m_bgColor d' = QColor_fromName (Json.toString (Json.get "backgroundColor" root)) /\
  m_pageSize d' =
    m_pageSize (setPageSize (mkQSize (Json.toInt (Json.get "width" sizeObj))
                                     (Json.toInt (Json.get "height" sizeObj))) d) /\
  m_undoStack d' = [] /\ m_redoStack d' = [].
Proof.
  intros Hf Hj root sizeObj d'. subst d'. unfold loadFromFile. rewrite Hf, Hj.
  cbn [fst snd]. fold root. fold sizeObj.
  split; [reflexivity|].
  match goal with |- context [fold_left loadConnection ?l ?x] =>
    destruct (loadConnections_history l x) as [-> ->];
    destruct (loadConnections_fields l x) as (-> & -> & _);
    destruct (loadConnections_other l x) as (-> & -> & ->);
    rewrite (loadConnections_connections l x) end.
  match goal with |- context [fold_left loadShape ?l ?x] =>
    destruct (loadShapes_history l x) as [-> ->];
    destruct (loadShapes_fields l x) as (-> & -> & _);
    destruct (loadShapes_other l x) as (-> & -> & ->);
    rewrite (loadShapes_shapes l x) end.
  match goal with |- context [setPageSize ?l ?x] =>
    destruct (setPageSize_history l x) as [-> ->];
    destruct (setPageSize_fields l x) as (-> & -> & -> & _);
    destruct (setPageSize_other l x) as (-> & ->);
    rewrite (setPageSize_pageSize l d x) by reflexivity end.
  cbn. auto 10.
Qed.

Lemma length_omap_le {A B} (f : A -> option B) (l : list A) :
  (length (omap f l) <= length l)%nat.
Proof.
  induction l as [|x l IH]; cbn [omap list_omap length]; [lia|].
  destruct (f x); cbn [length]; lia.
Qed.

(** X15. A successful [loadFromFile] replaces the document by what the
    file describes and keeps nothing of the shapes, connections and
    selection it had: the shapes are the entries of the [shapes] array in
    order, without the entries of unknown type; every entry of the
    [connections] array gives one connection, taken as it is (no index is
    checked against the shape list); nothing is selected; the grid size and
    background colour are the ones of the file, whatever they are, while
    the page size goes through the guard of [setPageSize]. *)
Theorem loadFromFile_replaces_document fileName data doc (d : DrawingArea) :
  file_read fileName = Some data ->
  QJsonDocument_fromJson data = Some doc ->
  let root := Json.toObject doc in
  let sizeObj := Json.toObject (Json.get "size" root) in
  let d' := snd (loadFromFile fileName d) in
  fst (loadFromFile fileName d) = true /\
  shapes d' = omap loadedShape (Json.toArray (Json.get "shapes" root)) /\
  arrowConnections d' = map loadedConnection (Json.toArray (Json.get "connections" root)) /\
  (length (shapes d') <= length (Json.toArray (Json.get "shapes" root)))%nat /\
  length (arrowConnections d') = length (Json.toArray (Json.get "connections" root)) /\
  selectedIndex d' = -1 /\
  m_gridSize d' = Json.toInt (Json.get "gridSize" root) /\
  m_bgColor d' = QColor_fromName (Json.toString (Json.get "backgroundColor" root)) /\
  m_pageSize d' =
    m_pageSize (setPageSize (mkQSize (Json.toInt (Json.get "width" sizeObj))
                                     (Json.toInt (Json.get "height" sizeObj))) d).
Proof.
  intros Hf Hj root sizeObj d'.
  destruct (loadFromFile_fields fileName data doc d Hf Hj)
    as (H1 & H2 & H3 & H4 & H5 & H6 & H7 & _).
  fold root in H2, H3, H5, H6, H7. fold sizeObj in H7. fold d' in H2, H3, H4, H5, H6, H7.
  split; [exact H1|]. split; [exact H2|]. split; [exact H3|].
  split; [rewrite H2; apply length_omap_le|].
  split; [rewrite H3; apply length_map|]. auto.
Qed.

Lemma loadedConnection_toJson (c : ArrowConnection.t) :
  intConnection c -> loadedConnection (connectionToJson c) = c.
Proof.
  intros (Ha & Hs & Hh). destruct c as [a s h b]. unfold isInt in *. cbn in *.
  unfold loadedConnection, connectionToJson. cbn.
  repeat match goal with
         | |- context [(?x <=? ?y) && (?u <=? ?v)] =>
             replace ((x <=? y) && (u <=? v)) with true by (symmetry; apply andb_true_iff; blia)
         end.
  reflexivity.
Qed.

Lemma loadedConnections_toJson (cs : list ArrowConnection.t) :
  Forall intConnection cs -> map loadedConnection (map connectionToJson cs) = cs.
Proof.
  induction 1 as [|c cs Hc _ IH]; [reflexivity|].
  cbn [map]. now rewrite IH, loadedConnection_toJson.
Qed.

Lemma loadedShapes_toJson (toJson : ShapeBase -> QJsonValue) (ss : list ShapeBase) :
  Forall (fun s => loadedShape (toJson s) = Some s) ss ->
  omap loadedShape (map toJson ss) = ss.
Proof.
  induction 1 as [|s ss Hs _ IH]; [reflexivity|].
  cbn [map omap list_omap]. now rewrite Hs, IH.
Qed.

(** X16. Saving and loading give the document back.  When [saveToFile]
    writes a document and [loadFromFile] reads that document, into any
    canvas: the connection list is the saved one, provided its fields fit an
    [int]; the shape list is the saved one, provided every shape is restored
    by [fromJson] from what its [toJson] wrote; the grid size is the saved
    one when it fits an [int]; nothing is selected and both history stacks
    are empty. *)
Theorem save_then_load_roundtrip (toJson : ShapeBase -> QJsonValue)
  (colorName : QColor -> string) (widgetSize : QSize) fileName data doc
  (d d0 : DrawingArea) :
  saveToFile toJson colorName true widgetSize d = Some doc ->
  file_read fileName = Some data ->
  QJsonDocument_fromJson data = Some doc ->
  let d' := snd (loadFromFile fileName d0) in
  fst (loadFromFile fileName d0) = true /\
  (Forall intConnection (arrowConnections d) ->
   arrowConnections d' = arrowConnections d) /\
  (Forall (fun s => loadedShape (toJson s) = Some s) (shapes d) ->
   shapes d' = shapes d) /\
  (isInt (m_gridSize d) -> m_gridSize d' = m_gridSize d) /\
  selectedIndex d' = -1 /\ m_undoStack d' = [] /\ m_redoStack d' = [].
Proof.
  intros Hsave Hf Hj d'. unfold saveToFile in Hsave. cbn [negb] in Hsave.
  injection Hsave as <-.
  destruct (loadFromFile_fields fileName data _ d0 Hf Hj)
    as (H1 & H2 & H3 & H4 & H5 & _ & _ & H8).
  cbn in H2, H3, H5. fold d' in H2, H3, H4, H5, H8.
  split; [exact H1|]. split; [|split; [|split; [|split; [exact H4 | exact H8]]]].
  - intros Hall. rewrite H3. now apply loadedConnections_toJson.
  - intros Hall. rewrite H2. now apply loadedShapes_toJson.
  - intros Hg. rewrite H5. unfold isInt in Hg.
    replace ((-2147483648 <=? m_gridSize d) && (m_gridSize d <=? 2147483647)) with true
      by (symmetry; apply andb_true_iff; blia).
    reflexivity.
Qed.

(** *** Clipboard and palette *)

Lemma pastedShape_rect pos (clip : ShapeBase) :
  isArrow clip = false ->
  pastedShape pos clip =
    set_m_rect (Rect.make (px pos) (py pos) (Rect.width (m_rect clip))
                          (Rect.height (m_rect clip))) clip.
Proof.
  intros Hk. unfold pastedShape, clone, getRect, setRect. rewrite Hk. reflexivity.
Qed.

Lemma added_then_undone (s : ShapeBase) (d : DrawingArea) :
  m_ignoreHistoryActions d = false ->
  exists d1, undo (addShape s d) = Some d1 /\
    shapes d1 = shapes d /\ m_undoStack d1 = m_undoStack d /\
    arrowConnections d1 = arrowConnections d.
Proof.
  intros Hi. destruct (addShape_spec s d Hi) as (Hs & Hu & _ & _).
  destruct (addShape_fields s d) as (_ & Hc & _ & _).
  destruct (undo_Add_step (addShape s d) _ _ (length (shapes d)) s Hu eq_refl eq_refl)
    as (d1 & U0 & U1 & U2 & _ & U4 & _).
  { rewrite Hs, lookup_app_r by lia. now rewrite Nat.sub_diag. }
  exists d1. split; [exact U0|]. split; [|split; [exact U2 | now rewrite U4]].
  rewrite U1, Hs. unfold erase. rewrite delete_middle. apply app_nil_r.
Qed.

Lemma Rect_make_same (r : QRect) :
  Rect.make (rx1 r) (ry1 r) (Rect.width r) (Rect.height r) = r.
Proof. destruct r. unfold Rect.make, Rect.width, Rect.height. cbn. f_equal; lia. Qed.

(** X17. Paste adds a copy of the clipboard shape at the pointer.  For a
    clipboard shape that is not an arrow the copy differs from it only in its
    rectangle, which has its top left corner at the pointer and the width and
    height of the original; the copy is appended and selected, the
    connections are untouched, and on a canvas that records history one undo
    removes it again.  With an empty clipboard paste does nothing.  Cutting
    the selected shape and pasting it at its own top left corner gives the
    shape list of [moveShapeToTop]: the shape itself, now last. *)
Theorem paste_places_copy (pos : QPoint) (clip : ShapeBase) (d : DrawingArea) :
  isArrow clip = false ->
  m_ignoreHistoryActions d = false ->
  let s' := pastedShape pos clip in
  s' = set_m_rect (m_rect s') clip /\
  Rect.topLeft (m_rect s') = pos /\
  Rect.width (m_rect s') = Rect.width (m_rect clip) /\
  Rect.height (m_rect s') = Rect.height (m_rect clip) /\
  shapes (pasteShape pos (Some clip) d) = shapes d ++ [s'] /\
  selectedIndex (pasteShape pos (Some clip) d) = Z.of_nat (length (shapes d)) /\
  arrowConnections (pasteShape pos (Some clip) d) = arrowConnections d /\
  pasteShape pos None d = d /\
  (exists d1, undo (pasteShape pos (Some clip) d) = Some d1 /\
     shapes d1 = shapes d /\ m_undoStack d1 = m_undoStack d) /\
  (forall clipboard, at_ (shapes d) (selectedIndex d) = Some clip ->
     let cut := cutSelectedShape clipboard d in
     fst cut = Some clip /\
     shapes (pasteShape (Rect.topLeft (m_rect clip)) (fst cut) (snd cut)) =
       shapes (moveShapeToTop d)).
Proof.
  intros Hk Hi s'. subst s'. rewrite (pastedShape_rect pos clip Hk).
  destruct (addShape_fields
              (set_m_rect (Rect.make (px pos) (py pos) (Rect.width (m_rect clip))
                                     (Rect.height (m_rect clip))) clip) d)
    as (F1 & F2 & F3 & _).
  unfold pasteShape. rewrite (pastedShape_rect pos clip Hk), F1, F2, F3.
  split; [reflexivity|]. split; [now destruct pos|].
  split; [unfold Rect.make, Rect.width; cbn; lia|].
  split; [unfold Rect.make, Rect.height; cbn; lia|].
  do 4 (split; [reflexivity|]). split.
  - destruct (added_then_undone
                (set_m_rect (Rect.make (px pos) (py pos) (Rect.width (m_rect clip))
                                       (Rect.height (m_rect clip))) clip) d Hi)
      as (d1 & U0 & U1 & U2 & _).
    eauto.
  - intros clipboard Hat.
    assert (Hr : inRange (selectedIndex d) (shapes d) = true).
    { revert Hat. unfold at_, inRange. destruct (selectedIndex d <? 0) eqn:E; [discriminate|].
      intros Hat. apply lookup_lt_Some in Hat. apply andb_true_iff. blia. }
    assert (Hne : (selectedIndex d =? -1) = false) by (unfold inRange in Hr; blia).
    assert (Hs : shapes d !! Z.to_nat (selectedIndex d) = Some clip).
    { revert Hat. unfold at_. destruct (selectedIndex d <? 0); [discriminate | auto]. }
    unfold cutSelectedShape, copySelectedShape. rewrite Hne, Hr, Hs. cbn [negb andb fst snd].
    split; [reflexivity|].
    unfold pastedShape, clone, getRect, setRect. rewrite Hk.
    assert (Hsame : set_m_rect
                      (Rect_setHeight (Rect.height (m_rect clip))
                         (Rect_setWidth (Rect.width (m_rect clip))
                            (Rect.setTopLeft (Rect.topLeft (m_rect clip)) (m_rect clip))))
                      clip = clip).
    { clear. destruct clip as [k [x1 y1 x2 y2] l c w rot h].
      unfold set_m_rect, Rect_setHeight, Rect_setWidth, Rect.setTopLeft, Rect.topLeft,
        Rect.width, Rect.height. cbn. f_equal. f_equal; lia. }
    rewrite Hsame.
    destruct (addShape_fields clip (deleteSelectedShape d)) as (-> & _).
    destruct (deleteSelectedShape_fields d clip Hi Hr Hs) as (-> & _).
    unfold moveShapeToTop.
    assert (Hg : (selectedIndex d <? 0) || (Z.of_nat (length (shapes d)) <=? selectedIndex d)
                 = false) by (unfold inRange in Hr; blia).
    rewrite Hg, Hs. reflexivity.
Qed.

Lemma releaseSelected_clears q snap (d dR : DrawingArea) :
  releaseSelected q snap d = Some dR ->
  selectedIndex d <> -1 ->
  exists dX, dR = modifyShape (Z.to_nat (selectedIndex d)) clearHandleSelection dX.
Proof.
  unfold releaseSelected. intros H Hne. apply Z.eqb_neq in Hne. rewrite Hne in H.
  destruct (at_ (shapes d) (selectedIndex d)) as [s|]; [|faulted].
  cbn [mbind option_bind] in H.
  destruct (isArrow s).
  - destruct (getSelectedHandleIndex s =? 1).
    + destruct (commitEndpoint false q snap s d) as [d1|] eqn:E; [|faulted].
      cbn [mbind option_bind] in H. injection H as <-.
      apply commitEndpoint_frame in E as (_ & -> & _). eauto.
    + destruct (getSelectedHandleIndex s =? 0).
      * destruct (commitEndpoint true q snap s d) as [d1|] eqn:E; [|faulted].
        cbn [mbind option_bind] in H. injection H as <-.
        apply commitEndpoint_frame in E as (_ & -> & _). eauto.
      * cbn [mbind option_bind] in H. injection H as <-. eauto.
  - injection H as <-.
    match goal with
    | |- exists dX, modifyShape (Z.to_nat (selectedIndex ?x)) _ ?x = _ =>
        assert (Hx : selectedIndex x = selectedIndex d)
    end.
    { destruct (dragging d && negb (isHandleSelected s)).
      - destruct (0 <? _); [|reflexivity].
        match goal with
        | |- selectedIndex ?x = _ =>
            destruct (record_edit_fields d x) as (_ & _ & H3 & _); [eauto 10 | exact H3]
        end.
      - destruct (resizing d && isHandleSelected s); [|reflexivity].
        cbn [selectedIndex set_resizing].
        destruct (negb _); [|reflexivity].
        match goal with
        | |- selectedIndex ?x = _ =>
            destruct (record_edit_fields d x) as (_ & _ & H3 & _); [eauto 10 | exact H3]
        end. }
    rewrite Hx. eauto.
Qed.

(** X18. A release ends the gesture.  When [mouseReleaseEvent] completes,
    the drag flag is off, the snap indicator is cleared, the selection and
    the number of shapes are unchanged, the selected shape has no handle
    selected any more, and at most one action was recorded.  A release at
    the point where a drag by the body started (a click that moved nothing
    in total) records nothing and leaves the shape list as it is. *)
Theorem release_ends_gesture (q : QPoint) (snapDistance : Z) (d d1 : DrawingArea) :
  mouseReleaseEvent q snapDistance d = Some d1 ->
  dragging d1 = false /\
  snappedHandle d1 = SnapInfo.none /\
  selectedIndex d1 = selectedIndex d /\
  length (shapes d1) = length (shapes d) /\
  historyGrows d d1 /\
  (forall s1, selectedIndex d <> -1 ->
     at_ (shapes d1) (selectedIndex d) = Some s1 -> isHandleSelected s1 = false) /\
  (forall i s pl, grabbedAt i s pl q d ->
     shapes d1 = shapes d /\ m_undoStack d1 = m_undoStack d /\
     m_redoStack d1 = m_redoStack d).
Proof.
  intros H. pose proof (mouseReleaseEvent_frame _ _ _ _ H) as (F1 & F2 & F3).
  revert H. unfold mouseReleaseEvent.
  destruct (releaseSelected q snapDistance d) as [dR|] eqn:E; [|faulted].
  cbn [mbind option_bind]. intros [= <-].
  split; [reflexivity|]. split; [reflexivity|]. split; [exact F2|]. split; [exact F1|].
  split; [exact F3|]. split.
  - intros s1 Hne. destruct (releaseSelected_clears _ _ _ _ E Hne) as [dX ->].
    cbn [shapes set_dragging set_snappedHandle modifyShape set_shapes].
    unfold at_. destruct (selectedIndex d <? 0); [discriminate|].
    rewrite list_lookup_alter_eq. destruct (shapes dX !! _); [|discriminate].
    cbn. intros [= <-]. reflexivity.
  - intros i s pl (Hd & Hsel & Hs & Hk & Hh & Hl & Hst).
    revert E. unfold releaseSelected. rewrite Hsel, at_of_nat, Hs.
    assert (Hne : (Z.of_nat i =? -1) = false) by blia.
    rewrite Hne. cbn [mbind option_bind]. rewrite Hk, Hd, Hh, Hst. cbn [negb andb].
    assert (Hz : (0 <? Point.manhattanLength (Point.sub q q)) = false).
    { apply Z.ltb_ge. unfold Point.manhattanLength, Point.sub. cbn. lia. }
    rewrite Hz, Hsel, Nat2Z.id. intros [= <-].
    cbn [shapes m_undoStack m_redoStack set_dragging set_snappedHandle modifyShape
         set_shapes].
    split; [|auto]. apply (alter_fixed _ _ s); [exact Hs|].
    unfold isHandleSelected in Hh. apply negb_false_iff, Z.eqb_eq in Hh.
    unfold clearHandleSelection, setSelectedHandleIndex. rewrite <- Hh. now destruct s.
Qed.

(** X19. The guards on sizes.  [setGridSize] and [setPageSize] never store
    a value that is not positive, so a positive grid size and a positive
    page size stay positive through them, and [setGridSize] stores every
    positive value.  [loadFromFile] keeps a positive page size positive for
    every file, since it goes through [setPageSize]; the grid size it
    stores unguarded, so after a successful load the grid size is positive
    exactly when the value in the file, read as an [int], is. *)
Theorem size_guards (d : DrawingArea) :
  (forall size, m_gridSize (setGridSize size d) = if 0 <? size then size else m_gridSize d) /\
  (forall size, 0 < m_gridSize d -> 0 < m_gridSize (setGridSize size d)) /\
  (forall size, pagePositive d -> pagePositive (setPageSize size d)) /\
  (forall fileName, pagePositive d -> pagePositive (snd (loadFromFile fileName d))) /\
  (forall fileName data doc,
     file_read fileName = Some data -> QJsonDocument_fromJson data = Some doc ->
     (0 < m_gridSize (snd (loadFromFile fileName d)) <->
      0 < Json.toInt (Json.get "gridSize" (Json.toObject doc)))).
Proof.
  assert (Hgrid : forall size,
            m_gridSize (setGridSize size d) = if 0 <? size then size else m_gridSize d).
  { intros size. unfold setGridSize.
    destruct (size =? m_gridSize d) eqn:E1, (0 <? size) eqn:E2; cbn; blia. }
  assert (Hpage : forall size d0, pagePositive d0 -> pagePositive (setPageSize size d0)).
  { intros size d0 Hp. unfold setPageSize.
    destruct (negb (QSize_eqb size (m_pageSize d0)) && (0 <? sz_width size) &&
              (0 <? sz_height size)) eqn:E; [|exact Hp].
    unfold pagePositive. cbn. blia. }
  split; [exact Hgrid|]. split; [|split; [|split]].
  - intros size Hpos. rewrite Hgrid. destruct (0 <? size) eqn:E; blia.
  - intros size. apply Hpage.
  - intros fileName Hp.
    destruct (file_read fileName) as [data|] eqn:Hf;
      [|unfold loadFromFile; now rewrite Hf].
    destruct (QJsonDocument_fromJson data) as [doc|] eqn:Hj;
      [|unfold loadFromFile; now rewrite Hf, Hj].
    destruct (loadFromFile_fields fileName data doc d Hf Hj)
      as (_ & _ & _ & _ & _ & _ & H7 & _).
    unfold pagePositive. rewrite H7. now apply Hpage.
  - intros fileName data doc Hf Hj.
    destruct (loadFromFile_fields fileName data doc d Hf Hj)
      as (_ & _ & _ & _ & H5 & _).
    now rewrite H5.
Qed.

Lemma droppedShape_known shapeType pos :
  droppedShape shapeType pos = None <-> ~ In shapeType knownShapeTypes.
Proof.
  unfold droppedShape, knownShapeTypes. cbn [In].
  repeat match goal with
         | |- context [String.eqb shapeType ?k] =>
             destruct (String.eqb_spec shapeType k) as [->|?]
         end;
    (split;
     [ first [discriminate | intros _ H; intuition congruence]
     | intros H; first [reflexivity | exfalso; apply H; auto 10] ]).
Qed.

Lemma droppedShape_geometry shapeType pos (s : ShapeBase) :
  droppedShape shapeType pos = Some s ->
  m_selectedHandleIndex s = -1 /\
  (isArrow s = false -> m_rect s = Rect.make (px pos - 40) (py pos - 30) 80 60) /\
  (isArrow s = true ->
   m_line s = mkQLine (mkQPoint (px pos - 40) (py pos)) (mkQPoint (px pos + 40) (py pos))).
Proof.
  unfold droppedShape.
  repeat match goal with
         | |- context [String.eqb shapeType ?k] => destruct (String.eqb shapeType k)
         end;
    intros [= <-]; cbn; repeat split; auto; discriminate.
Qed.

(** X20. A drop of a known palette entry adds one shape under the pointer:
    the shape is appended and selected, it has no handle selected, a shape
    other than an arrow gets a rectangle of 80 by 60 that contains the drop
    point, an arrow a horizontal line of length 80 through it, and on a
    canvas that records history one undo removes the shape again.  The
    entries known are rect, ellipse, pentagon, triangle, diamond, arrow and
    roundedrect; a drop of any other type changes nothing. *)
Theorem dropEvent_adds_under_pointer (shapeType : string) (pos : QPoint) (d : DrawingArea) :
  m_ignoreHistoryActions d = false ->
  (In shapeType knownShapeTypes ->
   exists s,
     droppedShape shapeType pos = Some s /\
     shapes (dropEvent shapeType pos d) = shapes d ++ [s] /\
     selectedIndex (dropEvent shapeType pos d) = Z.of_nat (length (shapes d)) /\
     arrowConnections (dropEvent shapeType pos d) = arrowConnections d /\
     m_selectedHandleIndex s = -1 /\
     (isArrow s = false ->
      Rect.width (m_rect s) = 80 /\ Rect.height (m_rect s) = 60 /\
      Rect.contains (m_rect s) pos = true) /\
     (isArrow s = true ->
      m_line s = mkQLine (mkQPoint (px pos - 40) (py pos)) (mkQPoint (px pos + 40) (py pos))) /\
     exists d1, undo (dropEvent shapeType pos d) = Some d1 /\
       shapes d1 = shapes d /\ m_undoStack d1 = m_undoStack d) /\
  (~ In shapeType knownShapeTypes -> dropEvent shapeType pos d = d).
Proof.
  intros Hi. split.
  - intros Hin. destruct (droppedShape shapeType pos) as [s|] eqn:E.
    2:{ apply (proj1 (droppedShape_known shapeType pos)) in E. contradiction. }
    exists s. split; [reflexivity|]. unfold dropEvent. rewrite E.
    destruct (addShape_fields s d) as (F1 & F2 & F3 & _).
    destruct (droppedShape_geometry _ _ _ E) as (G1 & G2 & G3).
    split; [exact F1|]. split; [exact F3|]. split; [exact F2|]. split; [exact G1|].
    split; [|split; [exact G3|]].
    + intros Hk. rewrite (G2 Hk). unfold Rect.make, Rect.width, Rect.height, Rect.contains.
      cbn. split; [lia|]. split; [lia|].
      destruct (px pos - 40 + 80 - 1 <? px pos - 40 - 1) eqn:E1; [blia|].
      destruct (py pos - 30 + 60 - 1 <? py pos - 30 - 1) eqn:E2; [blia|].
      apply andb_true_iff. split; apply negb_true_iff, orb_false_iff; split;
        apply Z.ltb_ge; lia.
    + destruct (added_then_undone s d Hi) as (d1 & U0 & U1 & U2 & _). eauto.
  - intros Hn. apply (proj2 (droppedShape_known shapeType pos)) in Hn.
    unfold dropEvent. now rewrite Hn.
Qed.

(** *** Arrows under the pointer *)

Lemma alter_insert (l : list ShapeBase) (i : nat) (s : ShapeBase) f :
  l !! i = Some s -> alter f i l = <[i := f s]> l.
Proof.
  intros Hs. apply list_eq. intros j. destruct (decide (j = i)) as [->|Hne].
  - rewrite list_lookup_alter_eq, Hs. cbn.
    rewrite list_lookup_insert_eq; [reflexivity|]. now apply lookup_lt_Some in Hs.
  - now rewrite list_lookup_alter_ne, list_lookup_insert_ne by auto.
Qed.


(** X22. Drawing an arrow out of a plus handle.  [startArrow] on the
    selected shape [s] gives no arrow (and the loop over the handles goes
    on) exactly when the direction code of the handle maps to no anchor of
    [s].  When it gives a canvas, one shape was appended: an arrow with
    default style whose end handle (index 1) is grabbed; it is the new
    selection, a connection binding its start to that anchor of the
    formerly selected shape was added after the old connections, the drag
    flag is on, the pointer position is stored, every older shape is as
    before up to the endpoints of arrows, and at most one action was
    recorded. *)
Theorem startArrow_binds_new_arrow (docPos : QPoint) (direction : Z) (s : ShapeBase)
  (d : DrawingArea) :
  at_ (shapes d) (selectedIndex d) = Some s ->
  let k := mapArrowHandleToAnchor s direction in
  let n := length (shapes d) in
  (startArrow docPos direction s d = Some None <-> inRange k (getArrowAnchors s) = false) /\
  forall d', startArrow docPos direction s d = Some (Some d') ->
    length (shapes d') = S n /\
    (exists l, shapes d' !! n = Some (setSelectedHandleIndex 1 (ShapeFactory_createArrow l))) /\
    (forall j x, shapes d !! j = Some x ->
       exists x', shapes d' !! j = Some x' /\ reconnected x x') /\
    selectedIndex d' = Z.of_nat n /\
    (exists added, arrowConnections d' =
       arrowConnections d ++ ArrowConnection.mk (Z.of_nat n) (selectedIndex d) k true :: added) /\
    dragging d' = true /\ lastMousePos d' = docPos /\
    historyGrows d d'.
Proof.
  intros Hs k n.
  assert (Hlt : (Z.to_nat (selectedIndex d) < n)%nat /\ 0 <= selectedIndex d /\
                shapes d !! Z.to_nat (selectedIndex d) = Some s).
  { revert Hs. unfold at_. destruct (selectedIndex d <? 0) eqn:E0; [discriminate|].
    intros Hs. split; [now apply lookup_lt_Some in Hs|]. split; [blia | exact Hs]. }
  destruct Hlt as (Hlt & Hnn & Hs').
  unfold startArrow. fold k. unfold inRange.
  destruct (0 <=? k) eqn:Ek; [|cbn [andb]; split; [tauto | discriminate]].
  cbn [andb].
  assert (Hg : negb (Nat.eqb (length (getArrowAnchors s)) 0) &&
               (k <? Z.of_nat (length (getArrowAnchors s)))
               = (k <? Z.of_nat (length (getArrowAnchors s)))).
  { destruct (k <? Z.of_nat (length (getArrowAnchors s))) eqn:E; [|apply andb_false_r].
    rewrite andb_true_r. apply negb_true_iff, Nat.eqb_neq. blia. }
  rewrite Hg. destruct (k <? Z.of_nat (length (getArrowAnchors s))) eqn:Ek2;
    [|split; [tauto | discriminate]].
  assert (Hanchor : exists anchor, at_ (getArrowAnchors s) k = Some anchor).
  { unfold at_. assert (E : (k <? 0) = false) by blia. rewrite E.
    apply lookup_lt_is_Some. blia. }
  destruct Hanchor as [anchor Ha]. rewrite Ha. cbn [mbind option_bind]. cbv zeta.
  set (arrow := ShapeFactory_createArrow _).
  change (recordAddShape _ _) with (addShape arrow d).
  destruct (addShape_fields arrow d) as (F1 & F2 & F3 & F4).
  set (d3 := addShape arrow d) in *.
  assert (Hnew : at_ (shapes d3) (selectedIndex d3) = Some arrow).
  { rewrite F1, F3, at_of_nat. apply list_lookup_middle. reflexivity. }
  rewrite Hnew. cbn [mbind option_bind].
  change (isArrow arrow) with true. cbv iota.
  rewrite F3, Nat2Z.id. fold n.
  cbn [shapes arrowConnections set_snappedHandle set_arrowConnections modifyShape set_shapes].
  assert (Hlen3 : Z.of_nat (length (alter (setSelectedHandleIndex 1) n (shapes d3))) - 1
                  = Z.of_nat n).
  { rewrite length_alter, F1, length_app. cbn [length]. fold n. lia. }
  rewrite Hlen3.
  assert (Horig : at_ (alter (setSelectedHandleIndex 1) n (shapes d3)) (selectedIndex d)
                  = Some s).
  { unfold at_. assert (E : (selectedIndex d <? 0) = false) by blia. rewrite E.
    rewrite list_lookup_alter_ne by lia. rewrite F1, lookup_app_l by exact Hlt. exact Hs'. }
  rewrite Horig. cbn [mbind option_bind]. rewrite Ek2, Ha. cbn [mbind option_bind].
  split; [split; [|discriminate]|].
  { destruct (updateConnectedArrows _ _ _); discriminate. }
  intros d'.
  destruct (updateConnectedArrows _ _ _) as [d9|] eqn:E; [|faulted].
  cbn [mbind option_bind]. intros [= <-].
  apply updateConnectedArrows_frame in E as (shs & conns & -> & Hlen & Had & Hsh).
  cbn [shapes arrowConnections selectedIndex dragging lastMousePos set_lastMousePos
       set_dragging set_arrowConnections set_shapes set_snappedHandle modifyShape] in *.
  rewrite !length_alter, F1, length_app in Hlen. cbn [length] in Hlen. fold n in Hlen.
  split; [lia|]. split.
  { destruct (Hsh n (setP1 (anchorCenter anchor) (setSelectedHandleIndex 1 arrow)))
      as (x' & Hx & Hr).
    { rewrite list_lookup_alter_eq, list_lookup_alter_eq, F1.
      rewrite list_lookup_middle by reflexivity. reflexivity. }
    unfold reconnected in Hr. change (isArrow _) with true in Hr. cbv iota in Hr.
    destruct Hr as [l ->]. exists l. exact Hx. }
  split.
  { intros j x Hj. apply Hsh.
    assert (j < n)%nat by now apply lookup_lt_Some in Hj.
    rewrite !list_lookup_alter_ne by lia. rewrite F1, lookup_app_l by assumption.
    exact Hj. }
  split; [exact F3|]. split.
  { destruct (adopts_added _ _ _ Had) as (added & -> & _). exists added.
    rewrite F2, <- app_assoc. reflexivity. }
  split; [reflexivity|]. split; [reflexivity|].
  destruct F4 as (G1 & G2). split; [exact G1 | exact G2].
Qed.

(** *** Pressing a handle of the selected shape *)

Lemma pressHandles_miss docPos (s : ShapeBase) (d : DrawingArea) handles : forall i0,
  (forall j h, handles !! j = Some h -> Rect.contains (Handle.rect h) docPos = false) ->
  pressHandles docPos s i0 handles d = Some None.
Proof.
  induction handles as [|h0 rest IH]; intros i0 Hmiss; [reflexivity|].
  cbn [pressHandles]. rewrite (Hmiss 0%nat h0 eq_refl).
  apply IH. intros j h Hj. exact (Hmiss (S j) h Hj).
Qed.

Lemma pressHandles_first docPos (s : ShapeBase) (d : DrawingArea) handles : forall i0 k h,
  handles !! k = Some h ->
  Rect.contains (Handle.rect h) docPos = true ->
  Handle.type h <> Handle.Arrow ->
  (forall j h', (j < k)%nat -> handles !! j = Some h' ->
     Rect.contains (Handle.rect h') docPos = false) ->
  pressHandles docPos s i0 handles d =
    let d1 := modifyShape (Z.to_nat (selectedIndex d))
                          (setSelectedHandleIndex (Z.of_nat (i0 + k))) d in
    let d2 := if Handle.type_eqb (Handle.type h) Handle.Scale
              then set_originalRect (getRect s) (set_resizing true d1) else d1 in
    Some (Some (set_dragging true (set_lastMousePos docPos d2))).
Proof.
  induction handles as [|h0 rest IH]; intros i0 k h Hk Hc Hty Hbefore.
  { rewrite lookup_nil in Hk. discriminate. }
  destruct k as [|k].
  - cbn in Hk. injection Hk as ->. cbn [pressHandles]. rewrite Hc.
    destruct (Handle.type_eqb (Handle.type h) Handle.Arrow) eqn:E.
    { apply Handle_type_eqb_eq in E. contradiction. }
    rewrite Nat.add_0_r. reflexivity.
  - cbn [pressHandles]. rewrite (Hbefore 0%nat h0 (Nat.lt_0_succ k) eq_refl).
    rewrite (IH (S i0) k h Hk Hc Hty).
    + now rewrite Nat.add_succ_comm.
    + intros j h' Hj Hl. apply (Hbefore (S j) h'); [lia | exact Hl].
Qed.

(** X23. A press while a shape is selected.  When no handle of the selected
    shape contains the pointer, the press acts exactly as a press with
    nothing selected.  When the first handle that contains the pointer is
    not a plus handle, the press completes and marks that handle as the
    selected one of the shape; the shape list is otherwise unchanged, the
    selection, the connections and the history are unchanged, the drag flag
    is on and the pointer position is stored.  A scale handle also switches
    resizing on and stores the rectangle of the shape as the original one;
    any other handle leaves both as they were. *)
Theorem press_on_handles (docPos : QPoint) (i : nat) (s : ShapeBase) (d : DrawingArea) :
  selectedIndex d = Z.of_nat i ->
  shapes d !! i = Some s ->
  ((forall j h, getHandles s !! j = Some h -> Rect.contains (Handle.rect h) docPos = false) ->
     mousePressEvent docPos d = mousePressEvent docPos (set_selectedIndex (-1) d)) /\
  (forall k h,
     getHandles s !! k = Some h ->
     Rect.contains (Handle.rect h) docPos = true ->
     Handle.type h <> Handle.Arrow ->
     (forall j h', (j < k)%nat -> getHandles s !! j = Some h' ->
        Rect.contains (Handle.rect h') docPos = false) ->
     exists d',
       mousePressEvent docPos d = Some d' /\
       shapes d' = <[i := setSelectedHandleIndex (Z.of_nat k) s]> (shapes d) /\
       selectedIndex d' = Z.of_nat i /\
       dragging d' = true /\ lastMousePos d' = docPos /\
       arrowConnections d' = arrowConnections d /\
       m_undoStack d' = m_undoStack d /\ m_redoStack d' = m_redoStack d /\
       (Handle.type h = Handle.Scale -> resizing d' = true /\ originalRect d' = getRect s) /\
       (Handle.type h <> Handle.Scale ->
          resizing d' = resizing d /\ originalRect d' = originalRect d)).
Proof.
  intros Hsel Hs.
  assert (Hne : negb (selectedIndex d =? -1) = true) by (apply negb_true_iff; blia).
  split.
  - intros Hmiss. unfold mousePressEvent at 1. rewrite Hne, Hsel, at_of_nat, Hs.
    cbn [mbind option_bind]. rewrite (pressHandles_miss _ _ _ _ _ Hmiss).
    cbn [mbind option_bind]. unfold mousePressEvent, selectAt.
    cbn [selectedIndex set_selectedIndex shapes Z.eqb negb].
    destruct (hitTest _ _ _); destruct d; reflexivity.
  - intros k h Hk Hc Hty Hbefore.
    unfold mousePressEvent. rewrite Hne, Hsel, at_of_nat, Hs. cbn [mbind option_bind].
    rewrite (pressHandles_first _ _ _ _ 0 k h Hk Hc Hty Hbefore).
    cbv zeta. cbn [mbind option_bind Nat.add]. rewrite Hsel, Nat2Z.id.
    eexists. split; [reflexivity|].
    destruct (Handle.type_eqb (Handle.type h) Handle.Scale) eqn:E;
      cbn [shapes selectedIndex dragging lastMousePos arrowConnections m_undoStack
           m_redoStack resizing originalRect set_dragging set_lastMousePos
           set_originalRect set_resizing modifyShape set_shapes];
      (split; [now apply alter_insert|]); (split; [exact Hsel|]);
      do 5 (split; [reflexivity|]).
    + split; [auto|]. intros Hn. apply Handle_type_eqb_eq in E. contradiction.
    + split; [|auto]. intros Hy. rewrite Hy in E. discriminate.
Qed.



End Properties.

(** * Worked examples *)

Section Witnesses.

#[local] Existing Instance NoRotation.
#[local] Existing Instance SpecShapes.
#[local] Existing Instance SampleRuntime.

Lemma undo_redo_empty_noop_witness :
  undo emptyCanvas = Some emptyCanvas /\ redo emptyCanvas = Some emptyCanvas.
Proof.
  split.
  - apply (proj1 (undo_redo_empty_noop emptyCanvas)). reflexivity.
  - apply (proj2 (undo_redo_empty_noop emptyCanvas)). reflexivity.
Defined.

Lemma loadFromFile_success_clears_history_witness :
  m_undoStack oneAddCanvas <> [] /\
  m_undoStack (snd (loadFromFile "diagram.json" oneAddCanvas)) = [] /\
  m_redoStack (snd (loadFromFile "diagram.json" oneAddCanvas)) = [].
Proof.
  split; [discriminate|].
  apply (loadFromFile_success_clears_history "diagram.json" oneAddCanvas).
  reflexivity.
Defined.

Lemma loadFromFile_failure_keeps_state_witness :
  loadFromFile "missing.json" oneAddCanvas = (false, oneAddCanvas) /\
  loadFromFile "notes.txt" oneAddCanvas = (false, oneAddCanvas) /\
  ~ unreadable "diagram.json".
Proof.
  split; [|split].
  - apply (proj1 (loadFromFile_failure_keeps_state "missing.json" oneAddCanvas)).
    left. reflexivity.
  - apply (proj1 (loadFromFile_failure_keeps_state "notes.txt" oneAddCanvas)).
    right. eexists. split; reflexivity.
  - apply (proj2 (loadFromFile_failure_keeps_state "diagram.json" oneAddCanvas)).
    reflexivity.
Defined.

Lemma resize_rejects_degenerate_rect_witness :
  snd (handleAnchorInteraction grabbedRect (mkQPoint (-20) (-20)) (mkQPoint 80 60)) = grabbedRect /\
  handleAnchorInteraction grabbedRect (mkQPoint 90 65) (mkQPoint 80 60) =
    (true, set_m_rect (mkQRect 0 0 89 64) grabbedRect) /\
  m_rect (snd (handleAnchorInteraction grabbedRect (mkQPoint 90 65) (mkQPoint 80 60))) =
    mkQRect 0 0 89 64.
Proof.
  assert (Hin : forall p q,
            Z.abs (px p) <= 1000 -> Z.abs (py p) <= 1000 ->
            Z.abs (px q) <= 1000 -> Z.abs (py q) <= 1000 ->
            resizeWithinInt 7 p q (mkQRect 0 0 79 59)).
  { intros [x y] [x' y']. unfold resizeWithinInt, isInt, Rect.width, Rect.height. cbn. lia. }
  split; [|split].
  - apply (resize_rejects_degenerate_rect grabbedRect (mkQPoint (-20) (-20)) (mkQPoint 80 60));
      [reflexivity | vm_compute; split; discriminate
      | apply Hin; cbn; lia | left; vm_compute; reflexivity].
  - apply (resize_rejects_degenerate_rect grabbedRect (mkQPoint 90 65) (mkQPoint 80 60));
      [reflexivity | vm_compute; split; discriminate
      | apply Hin; cbn; lia | vm_compute; split; discriminate].
  - apply (resize_rejects_degenerate_rect grabbedRect (mkQPoint 90 65) (mkQPoint 80 60));
      [reflexivity | vm_compute; split; discriminate
      | apply Hin; cbn; lia | vm_compute; split; discriminate].
Defined.

Lemma style_setters_record_changes_only_witness :
  setSelectedShapeLineColor (Color.rgb 0 0 0) oneRectCanvas = oneRectCanvas /\
  setSelectedShapeLineWidth 2 oneRectCanvas = oneRectCanvas /\
  (exists a,
     m_undoStack (setSelectedShapeLineColor (Color.rgb 255 0 0) oneRectCanvas) = [a] /\
     type a = Property /\ shapeIndex a = 0 /\
     oldLineColor a = Color.rgb 0 0 0 /\ newLineColor a = Color.rgb 255 0 0 /\
     oldLineWidth a = 2 /\ newLineWidth a = 2) /\
  (exists a,
     m_undoStack (setSelectedShapeLineWidth 5 oneRectCanvas) = [a] /\
     type a = Property /\ shapeIndex a = 0 /\
     oldLineColor a = Color.rgb 0 0 0 /\ newLineColor a = Color.rgb 0 0 0 /\
     oldLineWidth a = 2 /\ newLineWidth a = 5).
Proof.
  pose proof (style_setters_record_changes_only oneRectCanvas sampleRect eq_refl eq_refl)
    as (H1 & H2 & H3).
  specialize (H3 eq_refl) as [H3 H4].
  split; [exact H1|]. split; [exact H2|]. split.
  - destruct (H3 (Color.rgb 255 0 0)) as ((a & A1 & A2 & A3 & A4 & A5 & A6 & A7 & _) & _).
    { discriminate. }
    exists a. repeat split; assumption.
  - destruct (H4 5) as ((a & A1 & A2 & A3 & A4 & A5 & A6 & A7 & _) & _).
    { discriminate. }
    exists a. repeat split; assumption.
Defined.

Lemma add_undo_redo_roundtrip_witness :
  exists d2 d3,
    times 2 undo (addShapes [sampleRect; sampleEllipse] emptyCanvas) = Some d2 /\
    shapes d2 = [] /\
    times 2 redo d2 = Some d3 /\
    shapes d3 = [sampleRect; sampleEllipse].
Proof.
  exact (proj1 (add_undo_redo_roundtrip emptyCanvas [sampleRect; sampleEllipse] eq_refl)).
Defined.

(** C1, the code at the failing input.  Rectangle [B] (shape 0) and
    rectangle [A] (shape 1) are dropped and an arrow (shape 2) is drawn out
    of the right plus handle of [A]: the start of the arrow is bound to
    anchor 3 of [A], every endpoint has at most one connection and no
    connection names an arrow.  [B] is then dragged until its left anchor is
    within 5 units of the start of the arrow.  The reconciliation pass of
    [updateConnectedArrows] asks only whether the start is connected to the
    moved shape [B]; it is not, so the pass appends a connection of the
    start to anchor 2 of [B] and leaves the connection to [A] in place: the
    start of the arrow has two connections.  A release of the same endpoint
    on an anchor erases the connections of the endpoint first
    ([release_commits_one_connection]). *)
Theorem reconciliation_breaks_invariant :
  run drawArrowGesture emptyCanvas = Some arrowDrawn /\
  connectionInvariant arrowDrawn /\
  arrowConnections arrowDrawn = [ArrowConnection.mk 2 1 3 true] /\
  connectionsOf 2 true (arrowConnections arrowDrawn) = [ArrowConnection.mk 2 1 3 true] /\
  connectionsTo 2 true 0 (arrowConnections arrowDrawn) = [] /\
  (exists d',
     run (grabB ++ [dragBNextToA]) arrowDrawn = Some d' /\
     arrowConnections d' =
       [ArrowConnection.mk 2 1 3 true; ArrowConnection.mk 2 0 2 true] /\
     connectionsOf 2 true (arrowConnections d') =
       [ArrowConnection.mk 2 1 3 true; ArrowConnection.mk 2 0 2 true] /\
     ~ oneConnectionPerEndpoint (arrowConnections d')).
Proof.
  split; [vm_compute; reflexivity|]. split; [|split; [|split; [|split]]].
  - split.
    + intros a f. vm_compute arrowConnections. unfold connectionsOf. cbn [List.filter].
      destruct (binds a f _); cbn; lia.
    + intros c s Hin Hat. vm_compute in Hin. destruct Hin as [<-|[]].
      vm_compute in Hat. injection Hat as <-. reflexivity.
  - vm_compute; reflexivity.
  - vm_compute; reflexivity.
  - vm_compute; reflexivity.
  - eexists. split; [vm_compute; reflexivity|]. split; [vm_compute; reflexivity|].
    split; [vm_compute; reflexivity|].
    intros H. specialize (H 2 true). vm_compute in H. lia.
Qed.

(** Connection indices are not renumbered when a shape is erased.  On the
    same canvas, deleting [B] (shape 0) shifts [A] and the arrow down to
    positions 0 and 1 while the connection of the arrow keeps its indices:
    its [shapeIndex] 1 now names the arrow. *)
Lemma deletion_keeps_connection_indices :
  exists d',
    run (grabB ++ [fun d => Some (deleteSelectedShape d)]) arrowDrawn = Some d' /\
    arrowConnections d' = [ArrowConnection.mk 2 1 3 true] /\
    ~ shapeIndexNeverArrow d'.
Proof.
  eexists. split; [vm_compute; reflexivity|]. split; [vm_compute; reflexivity|].
  intros H.
  specialize (H (ArrowConnection.mk 2 1 3 true) _ (or_introl eq_refl) eq_refl).
  vm_compute in H. discriminate.
Qed.

Lemma stale_index_guards_witness :
  updateConnectedArrows 5 (mkQPoint 3 4) oneRectCanvas = Some oneRectCanvas /\
  recordMoveShape (-1) (mkQPoint 3 4) oneRectCanvas = oneRectCanvas /\
  undo staleMoveCanvas = Some emptyCanvas /\
  redo staleRedoCanvas = Some oneRectCanvas /\
  (exists d', undo staleRemoveCanvas = Some d' /\ shapes d' = [sampleRect] /\
              m_undoStack d' = []) /\
  (exists d', redo staleAddCanvas = Some d' /\ shapes d' = [sampleRect; sampleEllipse] /\
              m_redoStack d' = []) /\
  undo negativeRemoveCanvas = None /\
  redo negativeAddCanvas = None.
Proof.
  destruct (stale_index_guards oneRectCanvas) as (H1 & H0 & _).
  destruct (stale_index_guards staleMoveCanvas) as (_ & _ & H2 & _).
  destruct (stale_index_guards staleRedoCanvas) as (_ & _ & _ & H3 & _).
  destruct (stale_index_guards staleRemoveCanvas) as (_ & _ & _ & _ & H4 & _).
  destruct (stale_index_guards staleAddCanvas) as (_ & _ & _ & _ & _ & H5 & _).
  destruct (stale_index_guards negativeRemoveCanvas) as (_ & _ & _ & _ & _ & _ & H6 & _).
  destruct (stale_index_guards negativeAddCanvas) as (_ & _ & _ & _ & _ & _ & _ & H7).
  split; [|split; [|split; [|split; [|split; [|split; [|split]]]]]].
  - apply H1. reflexivity.
  - destruct (H0 (-1) eq_refl) as (_ & _ & Hm & _). apply Hm.
  - apply (H2 _ [] eq_refl); [reflexivity | discriminate].
  - apply (H3 _ [] eq_refl); [reflexivity | discriminate].
  - destruct (H4 _ [] sampleRect eq_refl eq_refl eq_refl) as (d' & A1 & A2 & _ & A4).
    { vm_compute. discriminate. }
    exists d'. auto.
  - destruct (H5 _ [] sampleEllipse eq_refl eq_refl eq_refl) as (d' & A1 & A2 & _ & A4).
    { vm_compute. discriminate. }
    exists d'. auto.
  - apply (H6 _ [] sampleRect eq_refl eq_refl eq_refl). reflexivity.
  - apply (H7 _ [] sampleEllipse eq_refl eq_refl eq_refl). reflexivity.
Defined.

(** C2, the claim as stated fails.  [undo()] of a [Move] whose index is
    outside the shape list does not fault, yet it is not a no-op: the action
    is popped and dropped.  [undo()] of a [Remove] whose index lies beyond
    the end of the list inserts the stored clone. *)
Lemma stale_undo_consumes_action :
  inRange 3 (shapes staleMoveCanvas) = false /\
  undo staleMoveCanvas = Some emptyCanvas /\
  undo staleMoveCanvas <> Some staleMoveCanvas /\
  inRange 3 (shapes staleRemoveCanvas) = false /\
  (exists d', undo staleRemoveCanvas = Some d' /\
              shapes d' = [sampleRect] /\ shapes d' <> shapes staleRemoveCanvas).
Proof.
  split; [reflexivity|]. split; [reflexivity|]. split; [discriminate|].
  split; [reflexivity|]. eexists. split; [reflexivity|]. split; [reflexivity|discriminate].
Qed.

(** C4, the code at the failing input.  An arrow is drawn out of a rectangle
    and stays selected; its start is bound to the rectangle by the connection
    (arrow 1, shape 0, anchor 3, start).  Deleting the arrow erases that
    connection, which touches the arrow through [arrowIndex], but the
    [Remove] action has stored no connection; undo brings the arrow back at
    its index and the connection list stays empty. *)
Theorem delete_arrow_undo_loses_connection :
  run boundArrowGesture emptyCanvas = Some arrowBound /\
  selectedIndex arrowBound = 1 /\
  (exists arrow, shapes arrowBound !! 1%nat = Some arrow /\ isArrow arrow = true) /\
  arrowConnections arrowBound = [ArrowConnection.mk 1 0 3 true] /\
  touches 1 (ArrowConnection.mk 1 0 3 true) = true /\
  arrowConnections (deleteSelectedShape arrowBound) = [] /\
  (exists a rest,
     m_undoStack (deleteSelectedShape arrowBound) = a :: rest /\
     type a = Remove /\ shapeIndex a = 1 /\
     shape a = shapes arrowBound !! 1%nat /\ connections a = []) /\
  (exists d',
     undo (deleteSelectedShape arrowBound) = Some d' /\
     shapes d' = shapes arrowBound /\
     arrowConnections d' = []).
Proof.
  split; [vm_compute; reflexivity|]. split; [reflexivity|].
  split; [eexists; split; vm_compute; reflexivity|].
  split; [vm_compute; reflexivity|]. split; [reflexivity|].
  split; [vm_compute; reflexivity|]. split.
  - eexists. eexists. split; [vm_compute; reflexivity|]. repeat split.
  - eexists. split; [vm_compute; reflexivity|]. split; vm_compute; reflexivity.
Qed.

Lemma bound_endpoint_on_anchor_example :
  exists d',
    updateConnectedArrows 1 Point.origin arrowDrawn = Some d' /\
    exists arrow',
      at_ (shapes d') 2 = Some arrow' /\ endpoint true arrow' = mkQPoint 80 30.
Proof.
  eexists. split; [vm_compute; reflexivity|].
  refine (proj2 (bound_endpoint_on_anchor arrowDrawn _ 1 Point.origin
                   (ArrowConnection.mk 2 1 3 true) _ _
                   (Handle.mk (Rect.make 80 30 1 1) Handle.ArrowAnchor 12)
                   _ _ _ _ _ _ _ _ _)).
  - vm_compute; reflexivity.
  - vm_compute; reflexivity.
  - reflexivity.
  - vm_compute. left. reflexivity.
  - reflexivity.
  - vm_compute; reflexivity.
  - reflexivity.
  - vm_compute; reflexivity.
  - intros c Hin _. vm_compute in Hin. destruct Hin as [<-|[]]. reflexivity.
Defined.

(** C6, the code at the failing input.  The loaded document binds the start
    of the arrow (shape 1) to anchor slot 7 of the rectangle (shape 0), which
    has four anchors.  The first loop of [updateConnectedArrows] translates
    the start point by [delta]; the second loop then reads
    [anchors[conn.handleIndex]] for the same connection without a bounds
    check, so the call, and the drag of the rectangle that makes it, end in
    undefined behaviour instead of completing. *)
Theorem stale_handle_update_faults :
  loadFromFile "stale.json" emptyCanvas = (true, staleLoaded) /\
  arrowConnections staleLoaded = [ArrowConnection.mk 1 0 7 true] /\
  (exists rect arrow,
     shapes staleLoaded = [rect; arrow] /\ isArrow rect = false /\ isArrow arrow = true /\
     length (getArrowAnchors rect) = 4%nat /\
     p1 (getLine arrow) = mkQPoint 200 200 /\
     firstPass 0 (mkQPoint 5 5) (getArrowAnchors rect) (arrowConnections staleLoaded)
               (shapes staleLoaded) = [rect; setP1 (mkQPoint 205 205) arrow]) /\
  (forall delta, updateConnectedArrows 0 delta staleLoaded = None) /\
  run dragLoadedRect staleLoaded = None.
Proof.
  split; [vm_compute; reflexivity|]. split; [vm_compute; reflexivity|]. split; [|split].
  - eexists. eexists. split; [vm_compute; reflexivity|]. repeat split.
  - intros delta.
    apply (fallback_then_fault staleLoaded 0 delta (ArrowConnection.mk 1 0 7 true)
             sampleRect sampleArrow); try reflexivity.
    vm_compute. left. reflexivity.
  - vm_compute; reflexivity.
Qed.


Lemma updateConnectedArrows_touches_only_arrows_witness :
  exists d',
    updateConnectedArrows 1 Point.origin arrowDrawn = Some d' /\
    length (shapes d') = length (shapes arrowDrawn) /\
    m_undoStack d' = m_undoStack arrowDrawn.
Proof.
  eexists. split; [vm_compute; reflexivity|].
  refine (let H := updateConnectedArrows_touches_only_arrows 1 Point.origin arrowDrawn _ _ in
          conj (proj1 H) (proj1 (proj2 (proj2 (proj2 (proj2 H)))))).
  vm_compute. reflexivity.
Defined.

Lemma press_selects_topmost_witness :
  exists d',
    mousePressEvent (mkQPoint 340 30) (set_selectedIndex (-1) arrowDrawn) = Some d' /\
    shapes d' = shapes arrowDrawn.
Proof.
  destruct (press_selects_topmost (mkQPoint 340 30) (set_selectedIndex (-1) arrowDrawn) eq_refl)
    as (d' & H1 & H2 & _).
  exists d'. split; [exact H1 | exact H2].
Defined.

Lemma resize_keeps_rectangle_proper_witness :
  snd (handleAnchorInteraction grabbedRect (mkQPoint (-20) (-20)) (mkQPoint 80 60)) = grabbedRect \/
  1 <= Rect.width (m_rect (snd (handleAnchorInteraction grabbedRect (mkQPoint (-20) (-20))
                                  (mkQPoint 80 60)))) /\
  1 <= Rect.height (m_rect (snd (handleAnchorInteraction grabbedRect (mkQPoint (-20) (-20))
                                   (mkQPoint 80 60)))).
Proof.
  refine (proj1 (proj2 (resize_keeps_rectangle_proper grabbedRect (mkQPoint (-20) (-20))
                          (mkQPoint 80 60) _ _))).
  - reflexivity.
  - vm_compute. discriminate.
Defined.

Lemma delete_undo_restores_shapes_witness :
  exists d1,
    undo (deleteSelectedShape (set_selectedIndex 1 arrowDrawn)) = Some d1 /\
    shapes d1 = shapes arrowDrawn /\
    arrowConnections d1 = arrowConnections arrowDrawn.
Proof.
  destruct (delete_undo_restores_shapes (set_selectedIndex 1 arrowDrawn) eq_refl eq_refl)
    as (d1 & H1 & H2 & H3 & _).
  exists d1. split; [exact H1|]. split; [exact H2|]. rewrite H3. vm_compute. reflexivity.
Defined.

Lemma keyPressEvent_delete_witness :
  keyPressEvent (mkQKeyEvent false Key_Delete) (set_selectedIndex 7 oneRectCanvas) = None /\
  keyPressEvent (mkQKeyEvent false Key_Backspace) oneRectCanvas =
    Some (deleteSelectedShape oneRectCanvas).
Proof.
  split.
  - apply (proj2 (proj2 (keyPressEvent_delete (mkQKeyEvent false Key_Delete)
                           (set_selectedIndex 7 oneRectCanvas) (or_introl eq_refl))));
      [vm_compute; discriminate | reflexivity].
  - apply (proj1 (proj2 (keyPressEvent_delete (mkQKeyEvent false Key_Backspace)
                           oneRectCanvas (or_intror eq_refl)))).
    reflexivity.
Defined.

Lemma style_change_undo_redo_witness :
  undoneAndRedone oneRectCanvas (setSelectedShapeLineColor (Color.rgb 255 0 0) oneRectCanvas) /\
  undoneAndRedone oneRectCanvas (setSelectedShapeLineWidth 5 oneRectCanvas).
Proof.
  split.
  - apply (proj1 (style_change_undo_redo oneRectCanvas sampleRect eq_refl eq_refl eq_refl)).
    vm_compute. discriminate.
  - apply (proj2 (style_change_undo_redo oneRectCanvas sampleRect eq_refl eq_refl eq_refl)).
    vm_compute. discriminate.
Defined.

Lemma z_order_reorders_witness :
  moveShapeDown (moveShapeUp (set_selectedIndex 0 arrowDrawn)) = set_selectedIndex 0 arrowDrawn.
Proof.
  apply (proj1 (proj2 (proj2 (proj2 (proj2 (proj2
           (z_order_reorders (set_selectedIndex 0 arrowDrawn)))))))).
  vm_compute. split; [discriminate | reflexivity].
Defined.

Lemma emptyCanvas_invariant : canvasInvariant emptyCanvas.
Proof.
  split; [left; reflexivity|]. split; [reflexivity|]. split; constructor.
Defined.

Lemma operations_keep_invariant_witness :
  exists d', performAll arrowSession emptyCanvas = Some d' /\ canvasInvariant d'.
Proof.
  eexists. split; [vm_compute; reflexivity|].
  apply (operations_keep_invariant arrowSession emptyCanvas); [exact emptyCanvas_invariant|].
  vm_compute. reflexivity.
Defined.

Lemma delete_key_safe_witness :
  exists d',
    performAll arrowSession emptyCanvas = Some d' /\
    keyPressEvent (mkQKeyEvent false Key_Delete) d' = Some (deleteSelectedShape d').
Proof.
  eexists. split; [vm_compute; reflexivity|].
  apply (delete_key_safe arrowSession (mkQKeyEvent false Key_Delete) emptyCanvas);
    [exact emptyCanvas_invariant | vm_compute; reflexivity | left; reflexivity].
Defined.

Lemma undo_redo_fail_only_in_move_witness :
  undo staleMoved = None /\
  exists a rest, m_undoStack staleMoved = a :: rest /\ type a = Move /\
                 inRange (shapeIndex a) (shapes staleMoved) = true.
Proof.
  split; [vm_compute; reflexivity|].
  assert (Hh : historyValid staleMoved).
  { split; [vm_compute; reflexivity|]. split.
    - constructor; [|constructor]. split; [vm_compute; discriminate | exact I].
    - vm_compute. constructor. }
  apply (proj1 (undo_redo_fail_only_in_move staleMoved Hh)). vm_compute. reflexivity.
Defined.

Lemma updateConnectedArrows_completes_witness :
  exists d', updateConnectedArrows 1 Point.origin arrowDrawn = Some d'.
Proof.
  refine (updateConnectedArrows_completes 1 Point.origin arrowDrawn _ _ _ _).
  - vm_compute. reflexivity.
  - reflexivity.
  - vm_compute arrowConnections. repeat constructor.
Defined.

Lemma drag_then_undo_restores_shape_witness :
  shapes draggedCanvas !! 0%nat = Some (moveBy (mkQPoint 20 20) sampleRect) /\
  exists d2, undo draggedCanvas = Some d2 /\ shapes d2 !! 0%nat = Some sampleRect.
Proof.
  assert (Hg : grabbedAt 0 sampleRect (mkQPoint 40 30) (mkQPoint 40 30) grabbedCanvas).
  { repeat split; vm_compute; reflexivity. }
  assert (Hi : m_ignoreHistoryActions grabbedCanvas = false) by (vm_compute; reflexivity).
  assert (Hq : List.last [mkQPoint 45 35; mkQPoint 60 50] (mkQPoint 40 30) <> mkQPoint 40 30).
  { vm_compute. discriminate. }
  assert (Hrun : performAll dragSession grabbedCanvas = Some draggedCanvas).
  { vm_compute. reflexivity. }
  destruct (drag_then_undo_restores_shape 0 sampleRect (mkQPoint 40 30)
              [mkQPoint 45 35; mkQPoint 60 50] 10 grabbedCanvas draggedCanvas Hg Hi Hq Hrun)
    as (H1 & _ & _ & _ & H5).
  split; [exact H1|].
  eexists. split; [vm_compute; reflexivity|].
  refine (proj1 (H5 _ _)). vm_compute. reflexivity.
Defined.

Lemma resize_then_undo_restores_rect_witness :
  exists r,
    shapes resizedCanvas !! 0%nat = Some (clearHandleSelection (set_m_rect r grabbedRect)) /\
    resizing resizedCanvas = false.
Proof.
  assert (Hg : resizingAt 0 grabbedRect (m_rect grabbedRect) handleCanvas).
  { repeat split; vm_compute; try reflexivity; discriminate. }
  assert (Hi : m_ignoreHistoryActions handleCanvas = false) by (vm_compute; reflexivity).
  assert (Hrun : performAll resizeSession handleCanvas = Some resizedCanvas).
  { vm_compute. reflexivity. }
  destruct (resize_then_undo_restores_rect 0 grabbedRect [mkQPoint 90 65] (mkQPoint 90 65) 10
              handleCanvas resizedCanvas Hg Hi Hrun)
    as (r & H1 & H2 & _).
  exists r. split; [exact H1 | exact H2].
Defined.

Lemma loadFromFile_replaces_document_witness :
  shapes (snd (loadFromFile "diagram.json" oneAddCanvas)) =
    omap loadedShape (Json.toArray (Json.get "shapes" sampleDocument)) /\
  length (shapes (snd (loadFromFile "diagram.json" oneAddCanvas))) = 2%nat.
Proof.
  assert (Hf : file_read "diagram.json" = Some [Byte.x7b; Byte.x7d]) by reflexivity.
  assert (Hj : QJsonDocument_fromJson [Byte.x7b; Byte.x7d] = Some sampleDocument)
    by reflexivity.
  destruct (loadFromFile_replaces_document "diagram.json" [Byte.x7b; Byte.x7d] sampleDocument
              oneAddCanvas Hf Hj) as (_ & H2 & _).
  split; [exact H2 | vm_compute; reflexivity].
Defined.

Lemma save_then_load_roundtrip_witness :
  shapes (snd (@loadFromFile NoRotation SpecShapes SavedRuntime "saved.json" emptyCanvas)) =
    shapes arrowBound /\
  arrowConnections (snd (@loadFromFile NoRotation SpecShapes SavedRuntime "saved.json"
                           emptyCanvas)) = arrowConnections arrowBound.
Proof.
  assert (Hsave : saveToFile spec_toJson spec_colorName true (mkQSize 800 600) arrowBound =
                  Some savedDocument) by (vm_compute; reflexivity).
  assert (Hf : @file_read SavedRuntime "saved.json" = Some [Byte.x7b]) by reflexivity.
  assert (Hj : @QJsonDocument_fromJson SavedRuntime [Byte.x7b] = Some savedDocument)
    by reflexivity.
  destruct (@save_then_load_roundtrip NoRotation SpecShapes SavedRuntime spec_toJson
              spec_colorName (mkQSize 800 600) "saved.json" [Byte.x7b] savedDocument
              arrowBound emptyCanvas Hsave Hf Hj) as (_ & Hc & Hs & _).
  split.
  - apply Hs.
    let l := eval vm_compute in (shapes arrowBound) in change (shapes arrowBound) with l.
    repeat (constructor; [vm_compute; reflexivity|]). constructor.
  - apply Hc.
    let l := eval vm_compute in (arrowConnections arrowBound) in
    change (arrowConnections arrowBound) with l.
    repeat constructor; vm_compute; discriminate.
Defined.

Lemma paste_places_copy_witness :
  Rect.topLeft (m_rect (pastedShape (mkQPoint 100 100) sampleRect)) = mkQPoint 100 100 /\
  Rect.width (m_rect (pastedShape (mkQPoint 100 100) sampleRect)) = 80.
Proof.
  assert (Hk : isArrow sampleRect = false) by reflexivity.
  assert (Hi : m_ignoreHistoryActions oneRectCanvas = false) by reflexivity.
  destruct (paste_places_copy (mkQPoint 100 100) sampleRect oneRectCanvas Hk Hi)
    as (_ & H2 & H3 & _).
  split; [exact H2 | rewrite H3; vm_compute; reflexivity].
Defined.

Lemma release_ends_gesture_witness :
  dragging clickedCanvas = false /\
  shapes clickedCanvas = shapes grabbedCanvas /\
  m_undoStack clickedCanvas = m_undoStack grabbedCanvas.
Proof.
  assert (Hr : mouseReleaseEvent (mkQPoint 40 30) 10 grabbedCanvas = Some clickedCanvas)
    by (vm_compute; reflexivity).
  destruct (release_ends_gesture (mkQPoint 40 30) 10 grabbedCanvas clickedCanvas Hr)
    as (H1 & _ & _ & _ & _ & _ & H7).
  assert (Hg : grabbedAt 0 sampleRect (mkQPoint 40 30) (mkQPoint 40 30) grabbedCanvas).
  { repeat split; vm_compute; reflexivity. }
  destruct (H7 _ _ _ Hg) as (H8 & H9 & _).
  split; [exact H1|]. split; [exact H8 | exact H9].
Defined.

Lemma size_guards_witness :
  0 < m_gridSize (setGridSize 0 emptyCanvas) /\
  pagePositive (snd (loadFromFile "diagram.json" emptyCanvas)).
Proof.
  split.
  - apply (proj1 (proj2 (size_guards emptyCanvas))). vm_compute. reflexivity.
  - apply (proj1 (proj2 (proj2 (proj2 (size_guards emptyCanvas))))).
    split; vm_compute; reflexivity.
Defined.

Lemma dropEvent_adds_under_pointer_witness :
  exists s,
    droppedShape "rect" (mkQPoint 40 30) = Some s /\
    shapes (dropEvent "rect" (mkQPoint 40 30) emptyCanvas) = shapes emptyCanvas ++ [s].
Proof.
  assert (Hi : m_ignoreHistoryActions emptyCanvas = false) by reflexivity.
  destruct (proj1 (dropEvent_adds_under_pointer "rect" (mkQPoint 40 30) emptyCanvas Hi))
    as (s & H1 & H2 & _).
  { left. reflexivity. }
  exists s. split; [exact H1 | exact H2].
Defined.


Lemma startArrow_binds_new_arrow_witness :
  startArrow (mkQPoint 90 30) 0 sampleRect oneRectCanvas = Some None /\
  exists d', startArrow (mkQPoint 90 30) 12 sampleRect oneRectCanvas = Some (Some d') /\
    length (shapes d') = 2%nat /\ selectedIndex d' = 1 /\ dragging d' = true /\
    exists added, arrowConnections d' = ArrowConnection.mk 1 0 3 true :: added.
Proof.
  assert (Hs : at_ (shapes oneRectCanvas) (selectedIndex oneRectCanvas) = Some sampleRect)
    by (vm_compute; reflexivity).
  split.
  - apply (proj1 (startArrow_binds_new_arrow (mkQPoint 90 30) 0 sampleRect oneRectCanvas Hs)).
    vm_compute. reflexivity.
  - assert (Hr : startArrow (mkQPoint 90 30) 12 sampleRect oneRectCanvas
                 = Some (Some (default emptyCanvas
                     (default None
                        (startArrow (mkQPoint 90 30) 12 sampleRect oneRectCanvas)))))
      by (vm_compute; reflexivity).
    destruct (proj2 (startArrow_binds_new_arrow (mkQPoint 90 30) 12 sampleRect
                       oneRectCanvas Hs) _ Hr)
      as (H1 & _ & _ & H4 & H5 & H6 & _).
    eexists. split; [exact Hr|]. split; [exact H1|]. split; [exact H4|].
    split; [exact H6 | exact H5].
Defined.

Lemma press_on_handles_witness :
  mousePressEvent (mkQPoint 500 500) oneRectCanvas
    = mousePressEvent (mkQPoint 500 500) (set_selectedIndex (-1) oneRectCanvas) /\
  exists d',
    mousePressEvent (mkQPoint 80 60) oneRectCanvas = Some d' /\
    shapes d' = [setSelectedHandleIndex 7 sampleRect] /\
    resizing d' = true /\ originalRect d' = getRect sampleRect.
Proof.
  assert (Hsel : selectedIndex oneRectCanvas = Z.of_nat 0) by reflexivity.
  assert (Hs : shapes oneRectCanvas !! 0%nat = Some sampleRect) by reflexivity.
  destruct (press_on_handles (mkQPoint 500 500) 0 sampleRect oneRectCanvas Hsel Hs)
    as [Hmiss _].
  destruct (press_on_handles (mkQPoint 80 60) 0 sampleRect oneRectCanvas Hsel Hs)
    as [_ Hhit].
  split.
  - apply Hmiss. intros j h.
    do 13 (destruct j as [|j]; [vm_compute; intros [= <-]; reflexivity|]).
    vm_compute. discriminate.
  - destruct (Hhit 7%nat (Handle.mk (Rect.make 76 56 8 8) Handle.Scale 7))
      as (d' & H1 & H2 & _ & _ & _ & _ & _ & _ & H9 & _).
    + vm_compute. reflexivity.
    + vm_compute. reflexivity.
    + discriminate.
    + intros j h' Hj.
      do 7 (destruct j as [|j]; [vm_compute; intros [= <-]; reflexivity|]). lia.
    + exists d'. split; [exact H1|]. split; [exact H2|]. exact (H9 eq_refl).
Defined.


End Witnesses.
